(** * Jamper: the streaming core of the chat client and its proxy

    A shallow embedding of the event decoder ([consumeSSE]), the result merge
    engine ([applyPerplexityChunk], [applyPerplexityFinal]), the deep-research
    poller ([runDeepResearchAsync]) and the payload builder ([buildPayload]) of
    [public/app.js], and of the credential gate ([getApiKey],
    [proxyPerplexity]) of [server.js].

    JavaScript strings are sequences of UTF-16 code units, JSON data is an
    inductive type of values, network reads are lists of bytes, and the
    asynchronous functions are explicit state machines driven by the events
    the browser delivers to them. *)

From Stdlib Require Import List NArith ZArith Bool.
From Stdlib Require Import Strings.String Strings.Ascii Strings.Byte Floats.
From Stdlib Require Import Numbers.DecimalString.
From Stdlib Require Import Lia.
Import ListNotations.

Set Implicit Arguments.
Set Warnings "-register-all".

(** ** JavaScript strings *)

Module JsString.

Local Open Scope N_scope.

(** A string is its sequence of UTF-16 code units. *)
Definition code_unit := N.
Definition jsstring := list code_unit.

(** Source literals that are plain ASCII are written [js "..."]. *)
Fixpoint js (s : string) : jsstring :=
  match s with
  | EmptyString => []
  | String c rest => N_of_ascii c :: js rest
  end.

Arguments js : simpl never.

Fixpoint eqb (a b : jsstring) : bool :=
  match a, b with
  | [], [] => true
  | x :: a', y :: b' => N.eqb x y && eqb a' b'
  | _, _ => false
  end.



(** The decimal digits of a natural number, as [String(n)] prints an
    integer such as an HTTP status. *)
Definition of_N (n : N) : jsstring :=
  js (NilZero.string_of_uint (N.to_uint n)).

(** ToBoolean on a string: only the empty string is falsy. *)
Definition nonempty (s : jsstring) : bool :=
  match s with [] => false | _ :: _ => true end.

(** [String.prototype.startsWith]. *)
Fixpoint startsWith (s prefix : jsstring) : bool :=
  match prefix, s with
  | [], _ => true
  | p :: prefix', c :: s' => N.eqb c p && startsWith s' prefix'
  | _ :: _, [] => false
  end.

(** [s.slice(n)] for a non-negative [n]. *)
Definition slice (n : nat) (s : jsstring) : jsstring := skipn n s.

(** The code units [String.prototype.trim] strips: WhiteSpace (TAB, VT, FF,
    ZWNBSP and the space separators) and LineTerminator (LF, CR, LS, PS). *)
Definition is_space (c : code_unit) : bool :=
  ((9 <=? c) && (c <=? 13)) || (c =? 32) || (c =? 160) || (c =? 5760)
  || ((8192 <=? c) && (c <=? 8202)) || (c =? 8232) || (c =? 8233)
  || (c =? 8239) || (c =? 8287) || (c =? 12288) || (c =? 65279).

Fixpoint trimStart (s : jsstring) : jsstring :=
  match s with
  | c :: s' => if is_space c then trimStart s' else s
  | [] => []
  end.

Definition trimEnd (s : jsstring) : jsstring := rev (trimStart (rev s)).

Definition trim (s : jsstring) : jsstring := trimEnd (trimStart s).

(** [s.split(/\n/)]: never empty; a piece ends at each line feed. *)
Fixpoint split_lf (s : jsstring) : list jsstring :=
  match s with
  | [] => [[]]
  | c :: t =>
      if c =? 10 then [] :: split_lf t
      else match split_lf t with
           | p :: ps => (c :: p) :: ps
           | [] => [[c]]
           end
  end.

(** [s.split(/\n\n/)]: the matches are found left to right and do not
    overlap, so of three line feeds in a row the first two separate and the
    third starts the next piece. *)
Fixpoint split_lflf (s : jsstring) : list jsstring :=
  match s with
  | [] => [[]]
  | c :: t =>
      let keep := match split_lflf t with
                  | p :: ps => (c :: p) :: ps
                  | [] => [[c]]
                  end in
      match t with
      | c' :: rest => if (c =? 10) && (c' =? 10) then [] :: split_lflf rest else keep
      | [] => keep
      end
  end.

(** Putting [c] in front of the first piece of a split. *)
Definition push (c : code_unit) (pieces : list jsstring) : list jsstring :=
  match pieces with
  | p :: ps => (c :: p) :: ps
  | [] => [[c]]
  end.

(** [pieces.join('\n\n')], the inverse of [split_lflf]. *)
Fixpoint join_lflf (pieces : list jsstring) : jsstring :=
  match pieces with
  | [] => []
  | [p] => p
  | p :: ps => p ++ 10 :: 10 :: join_lflf ps
  end.

(** [encodeURIComponent]: letters, digits and [-_.!~*'()] stay, every other
    character becomes the [%XX] of its UTF-8 bytes, and a lone surrogate
    throws a URIError, here [None]. *)
Definition unreserved (c : code_unit) : bool :=
  ((65 <=? c) && (c <=? 90)) || ((97 <=? c) && (c <=? 122)) || ((48 <=? c) && (c <=? 57))
  || (c =? 45) || (c =? 95) || (c =? 46) || (c =? 33) || (c =? 126) || (c =? 42)
  || (c =? 39) || (c =? 40) || (c =? 41).

Definition utf8_bytes (cp : N) : list N :=
  if cp <? 128 then [cp]
  else if cp <? 2048 then [192 + N.shiftr cp 6; 128 + N.land cp 63]
  else if cp <? 65536 then
    [224 + N.shiftr cp 12; 128 + N.land (N.shiftr cp 6) 63; 128 + N.land cp 63]
  else
    [240 + N.shiftr cp 18; 128 + N.land (N.shiftr cp 12) 63;
     128 + N.land (N.shiftr cp 6) 63; 128 + N.land cp 63].

Definition hex (d : N) : code_unit := if d <? 10 then 48 + d else 55 + d.

Definition percent (bytes : list N) : jsstring :=
  flat_map (fun b => [37; hex (N.shiftr b 4); hex (N.land b 15)]) bytes.

Fixpoint encodeURIComponent (s : jsstring) : option jsstring :=
  match s with
  | [] => Some []
  | c :: t =>
      if unreserved c then option_map (cons c) (encodeURIComponent t)
      else if (55296 <=? c) && (c <=? 56319) then
        match t with
        | d :: t' =>
            if (56320 <=? d) && (d <=? 57343) then
              option_map
                (app (percent (utf8_bytes (65536 + (c - 55296) * 1024 + (d - 56320)))))
                (encodeURIComponent t')
            else None
        | [] => None
        end
      else if (56320 <=? c) && (c <=? 57343) then None
      else option_map (app (percent (utf8_bytes c))) (encodeURIComponent t)
  end.

End JsString.

(** ** JSON values as JavaScript sees them *)

Module Js.

Import JsString.

(** What [JSON.parse] can return, and [undefined] for what a property read
    yields when nothing is there. An object keeps its own properties in
    insertion order, each key once. *)
Inductive value : Type :=
| VUndefined
| VNull
| VBool (b : bool)
| VNumber (n : float)
| VString (s : jsstring)
| VArray (items : list value)
| VObject (props : list (jsstring * value)).

(** ToBoolean: [undefined], [null], [false], [+0], [-0], [NaN] and the empty
    string are falsy; every array and every object is truthy. *)
Definition ToBoolean (v : value) : bool :=
  match v with
  | VUndefined | VNull => false
  | VBool b => b
  | VNumber n => negb (PrimFloat.is_zero n || PrimFloat.is_nan n)
  | VString s => nonempty s
  | VArray _ | VObject _ => true
  end.

(** [v == null]. *)
Definition nullish (v : value) : bool :=
  match v with
  | VUndefined | VNull => true
  | _ => false
  end.

(** [v === 'literal']. *)
Definition is_string (v : value) (lit : jsstring) : bool :=
  match v with
  | VString s => eqb s lit
  | _ => false
  end.

(** [a || b] on values. *)
Definition or_else (a b : value) : value := if ToBoolean a then a else b.

Fixpoint own (props : list (jsstring * value)) (k : jsstring) : value :=
  match props with
  | [] => VUndefined
  | (k', v) :: rest => if eqb k' k then v else own rest k
  end.

Fixpoint has_own (props : list (jsstring * value)) (k : jsstring) : bool :=
  match props with
  | [] => false
  | (k', _) :: rest => eqb k' k || has_own rest k
  end.

Local Open Scope N_scope.

Fixpoint decimal (acc : N) (s : jsstring) : option N :=
  match s with
  | [] => Some acc
  | c :: t => if (48 <=? c) && (c <=? 57) then decimal (acc * 10 + (c - 48)) t else None
  end.

(** A property key that is a canonical array index: ["0"], or digits with no
    leading zero. *)
Definition array_index (k : jsstring) : option nat :=
  match k with
  | [] => None
  | [48] => Some 0%nat
  | c :: _ => if c =? 48 then None else option_map N.to_nat (decimal 0 k)
  end.

Definition length_value {A} (l : list A) : value :=
  VNumber (PrimFloat.of_uint63 (Uint63.of_Z (Z.of_nat (List.length l)))).

(** [v.k] and [v[k]] for a [v] that is neither [undefined] nor [null]: own
    data properties, the elements and [length] of arrays and strings.
    Prototype methods are functions, which no code modelled here reads as
    values; a number or a boolean has no data property. *)
Definition get (v : value) (k : jsstring) : value :=
  match v with
  | VObject props => own props k
  | VArray items =>
      match array_index k with
      | Some i => nth i items VUndefined
      | None => if eqb k (js "length") then length_value items else VUndefined
      end
  | VString s =>
      match array_index k with
      | Some i => match nth_error s i with Some c => VString [c] | None => VUndefined end
      | None => if eqb k (js "length") then length_value s else VUndefined
      end
  | _ => VUndefined
  end.

(** Optional chaining [v?.k]: [undefined] when [v] is [undefined] or [null]. *)
Definition get_opt (v : value) (k : jsstring) : value :=
  if nullish v then VUndefined else get v k.

(** The platform functions the program calls but does not define.
    [JSON_parse] is [None] where [JSON.parse] throws its SyntaxError;
    [Number_toString] is the decimal rendering of a number. *)
Class Platform : Type := {
  JSON_parse : jsstring -> option value;
  Number_toString : float -> jsstring
}.

Section ToString.

Context {P : Platform}.

(** [String(v)] and [`${v}`]. An array joins its elements with commas,
    [null] and [undefined] elements as empty text. An object is
    "[object Object]" through [Object.prototype.toString]; an own [toString]
    property, never callable in JSON data, shadows that method, [valueOf]
    then yields no primitive either, and the conversion throws a TypeError,
    here [None]. *)
Fixpoint ToString (v : value) : option jsstring :=
  match v with
  | VUndefined => Some (js "undefined")
  | VNull => Some (js "null")
  | VBool true => Some (js "true")
  | VBool false => Some (js "false")
  | VNumber n => Some (Number_toString n)
  | VString s => Some s
  | VArray items =>
      (fix join (l : list value) : option jsstring :=
         match l with
         | [] => Some []
         | x :: rest =>
             match (if nullish x then Some [] else ToString x) with
             | None => None
             | Some sx =>
                 match rest with
                 | [] => Some sx
                 | _ :: _ =>
                     match join rest with
                     | None => None
                     | Some sr => Some (sx ++ 44 :: sr)
                     end
                 end
             end
         end) items
  | VObject props =>
      if has_own props (js "toString") then None
      else Some (js "[object Object]")
  end.

End ToString.

End Js.

(** ** [TextDecoder('utf-8')] in streaming mode *)

Module TextDecoder.

Import JsString.
Local Open Scope N_scope.

(** The UTF-8 decoder of the Encoding standard: the code point under
    construction, the continuation bytes seen and needed, and the range the
    next continuation byte must fall in. *)
Record utf8 : Type := {
  code_point : N;
  bytes_seen : N;
  bytes_needed : N;
  lower_boundary : N;
  upper_boundary : N
}.

Definition utf8_init : utf8 :=
  {| code_point := 0; bytes_seen := 0; bytes_needed := 0;
     lower_boundary := 128; upper_boundary := 191 |}.

Definition between (lo hi b : N) : bool := (lo <=? b) && (b <=? hi).

(** A byte read when no sequence is open. *)
Definition utf8_lead (b : N) : utf8 * list N :=
  if b <=? 127 then (utf8_init, [b])
  else if between 194 223 b then
    ({| code_point := N.land b 31; bytes_seen := 0; bytes_needed := 1;
        lower_boundary := 128; upper_boundary := 191 |}, [])
  else if between 224 239 b then
    ({| code_point := N.land b 15; bytes_seen := 0; bytes_needed := 2;
        lower_boundary := if b =? 224 then 160 else 128;
        upper_boundary := if b =? 237 then 159 else 191 |}, [])
  else if between 240 244 b then
    ({| code_point := N.land b 7; bytes_seen := 0; bytes_needed := 3;
        lower_boundary := if b =? 240 then 144 else 128;
        upper_boundary := if b =? 244 then 143 else 191 |}, [])
  else (utf8_init, [65533]).

(** The decoder's handler for one byte, with the code points it emits. A
    byte outside the expected range ends the open sequence with U+FFFD and
    is then read again as a lead byte. *)
Definition utf8_handler (st : utf8) (b : N) : utf8 * list N :=
  if bytes_needed st =? 0 then utf8_lead b
  else if negb (between (lower_boundary st) (upper_boundary st) b) then
    let (st', out) := utf8_lead b in (st', 65533 :: out)
  else
    let cp := N.lor (N.shiftl (code_point st) 6) (N.land b 63) in
    let seen := bytes_seen st + 1 in
    if seen =? bytes_needed st then (utf8_init, [cp])
    else ({| code_point := cp; bytes_seen := seen; bytes_needed := bytes_needed st;
             lower_boundary := 128; upper_boundary := 191 |}, []).

(** A code point as UTF-16 code units. *)
Definition utf16 (cp : N) : jsstring :=
  if cp <? 65536 then [cp]
  else [55296 + N.shiftr (cp - 65536) 10; 56320 + N.land (cp - 65536) 1023].

(** A [TextDecoder] that is only ever called with [{stream: true}]: the
    UTF-8 state survives from one call to the next, and a byte order mark is
    dropped once, at the very start. *)
Record decoder : Type := {
  state : utf8;
  bom_seen : bool
}.

Definition new_TextDecoder : decoder := {| state := utf8_init; bom_seen := false |}.

Fixpoint serialize (bom : bool) (cps : list N) : bool * jsstring :=
  match cps with
  | [] => (bom, [])
  | cp :: rest =>
      let (bom', out) := serialize true rest in
      if negb bom && (cp =? 65279) then (bom', out) else (bom', utf16 cp ++ out)
  end.

Definition decode_byte (d : decoder) (b : byte) : decoder * jsstring :=
  let (st, cps) := utf8_handler (state d) (Byte.to_N b) in
  let (bom, out) := serialize (bom_seen d) cps in
  ({| state := st; bom_seen := bom |}, out).

(** [decoder.decode(value, { stream: true })]. *)
Fixpoint decode (d : decoder) (bytes : list byte) : decoder * jsstring :=
  match bytes with
  | [] => (d, [])
  | b :: rest =>
      let (d1, out1) := decode_byte d b in
      let (d2, out2) := decode d1 rest in
      (d2, out1 ++ out2)
  end.


End TextDecoder.

(** ** The event decoder: [consumeSSE] *)

Module Sse.

Import JsString Js TextDecoder.

(** Whether the function is still running or has executed [return]. *)
Inductive flow : Type := Running | Returned.

Section Decoder.

Context {P : Platform}.

(** [safeJsonParse]: the parsed value, or [null] when [JSON.parse] throws. *)
Definition safeJsonParse (text : jsstring) : value :=
  match JSON_parse text with
  | Some v => v
  | None => VNull
  end.

(** The body of [for (const line of lines)], with the values it passes to
    [onChunk]. *)
Definition on_line (line : jsstring) : flow * list value :=
  if negb (startsWith line (js "data:")) then (Running, [])
  else
    let data := trim (slice 5 line) in
    if negb (nonempty data) then (Running, [])
    else if eqb data (js "[DONE]") then (Returned, [])
    else
      let obj := safeJsonParse data in
      if ToBoolean obj then (Running, [obj]) else (Running, []).

Fixpoint for_lines (lines : list jsstring) : flow * list value :=
  match lines with
  | [] => (Running, [])
  | line :: rest =>
      match on_line line with
      | (Returned, out) => (Returned, out)
      | (Running, out) => let (f, out') := for_lines rest in (f, out ++ out')
      end
  end.

(** [evt.split(/\n/).map((l) => l.trim()).filter(Boolean)]. *)
Definition lines_of (evt : jsstring) : list jsstring :=
  filter nonempty (map trim (split_lf evt)).

Fixpoint for_events (events : list jsstring) : flow * list value :=
  match events with
  | [] => (Running, [])
  | evt :: rest =>
      match for_lines (lines_of evt) with
      | (Returned, out) => (Returned, out)
      | (Running, out) => let (f, out') := for_events rest in (f, out ++ out')
      end
  end.

(** The local variables that live across reads. *)
Record locals : Type := {
  text_decoder : decoder;
  buffer : jsstring
}.

(** The locals before the first read. *)
Definition fresh : locals := {| text_decoder := new_TextDecoder; buffer := [] |}.

(** One turn of the [while] loop for a read that delivered [chunk]. *)
Definition on_read (st : locals) (chunk : list byte) : locals * flow * list value :=
  let (d, text) := decode (text_decoder st) chunk in
  let buffer1 := buffer st ++ text in
  let events := split_lflf buffer1 in
  let buffer2 := last events [] in
  let events := removelast events in
  let (f, out) := for_events events in
  ({| text_decoder := d; buffer := buffer2 |}, f, out).

(** The loop over the reads of a body that delivers [chunks] and then
    reports [done]. *)
Fixpoint read_loop (st : locals) (chunks : list (list byte)) : locals * flow * list value :=
  match chunks with
  | [] => (st, Running, [])
  | chunk :: rest =>
      match on_read st chunk with
      | (st1, Returned, out) => (st1, Returned, out)
      | (st1, Running, out) =>
          let '(st2, f, out') := read_loop st1 rest in (st2, f, out ++ out')
      end
  end.

(** [consumeSSE(resp, onChunk)]: the values handed to [onChunk], in order. *)
Definition consumeSSE (chunks : list (list byte)) : list value :=
  snd (read_loop fresh chunks).

(** Two loop bodies in sequence: the second runs unless the first returned. *)
Definition and_then (r1 r2 : flow * list value) : flow * list value :=
  match r1 with
  | (Returned, out) => (Returned, out)
  | (Running, out) => let (f, out') := r2 in (f, out ++ out')
  end.

(** The text a fresh decoder makes of [bytes]. *)
Definition decoded (bytes : list byte) : jsstring :=
  snd (decode new_TextDecoder bytes).

(** What a text gives rise to once it has been read in full: the events of
    every piece that a blank line closes, up to the first [DONE]. The piece
    after the last blank line is not among them. *)
Definition emitted (text : jsstring) : list value :=
  snd (for_events (removelast (split_lflf text))).

(** The open piece is all the decoder keeps between reads, and it holds no
    separator. *)
Definition settled (st : locals) : Prop :=
  split_lflf (buffer st) = [buffer st].

End Decoder.

End Sse.

(** ** The result merge engine *)

Module Merge.

Import JsString Js.

(** [msg.meta] of an assistant message: the seven side-channel fields and the
    poller's status note, which is absent until a poller writes it. *)
Record meta : Type := {
  citations : value;
  search_results : value;
  usage : value;
  reasoning_steps : value;
  images : value;
  videos : value;
  related_questions : value;
  async : option jsstring
}.

(** The assistant message of one exchange. Its [content] only ever holds
    strings: [sendPrompt] creates it as [''] and every later write stores a
    string. *)
Record message : Type := {
  role : jsstring;
  content : jsstring;
  meta_of : meta
}.

(** [assistantMsg] as [sendPrompt] creates it. *)
Definition new_assistant : message :=
  {| role := js "assistant";
     content := [];
     meta_of := {| citations := VArray []; search_results := VArray [];
                   usage := VObject []; reasoning_steps := VArray [];
                   images := VArray []; videos := VArray [];
                   related_questions := VArray []; async := None |} |}.

Inductive side_field : Type :=
| Citations | SearchResults | Usage | ReasoningSteps | Images | Videos | RelatedQuestions.

Definition side_fields : list side_field :=
  [Citations; SearchResults; Usage; ReasoningSteps; Images; Videos; RelatedQuestions].

Definition side_field_eqb (f g : side_field) : bool :=
  match f, g with
  | Citations, Citations | SearchResults, SearchResults | Usage, Usage
  | ReasoningSteps, ReasoningSteps | Images, Images | Videos, Videos
  | RelatedQuestions, RelatedQuestions => true
  | _, _ => false
  end.

Definition key (f : side_field) : jsstring :=
  match f with
  | Citations => js "citations"
  | SearchResults => js "search_results"
  | Usage => js "usage"
  | ReasoningSteps => js "reasoning_steps"
  | Images => js "images"
  | Videos => js "videos"
  | RelatedQuestions => js "related_questions"
  end.

(** [msg.meta.f]. *)
Definition field (f : side_field) (m : meta) : value :=
  match f with
  | Citations => citations m
  | SearchResults => search_results m
  | Usage => usage m
  | ReasoningSteps => reasoning_steps m
  | Images => images m
  | Videos => videos m
  | RelatedQuestions => related_questions m
  end.

(** [msg.meta.f = v]. *)
Definition set_field (f : side_field) (v : value) (m : meta) : meta :=
  match f with
  | Citations =>
      {| citations := v; search_results := search_results m; usage := usage m;
         reasoning_steps := reasoning_steps m; images := images m; videos := videos m;
         related_questions := related_questions m; async := async m |}
  | SearchResults =>
      {| citations := citations m; search_results := v; usage := usage m;
         reasoning_steps := reasoning_steps m; images := images m; videos := videos m;
         related_questions := related_questions m; async := async m |}
  | Usage =>
      {| citations := citations m; search_results := search_results m; usage := v;
         reasoning_steps := reasoning_steps m; images := images m; videos := videos m;
         related_questions := related_questions m; async := async m |}
  | ReasoningSteps =>
      {| citations := citations m; search_results := search_results m; usage := usage m;
         reasoning_steps := v; images := images m; videos := videos m;
         related_questions := related_questions m; async := async m |}
  | Images =>
      {| citations := citations m; search_results := search_results m; usage := usage m;
         reasoning_steps := reasoning_steps m; images := v; videos := videos m;
         related_questions := related_questions m; async := async m |}
  | Videos =>
      {| citations := citations m; search_results := search_results m; usage := usage m;
         reasoning_steps := reasoning_steps m; images := images m; videos := v;
         related_questions := related_questions m; async := async m |}
  | RelatedQuestions =>
      {| citations := citations m; search_results := search_results m; usage := usage m;
         reasoning_steps := reasoning_steps m; images := images m; videos := videos m;
         related_questions := v; async := async m |}
  end.

(** [msg.meta.async = note]. *)
Definition set_async (note : jsstring) (m : meta) : meta :=
  {| citations := citations m; search_results := search_results m; usage := usage m;
     reasoning_steps := reasoning_steps m; images := images m; videos := videos m;
     related_questions := related_questions m; async := Some note |}.

Definition with_meta (msg : message) (m : meta) : message :=
  {| role := role msg; content := content msg; meta_of := m |}.

Definition with_content (msg : message) (c : jsstring) : message :=
  {| role := role msg; content := c; meta_of := meta_of msg |}.

(** [if (v) msg.meta.f = v;] *)
Definition assign_if (f : side_field) (v : value) (m : meta) : meta :=
  if ToBoolean v then set_field f v m else m.

(** [chunk?.choices?.[0]?.delta]. *)
Definition delta_of (chunk : value) : value :=
  get_opt (get_opt (get_opt chunk (js "choices")) (js "0")) (js "delta").

(** [data?.choices?.[0]?.message?.content]. *)
Definition final_content (data : value) : value :=
  get_opt (get_opt (get_opt (get_opt data (js "choices")) (js "0")) (js "message"))
    (js "content").

Section Engine.

Context {P : Platform}.

(** [applyPerplexityChunk(msg, chunk)]: the message after the call, or [None]
    when the call throws a TypeError, which it can only do before its first
    write: in [String(delta.content)], or in [chunk.citations] when [chunk] is
    [null] or [undefined]. *)
Definition applyPerplexityChunk (msg : message) (chunk : value) : option message :=
  let delta := delta_of chunk in
  let appended :=
    if ToBoolean (get_opt delta (js "content")) then
      match ToString (get_opt delta (js "content")) with
      | Some text => Some (content msg ++ text)
      | None => None
      end
    else Some (content msg) in
  match appended with
  | None => None
  | Some content1 =>
      if nullish chunk then None
      else
        let m := meta_of msg in
        let m := assign_if Citations (get chunk (js "citations")) m in
        let m := assign_if SearchResults (get chunk (js "search_results")) m in
        let m := assign_if Usage (get chunk (js "usage")) m in
        let m := assign_if ReasoningSteps (get chunk (js "reasoning_steps")) m in
        let m := assign_if Images (get chunk (js "images")) m in
        let m := assign_if Videos (get chunk (js "videos")) m in
        let m := assign_if RelatedQuestions (get chunk (js "related_questions")) m in
        let m := assign_if ReasoningSteps (get_opt delta (js "reasoning_steps")) m in
        Some {| role := role msg; content := content1; meta_of := m |}
  end.

(** [applyPerplexityFinal(msg, data)]: [None] when [String(content)] throws,
    which happens before any write. *)
Definition applyPerplexityFinal (msg : message) (data : value) : option message :=
  let c := final_content data in
  let replaced :=
    if negb (nullish c) then ToString c else Some (content msg) in
  match replaced with
  | None => None
  | Some content1 =>
      let m := meta_of msg in
      let m := assign_if Citations (get_opt data (js "citations")) m in
      let m := assign_if SearchResults (get_opt data (js "search_results")) m in
      let m := assign_if Usage (get_opt data (js "usage")) m in
      let m := assign_if ReasoningSteps (get_opt data (js "reasoning_steps")) m in
      let m := assign_if Images (get_opt data (js "images")) m in
      let m := assign_if Videos (get_opt data (js "videos")) m in
      let m := assign_if RelatedQuestions (get_opt data (js "related_questions")) m in
      Some {| role := role msg; content := content1; meta_of := m |}
  end.

(** The callback of [runChatCompletion] applied to the events of a stream in
    arrival order; a throw ends the exchange. *)
Fixpoint merge_chunks (msg : message) (events : list value) : option message :=
  match events with
  | [] => Some msg
  | chunk :: rest =>
      match applyPerplexityChunk msg chunk with
      | Some msg1 => merge_chunks msg1 rest
      | None => None
      end
  end.

End Engine.

(** An event that carries the text delta [d] and nothing else. *)
Definition only_content_delta (chunk : value) (d : jsstring) : Prop :=
  get_opt (delta_of chunk) (js "content") = VString d /\
  get_opt (delta_of chunk) (js "reasoning_steps") = VUndefined /\
  forall f, get chunk (key f) = VUndefined.

(** The event [{choices: [{delta: {content: d}}]}]. *)
Definition content_event (d : jsstring) : value :=
  VObject [(js "choices", VArray [VObject [(js "delta", VObject [(js "content", VString d)])]])].

(** The value an event brings for a side-channel field: its top-level
    property, and for the reasoning steps the one inside the delta when that
    is truthy. *)
Definition incoming (f : side_field) (chunk : value) : value :=
  match f with
  | ReasoningSteps =>
      or_else (get_opt (delta_of chunk) (js "reasoning_steps")) (get chunk (js "reasoning_steps"))
  | _ => get chunk (key f)
  end.

(** An incremental event that carries the content and the side-channel
    fields of the final payload [data], and nothing else. *)
Definition carries_same (data chunk : value) : Prop :=
  nullish chunk = false /\
  get_opt (delta_of chunk) (js "content") = final_content data /\
  get_opt (delta_of chunk) (js "reasoning_steps") = VUndefined /\
  forall f, get chunk (key f) = get_opt data (key f).

(** The event built from a final payload: its content as the delta, its
    side-channel fields at the top level. *)
Definition event_of_final (data : value) : value :=
  VObject
    ((js "choices",
      VArray [VObject [(js "delta", VObject [(js "content", final_content data)])]])
     :: map (fun f => (key f, get_opt data (key f))) side_fields).

(** [false], zero and NaN: the falsy values that [String] does not turn into
    the empty string. *)
Definition false_or_zero (v : value) : bool :=
  match v with
  | VBool false => true
  | VNumber n => PrimFloat.is_zero n || PrimFloat.is_nan n
  | _ => false
  end.

End Merge.

(** ** The two branches of [runChatCompletion] *)

Module Chat.

Import Js Sse Merge.

Section Branches.

Context {P : Platform}.

(** The streamed branch, once the response is in: [consumeSSE] with the
    callback that merges each event into the assistant message. The callback
    also redraws the message, which is outside this model. *)
Definition streamed (msg : message) (chunks : list (list byte)) : option message :=
  merge_chunks msg (consumeSSE chunks).

(** The other branch: one JSON document, merged in one step. *)
Definition unstreamed (msg : message) (data : value) : option message :=
  applyPerplexityFinal msg data.

End Branches.

End Chat.

(** ** The deep-research poller: [runDeepResearchAsync]

    The function from its first [await] on, as a machine that the browser's
    deliveries drive from one [await] to the next. [buildPayload] has run, and
    the calls of [updateMessageElement], which redraw the message and write
    nothing to it, are left out. *)

Module Poller.

Import JsString Js Merge.
Local Open Scope N_scope.

(** What the function can throw. *)
Inductive exn : Type :=
| AbortError
| TypeError
| SyntaxError
| URIError
| Error (message : jsstring).

Inductive outcome : Type :=
| Returned
| Threw (e : exn).

(** The [await] the function is suspended at. Every one of them but [Sleep]
    waits on the network under the exchange's [signal]. *)
Inductive await : Type :=
| SubmitFetch
| SubmitText (status : N)
| SubmitJson
| Sleep
| PollFetch
| PollText (status : N)
| PollJson.

Inductive control : Type :=
| Awaiting (a : await)
| Done (r : outcome).

(** What the browser delivers while the function is suspended. *)
Inductive event : Type :=
| Abort                        (* [abortController.abort()] *)
| TimerFired                   (* the timer of [sleep(3000)] *)
| FetchResolved (status : N)   (* a response's status line and headers *)
| FetchRejected                (* a network failure *)
| TextRead (text : jsstring)   (* [resp.text()] read the body *)
| JsonRead (data : value)      (* [resp.json()] read and parsed the body *)
| BodyFailed.                  (* the body could not be read or parsed *)

(** The function's state: the assistant message it writes to, [job.id] once
    known, [signal.aborted], and where it stands. *)
Record poller : Type := {
  msg : message;
  id : value;
  aborted : bool;
  at_ : control
}.

Definition suspend (st : poller) (a : await) : poller :=
  {| msg := msg st; id := id st; aborted := aborted st; at_ := Awaiting a |}.

Definition finish (st : poller) (r : outcome) : poller :=
  {| msg := msg st; id := id st; aborted := aborted st; at_ := Done r |}.

Definition write (st : poller) (m : message) : poller :=
  {| msg := m; id := id st; aborted := aborted st; at_ := at_ st |}.

(** [resp.ok]. *)
Definition ok (status : N) : bool := (200 <=? status) && (status <=? 299).

Definition ellipsis : jsstring := [8230].
Definition bullet : jsstring := [8226].
Definition hourglass : jsstring := [9203].

(** The placeholder text [content] is seeded with. *)
Definition running_note : jsstring :=
  hourglass ++ js " Deep research is running. This can take a while.".

Definition created_note (ids : jsstring) : jsstring :=
  js "Request created: " ++ ids ++ js ". Polling" ++ ellipsis.

Definition status_note (status ids : jsstring) : jsstring :=
  js "Status: " ++ status ++ js " " ++ bullet ++ js " id: " ++ ids.

Definition completed_note (ids : jsstring) : jsstring :=
  js "Completed " ++ bullet ++ js " id: " ++ ids.

Definition http_error (what : jsstring) (status : N) (text : jsstring) : exn :=
  Error (what ++ js " (" ++ of_N status ++ js "): " ++ text).

(** The message once the job is created: the status note, and the placeholder
    when there is no content yet. *)
Definition seeded (m : message) (ids : jsstring) : message :=
  {| role := role m;
     content := if nonempty (content m) then content m else running_note;
     meta_of := set_async (created_note ids) (meta_of m) |}.

(** The top of [while (true)]: the check of the token, then [sleep]. *)
Definition loop_top (st : poller) : poller :=
  if aborted st then finish st (Threw AbortError) else suspend st Sleep.

Section Machine.

Context {P : Platform}.

(** From [const job = await submitResp.json()] to the first turn of the loop. *)
Definition on_job (st : poller) (job : value) : poller :=
  if nullish job then finish st (Threw TypeError)
  else
    match ToString (get job (js "id")) with
    | None => finish st (Threw TypeError)
    | Some ids =>
        loop_top {| msg := seeded (msg st) ids; id := get job (js "id");
                    aborted := aborted st; at_ := at_ st |}
    end.

(** After [sleep]: the URL is built with [encodeURIComponent(id)], then
    [fetch] is called with the signal and rejects at once when it is already
    aborted. *)
Definition on_timer (st : poller) : poller :=
  match ToString (id st) with
  | None => finish st (Threw TypeError)
  | Some ids =>
      match encodeURIComponent ids with
      | None => finish st (Threw URIError)
      | Some _ => if aborted st then finish st (Threw AbortError) else suspend st PollFetch
      end
  end.

(** From [const data = await pollResp.json()] to the end of the turn. *)
Definition on_data (st : poller) (data : value) : poller :=
  if nullish data then finish st (Threw TypeError)
  else
    match ToString (or_else (get data (js "status")) (VString (js "UNKNOWN"))),
          ToString (id st) with
    | Some status, Some ids =>
        let st1 := write st (with_meta (msg st)
                               (set_async (status_note status ids) (meta_of (msg st)))) in
        if is_string (get data (js "status")) (js "FAILED") then
          match ToString (or_else (get data (js "error_message"))
                            (VString (js "Deep research request failed"))) with
          | Some message => finish st1 (Threw (Error message))
          | None => finish st1 (Threw TypeError)
          end
        else if is_string (get data (js "status")) (js "COMPLETED")
                && ToBoolean (get data (js "response")) then
          match applyPerplexityFinal (msg st1) (get data (js "response")) with
          | None => finish st1 (Threw TypeError)
          | Some merged =>
              finish (write st1 (with_meta merged
                                   (set_async (completed_note ids) (meta_of merged))))
                Returned
          end
        else loop_top st1
    | _, _ => finish st (Threw TypeError)
    end.

(** One delivery. [Abort] sets [signal.aborted]; a pending [fetch] or body
    read under that signal is rejected with an AbortError by the browser, so
    the function throws it there and whatever the network brings later finds
    the function finished. [sleep] knows nothing of the signal. A delivery
    that does not match the pending [await] cannot happen and changes
    nothing. *)
Definition step (st : poller) (e : event) : poller :=
  match at_ st with
  | Done _ => st
  | Awaiting a =>
      match e, a with
      | Abort, Sleep =>
          {| msg := msg st; id := id st; aborted := true; at_ := Awaiting Sleep |}
      | Abort, _ =>
          {| msg := msg st; id := id st; aborted := true; at_ := Done (Threw AbortError) |}
      | FetchResolved status, SubmitFetch =>
          if ok status then suspend st SubmitJson else suspend st (SubmitText status)
      | FetchResolved status, PollFetch =>
          if ok status then suspend st PollJson else suspend st (PollText status)
      | FetchRejected, SubmitFetch | FetchRejected, PollFetch => finish st (Threw TypeError)
      | TextRead text, SubmitText status =>
          finish st (Threw (http_error (js "Async submit error") status text))
      | TextRead text, PollText status =>
          finish st (Threw (http_error (js "Async poll error") status text))
      | BodyFailed, SubmitText _ | BodyFailed, PollText _ => finish st (Threw TypeError)
      | BodyFailed, SubmitJson | BodyFailed, PollJson => finish st (Threw SyntaxError)
      | JsonRead job, SubmitJson => on_job st job
      | JsonRead data, PollJson => on_data st data
      | TimerFired, Sleep => on_timer st
      | _, _ => st
      end
  end.

Definition run (st : poller) (events : list event) : poller :=
  fold_left step events st.

(** The function just called on the message [m]: suspended in the submit
    [fetch], under a signal that [sendPrompt] has just created. *)
Definition start (m : message) : poller :=
  {| msg := m; id := VUndefined; aborted := false; at_ := Awaiting SubmitFetch |}.

End Machine.

(** The deliveries of a successful submission that answers [job]. *)
Definition submitted (job : value) : list event :=
  [FetchResolved 200; JsonRead job].

(** The deliveries of one turn of the loop whose status request answers
    [data]. *)
Definition polled (data : value) : list event :=
  [TimerFired; FetchResolved 200; JsonRead data].

Section Responses.

Context {P : Platform}.

(** A status response the loop goes on after: it can be rendered, it is not
    [FAILED], and it is not [COMPLETED] with a truthy [response]. *)
Definition non_terminal (data : value) : Prop :=
  nullish data = false /\
  ToString (or_else (get data (js "status")) (VString (js "UNKNOWN"))) <> None /\
  is_string (get data (js "status")) (js "FAILED") = false /\
  is_string (get data (js "status")) (js "COMPLETED")
    && ToBoolean (get data (js "response")) = false.

End Responses.

(** The function will not write again: it has finished, or it sleeps under an
    aborted signal. *)
Definition stopped (st : poller) : Prop :=
  (exists r, at_ st = Done r) \/ (aborted st = true /\ at_ st = Awaiting Sleep).

(** The function is inside [while (true)]. *)
Definition in_loop (c : control) : bool :=
  match c with
  | Awaiting Sleep | Awaiting PollFetch | Awaiting (PollText _) | Awaiting PollJson => true
  | _ => false
  end.

(** Asleep at the top of a turn, the signal not aborted. *)
Definition looping (m : message) (i : value) : poller :=
  {| msg := m; id := i; aborted := false; at_ := Awaiting Sleep |}.

(** Two messages that agree on everything but the status note. *)
Definition same_result (m m' : message) : Prop :=
  role m' = role m /\ content m' = content m /\
  forall f, field f (meta_of m') = field f (meta_of m).

Section Reachable.

Context {P : Platform}.

(** In every state the function reaches, the job id has been rendered once it
    is in the loop, and an aborted signal means it has stopped. *)
Definition sound (st : poller) : Prop :=
  (in_loop (at_ st) = true -> exists ids, ToString (id st) = Some ids) /\
  (aborted st = true -> stopped st).

End Reachable.

(** The response [{status: s}]. *)
Definition status_only (s : jsstring) : value :=
  VObject [(js "status", VString s)].

(** The response [{status: 'COMPLETED', response: payload}]. *)
Definition completed_with (payload : value) : value :=
  VObject [(js "status", VString (js "COMPLETED")); (js "response", payload)].

End Poller.

(** ** The payload builder: [buildPayload] *)

Module Payload.

Import JsString Js.

(** [DEFAULT_SETTINGS]. *)
Definition DEFAULT_SETTINGS : value :=
  VObject
    [(js "model", VString (js "sonar"));
     (js "search_mode", VString (js "web"));
     (js "stream", VBool true);
     (js "stream_mode", VString (js "full"));
     (js "max_tokens", VNull);
     (js "reasoning_effort", VNull);
     (js "return_images", VBool false);
     (js "return_related_questions", VBool false);
     (js "enable_search_classifier", VBool false);
     (js "disable_search", VBool false);
     (js "safe_search", VBool true);
     (js "web_search_options",
      VObject [(js "search_context_size", VNull); (js "search_type", VNull)]);
     (js "search_domain_filter", VArray []);
     (js "search_language_filter", VArray []);
     (js "search_recency_filter", VNull);
     (js "image_domain_filter", VArray []);
     (js "image_format_filter", VArray []);
     (js "media_response",
      VObject [(js "overrides", VObject [(js "return_videos", VBool false)])]);
     (js "language_preference", VNull);
     (js "system_prompt", VString []);
     (js "deep_research_async", VBool true)].

(** [if (cond) payload.k = v;] on a payload that has no key [k] yet. *)
Definition add_if (cond : bool) (k : jsstring) (v : value)
    (props : list (jsstring * value)) : list (jsstring * value) :=
  if cond then props ++ [(k, v)] else props.

(** [if (s.k) payload.k = s.k;] *)
Definition copy_if_truthy (s : value) (k : jsstring)
    (props : list (jsstring * value)) : list (jsstring * value) :=
  add_if (ToBoolean (get s k)) k (get s k) props.

(** [if (s.k) payload.k = true;] *)
Definition flag_if_truthy (s : value) (k : jsstring)
    (props : list (jsstring * value)) : list (jsstring * value) :=
  add_if (ToBoolean (get s k)) k (VBool true) props.

(** [if (s.k?.length) payload.k = s.k;] *)
Definition copy_if_length (s : value) (k : jsstring)
    (props : list (jsstring * value)) : list (jsstring * value) :=
  add_if (ToBoolean (get_opt (get s k) (js "length"))) k (get s k) props.

(** [s.web_search_options?.k]. *)
Definition web_search_option (s : value) (k : jsstring) : value :=
  get_opt (get s (js "web_search_options")) k.

(** [s.media_response?.overrides?.return_videos]. *)
Definition return_videos (s : value) : value :=
  get_opt (get_opt (get s (js "media_response")) (js "overrides")) (js "return_videos").

Section Builder.

Context {P : Platform}.

(** The callback of [(thread.messages || []).map(...)]; [None] when it throws
    on a message that is [null] or whose content cannot be made a string. *)
Definition clone_message (m : value) : option value :=
  if nullish m then None
  else if is_string (get m (js "role")) (js "system") then Some m
  else
    match get m (js "content") with
    | VArray parts =>
        Some (VObject [(js "role", get m (js "role")); (js "content", VArray parts)])
    | c =>
        match ToString (or_else c (VString [])) with
        | Some text => Some (VObject [(js "role", get m (js "role")); (js "content", VString text)])
        | None => None
        end
    end.

Fixpoint clone_messages (msgs : list value) : option (list value) :=
  match msgs with
  | [] => Some []
  | m :: rest =>
      match clone_message m, clone_messages rest with
      | Some m', Some rest' => Some (m' :: rest')
      | _, _ => None
      end
  end.

(** The [messages] of the payload: [None] where [.map] or [.trim] is called
    on a value that has no such method. *)
Definition build_messages (s thread_messages : value) : option (list value) :=
  match or_else thread_messages (VArray []) with
  | VArray items =>
      match clone_messages items with
      | None => None
      | Some msgs =>
          match get s (js "system_prompt") with
          | VString prompt =>
              if nonempty prompt && nonempty (trim prompt) then
                Some (VObject [(js "role", VString (js "system"));
                               (js "content", VString (trim prompt))] :: msgs)
              else Some msgs
          | prompt => if ToBoolean prompt then None else Some msgs
          end
      end
  | _ => None
  end.

(** [buildPayload(thread)] for [state.settings = s] and the given
    [thread.messages]. The result is the payload object, each key once, in
    the order the function writes them. *)
Definition buildPayload (s thread_messages : value) : option value :=
  if nullish s then None
  else
    match build_messages s thread_messages with
    | None => None
    | Some messages =>
        let payload :=
          [(js "model", get s (js "model"));
           (js "messages", VArray messages);
           (js "search_mode", get s (js "search_mode"));
           (js "stream", VBool (ToBoolean (get s (js "stream"))));
           (js "stream_mode", or_else (get s (js "stream_mode")) (VString (js "full")));
           (js "safe_search", VBool (ToBoolean (get s (js "safe_search"))))] in
        let payload :=
          add_if (negb (nullish (get s (js "max_tokens")))) (js "max_tokens")
            (get s (js "max_tokens")) payload in
        let payload := copy_if_truthy s (js "reasoning_effort") payload in
        let payload := copy_if_truthy s (js "language_preference") payload in
        let payload := flag_if_truthy s (js "return_images") payload in
        let payload := flag_if_truthy s (js "return_related_questions") payload in
        let payload := flag_if_truthy s (js "enable_search_classifier") payload in
        let payload := flag_if_truthy s (js "disable_search") payload in
        let payload := copy_if_length s (js "search_domain_filter") payload in
        let payload := copy_if_length s (js "search_language_filter") payload in
        let payload := copy_if_truthy s (js "search_recency_filter") payload in
        let payload := copy_if_length s (js "image_domain_filter") payload in
        let payload := copy_if_length s (js "image_format_filter") payload in
        let wso :=
          add_if (ToBoolean (web_search_option s (js "search_type"))) (js "search_type")
            (web_search_option s (js "search_type"))
            (add_if (ToBoolean (web_search_option s (js "search_context_size")))
               (js "search_context_size")
               (web_search_option s (js "search_context_size")) []) in
        let payload :=
          add_if (negb (Nat.eqb (List.length wso) 0)) (js "web_search_options") (VObject wso)
            payload in
        let payload :=
          add_if (ToBoolean (return_videos s)) (js "media_response")
            (VObject [(js "overrides", VObject [(js "return_videos", VBool true)])])
            payload in
        Some (VObject payload)
    end.

End Builder.

(** The fields [buildPayload] adds under a condition. *)
Inductive optional_field : Type :=
| MaxTokens | ReasoningEffort | LanguagePreference
| ReturnImages | ReturnRelatedQuestions | EnableSearchClassifier | DisableSearch
| SearchDomainFilter | SearchLanguageFilter | SearchRecencyFilter
| ImageDomainFilter | ImageFormatFilter
| WebSearchOptions | MediaResponse.

Definition payload_key (f : optional_field) : jsstring :=
  match f with
  | MaxTokens => js "max_tokens"
  | ReasoningEffort => js "reasoning_effort"
  | LanguagePreference => js "language_preference"
  | ReturnImages => js "return_images"
  | ReturnRelatedQuestions => js "return_related_questions"
  | EnableSearchClassifier => js "enable_search_classifier"
  | DisableSearch => js "disable_search"
  | SearchDomainFilter => js "search_domain_filter"
  | SearchLanguageFilter => js "search_language_filter"
  | SearchRecencyFilter => js "search_recency_filter"
  | ImageDomainFilter => js "image_domain_filter"
  | ImageFormatFilter => js "image_format_filter"
  | WebSearchOptions => js "web_search_options"
  | MediaResponse => js "media_response"
  end.

(** The inactive values: [null] (or nothing at all) for a setting that holds
    a number or a string, [false] for a flag, the empty array for a list. *)
Definition unset (v : value) : bool := nullish v.

Definition switched_off (v : value) : bool :=
  match v with
  | VUndefined | VNull | VBool false => true
  | _ => false
  end.

Definition no_entries (v : value) : bool :=
  match v with
  | VUndefined | VNull | VArray [] => true
  | _ => false
  end.

(** The setting behind an optional field has its inactive value; for the two
    nested objects, every member the builder reads has. *)
Definition inactive (f : optional_field) (s : value) : bool :=
  match f with
  | MaxTokens | ReasoningEffort | LanguagePreference | SearchRecencyFilter =>
      unset (get s (payload_key f))
  | ReturnImages | ReturnRelatedQuestions | EnableSearchClassifier | DisableSearch =>
      switched_off (get s (payload_key f))
  | SearchDomainFilter | SearchLanguageFilter | ImageDomainFilter | ImageFormatFilter =>
      no_entries (get s (payload_key f))
  | WebSearchOptions =>
      unset (web_search_option s (js "search_context_size"))
      && unset (web_search_option s (js "search_type"))
  | MediaResponse => switched_off (return_videos s)
  end.

(** [k in payload] for a built payload. *)
Definition has_key (payload : value) (k : jsstring) : bool :=
  match payload with
  | VObject props => has_own props k
  | _ => false
  end.

End Payload.

(** ** The proxy's credential gate: [getApiKey], [proxyPerplexity] *)

Module Server.

Import JsString Js.
Local Open Scope N_scope.

(** An incoming request: its headers under their lower-case names, its parsed
    body, and the [:id] of the route when it has one. *)
Record request : Type := {
  headers : list (jsstring * jsstring);
  body : value;
  params_id : option jsstring
}.

(** [req.header(name)]. *)
Fixpoint lookup (hs : list (jsstring * jsstring)) (name : jsstring) : option jsstring :=
  match hs with
  | [] => None
  | (n, v) :: rest => if eqb n name then Some v else lookup rest name
  end.

Definition header (req : request) (name : jsstring) : option jsstring :=
  lookup (headers req) name.

(** [getApiKey(req)]. *)
Definition getApiKey (req : request) : jsstring :=
  let key :=
    match header req (js "x-pplx-key") with
    | Some k => if nonempty k then Some k else header req (js "x-perplexity-key")
    | None => header req (js "x-perplexity-key")
    end in
  match key with
  | Some k => if nonempty k then trim k else []
  | None => []
  end.

(** A call of [fetch] to the upstream API. *)
Record upstream_request : Type := {
  url : jsstring;
  method : jsstring;
  authorization : jsstring;
  json_body : option value
}.

Record upstream_response : Type := {
  upstream_status : N;
  upstream_headers : list (jsstring * jsstring);
  upstream_body : option (list byte)
}.

(** What the handler sends back. *)
Inductive reply : Type :=
| Json (status : N) (payload : value)
| Relay (status : N) (hs : list (jsstring * jsstring)) (bytes : list byte)
| Send (status : N) (hs : list (jsstring * jsstring)) (text : list byte).

Definition allow : list jsstring :=
  [js "content-type"; js "cache-control"; js "x-request-id";
   js "x-ratelimit-limit"; js "x-ratelimit-remaining"; js "x-ratelimit-reset"].

(** [safeCopyHeaders(fromHeaders)]. *)
Definition safeCopyHeaders (from : list (jsstring * jsstring)) : list (jsstring * jsstring) :=
  flat_map (fun h => match lookup from h with
                     | Some v => if nonempty v then [(h, v)] else []
                     | None => []
                     end) allow.

Definition error_reply (status : N) (message : jsstring) : reply :=
  Json status (VObject [(js "error", VString message)]).

Definition missing_key : reply :=
  error_reply 400 (js "Missing API key. Send it in the x-pplx-key header.").

Definition proxy_error : reply := error_reply 500 (js "Server proxy error.").

Inductive route : Type := Chat | AsyncSubmit | AsyncGet.

Section Handlers.

(** The upstream API: what [fetch] resolves with, or [None] when it rejects. *)
Variable fetch : upstream_request -> option upstream_response.

(** [proxyPerplexity(req, res, { url, method, body })] inside the [try] of its
    route: the upstream calls it made, and the reply. *)
Definition proxyPerplexity (req : request) (target verb : jsstring) (payload : value)
    : list upstream_request * reply :=
  let apiKey := getApiKey req in
  if negb (nonempty apiKey) then ([], missing_key)
  else
    let call := {| url := target; method := verb;
                   authorization := js "Bearer " ++ apiKey;
                   json_body := if ToBoolean payload then Some payload else None |} in
    match fetch call with
    | None => ([call], proxy_error)
    | Some up =>
        match upstream_body up with
        | None => ([call], Send (upstream_status up) (safeCopyHeaders (upstream_headers up)) [])
        | Some bytes =>
            ([call], Relay (upstream_status up) (safeCopyHeaders (upstream_headers up)) bytes)
        end
    end.

Definition completions : jsstring := js "https://api.perplexity.ai/chat/completions".
Definition async_completions : jsstring := js "https://api.perplexity.ai/async/chat/completions".

(** The handler of [GET /api/async/get/:id]. The id goes into the URL through
    [encodeURIComponent], which throws on a lone surrogate. *)
Definition async_get (req : request) : list upstream_request * reply :=
  let apiKey := getApiKey req in
  if negb (nonempty apiKey) then ([], missing_key)
  else
    let id := match params_id req with
              | Some i => trim i
              | None => []
              end in
    if negb (nonempty id) then ([], error_reply 400 (js "Missing async request id."))
    else
      match encodeURIComponent id with
      | None => ([], proxy_error)
      | Some encoded =>
          let call := {| url := async_completions ++ js "/" ++ encoded; method := js "GET";
                         authorization := js "Bearer " ++ apiKey; json_body := None |} in
          match fetch call with
          | None => ([call], proxy_error)
          | Some up =>
              match upstream_body up with
              | Some bytes =>
                  ([call],
                   Send (upstream_status up) (safeCopyHeaders (upstream_headers up)) bytes)
              | None =>
                  ([call], Send (upstream_status up) (safeCopyHeaders (upstream_headers up)) [])
              end
          end
      end.

(** The three API routes. *)
Definition handle (r : route) (req : request) : list upstream_request * reply :=
  match r with
  | Chat => proxyPerplexity req completions (js "POST") (body req)
  | AsyncSubmit => proxyPerplexity req async_completions (js "POST") (body req)
  | AsyncGet => async_get req
  end.

End Handlers.

(** A header that is absent or holds only white space. *)
Definition blank (o : option jsstring) : Prop :=
  match o with
  | None => True
  | Some v => trim v = []
  end.

(** The request carries no API key: neither credential header holds one. *)
Definition no_credential (req : request) : Prop :=
  blank (header req (js "x-pplx-key")) /\ blank (header req (js "x-perplexity-key")).

End Server.

(** ** A platform for worked examples *)

Module Fixture.

Import JsString Js.
Local Open Scope N_scope.

(** JSON white space. *)
Definition is_json_ws (c : code_unit) : bool :=
  (c =? 32) || (c =? 9) || (c =? 10) || (c =? 13).

Fixpoint skip_ws (s : jsstring) : jsstring :=
  match s with
  | c :: t => if is_json_ws c then skip_ws t else s
  | [] => []
  end.

Definition hex_digit (c : code_unit) : option N :=
  if (48 <=? c) && (c <=? 57) then Some (c - 48)
  else if (65 <=? c) && (c <=? 70) then Some (c - 55)
  else if (97 <=? c) && (c <=? 102) then Some (c - 87)
  else None.

(** The characters of a string literal after its opening quote. *)
Fixpoint string_body (s : jsstring) (acc : jsstring) : option (jsstring * jsstring) :=
  match s with
  | [] => None
  | 34 :: rest => Some (rev acc, rest)
  | 92 :: 117 :: a :: b :: c :: d :: rest =>
      match hex_digit a, hex_digit b, hex_digit c, hex_digit d with
      | Some x, Some y, Some z, Some w =>
          string_body rest (((x * 16 + y) * 16 + z) * 16 + w :: acc)
      | _, _, _, _ => None
      end
  | 92 :: e :: rest =>
      match e with
      | 34 | 92 | 47 => string_body rest (e :: acc)
      | 98 => string_body rest (8 :: acc)
      | 102 => string_body rest (12 :: acc)
      | 110 => string_body rest (10 :: acc)
      | 114 => string_body rest (13 :: acc)
      | 116 => string_body rest (9 :: acc)
      | _ => None
      end
  | c :: rest => if c <? 32 then None else string_body rest (c :: acc)
  end.

Fixpoint digits (s : jsstring) (acc : N) : N * jsstring :=
  match s with
  | c :: t => if (48 <=? c) && (c <=? 57) then digits t (acc * 10 + (c - 48)) else (acc, s)
  | [] => (acc, [])
  end.

Definition float_of_N (n : N) : float :=
  PrimFloat.of_uint63 (Uint63.of_Z (Z.of_N n)).

(** An integer literal of at most 2^53; a fraction or an exponent is outside
    the fixture. *)
Definition integer (negative : bool) (s : jsstring) : option (value * jsstring) :=
  match s with
  | c :: t =>
      if (48 <=? c) && (c <=? 57) then
        let (n, rest) := if c =? 48 then (0, t) else digits s 0 in
        let stops := match rest with
                     | d :: _ => negb ((48 <=? d) && (d <=? 57) || (d =? 46) || (d =? 101) || (d =? 69))
                     | [] => true
                     end in
        if stops && (n <=? 9007199254740992) then
          Some (VNumber (if negative then PrimFloat.opp (float_of_N n) else float_of_N n), rest)
        else None
      else None
  | [] => None
  end.

(** [obj[k] = v] while parsing: a repeated key keeps its place and takes the
    later value. *)
Fixpoint define (props : list (jsstring * value)) (k : jsstring) (v : value)
    : list (jsstring * value) :=
  match props with
  | [] => [(k, v)]
  | (k', v') :: rest => if eqb k' k then (k, v) :: rest else (k', v') :: define rest k v
  end.

Fixpoint parse_value (fuel : nat) (s : jsstring) : option (value * jsstring) :=
  match fuel with
  | O => None
  | S n =>
      let elements :=
        fix elements (k : nat) (s : jsstring) (acc : list value) : option (value * jsstring) :=
          match k with
          | O => None
          | S k' =>
              match parse_value n s with
              | Some (v, r) =>
                  match skip_ws r with
                  | 44 :: r' => elements k' r' (v :: acc)
                  | 93 :: r' => Some (VArray (rev (v :: acc)), r')
                  | _ => None
                  end
              | None => None
              end
          end in
      let members :=
        fix members (k : nat) (s : jsstring) (acc : list (jsstring * value))
            : option (value * jsstring) :=
          match k with
          | O => None
          | S k' =>
              match skip_ws s with
              | 34 :: r =>
                  match string_body r [] with
                  | Some (key, r1) =>
                      match skip_ws r1 with
                      | 58 :: r2 =>
                          match parse_value n r2 with
                          | Some (v, r3) =>
                              match skip_ws r3 with
                              | 44 :: r4 => members k' r4 (define acc key v)
                              | 125 :: r4 => Some (VObject (define acc key v), r4)
                              | _ => None
                              end
                          | None => None
                          end
                      | _ => None
                      end
                  | None => None
                  end
              | _ => None
              end
          end in
      match skip_ws s with
      | 123 :: r =>
          match skip_ws r with
          | 125 :: r' => Some (VObject [], r')
          | _ => members (List.length s) r []
          end
      | 91 :: r =>
          match skip_ws r with
          | 93 :: r' => Some (VArray [], r')
          | _ => elements (List.length s) r []
          end
      | 34 :: r =>
          match string_body r [] with
          | Some (str, r') => Some (VString str, r')
          | None => None
          end
      | 116 :: 114 :: 117 :: 101 :: r => Some (VBool true, r)
      | 102 :: 97 :: 108 :: 115 :: 101 :: r => Some (VBool false, r)
      | 110 :: 117 :: 108 :: 108 :: r => Some (VNull, r)
      | 45 :: r => integer true r
      | r => integer false r
      end
  end.

(** A JSON text: one value and nothing after it but white space. *)
Definition parse (text : jsstring) : option value :=
  match parse_value (S (List.length text)) text with
  | Some (v, rest) => match skip_ws rest with [] => Some v | _ :: _ => None end
  | None => None
  end.

(** Integers print as their digits, as they do in JavaScript below 10^21;
    a number with a fraction is outside the fixture. *)
Definition print_number (f : float) : jsstring :=
  match Prim2SF f with
  | S754_nan => js "NaN"
  | S754_infinity false => js "Infinity"
  | S754_infinity true => js "-Infinity"
  | S754_zero _ => js "0"
  | S754_finite neg m e =>
      let digits := match e with
                    | Z0 => of_N (Npos m)
                    | Zpos p => of_N (N.shiftl (Npos m) (Npos p))
                    | Zneg p => of_N (N.shiftr (Npos m) (Npos p))
                    end in
      if neg then 45 :: digits else digits
  end.

(** [JSON.parse] and number printing on the fragment the examples use:
    objects, arrays, strings, literals, and integers up to 2^53. *)
#[export] Instance platform : Platform := {|
  JSON_parse := parse;
  Number_toString := print_number
|}.

(** Example texts are written with ['] for the double quote and [|] for a
    line feed. *)
Definition text_char (a : ascii) : N :=
  match N_of_ascii a with
  | 39 => 34
  | 124 => 10
  | n => n
  end.

Fixpoint text (s : string) : jsstring :=
  match s with
  | EmptyString => []
  | String a rest => text_char a :: text rest
  end.

Definition byte_of (n : N) : byte :=
  match Byte.of_N n with
  | Some b => b
  | None => x00
  end.

(** The same text as the bytes of a network read. *)
Definition bytes (s : string) : list byte := map byte_of (text s).

End Fixture.

(** ** Inputs of the worked examples *)

Module Samples.

Import JsString Js Merge Poller Payload Server Fixture.
Local Open Scope string_scope.

(** A stream of two events, each closed by a blank line. *)
Definition two_events : list byte := bytes "data: {'a':1}||data: {'b':2}||".

(** The same stream cut off after the single line feed of its last event. *)
Definition first_event : list byte := bytes "data: {'a':1}||".
Definition unterminated : list byte := bytes "data: {'b':2}|".

Definition event_a : value := VObject [(js "a", VNumber 1)].
Definition event_b : value := VObject [(js "b", VNumber 2)].

Definition citing (urls : list jsstring) : value :=
  VObject [(js "citations", VArray (map VString urls))].

(** An event whose only payload is [choices[0].delta.reasoning_steps]. *)
Definition reasoning_in_delta : value :=
  VObject [(js "choices",
            VArray [VObject [(js "delta",
                              VObject [(js "reasoning_steps",
                                        VArray [VString (js "search")])])]])].

(** An event with reasoning steps both at the top level and in the delta. *)
Definition reasoning_twice : value :=
  VObject [(js "choices",
            VArray [VObject [(js "delta",
                              VObject [(js "reasoning_steps",
                                        VArray [VString (js "inner")])])]]);
           (js "reasoning_steps", VArray [VString (js "outer")])].

(** The accumulator after a first list of citations, and after a second. *)
Definition cited_a : message :=
  with_meta new_assistant
    (set_field Citations (VArray [VString (js "https://a")]) (meta_of new_assistant)).

Definition cited_bc : message :=
  with_meta new_assistant
    (set_field Citations (VArray [VString (js "https://b"); VString (js "https://c")])
       (meta_of new_assistant)).

(** A final payload with content and one citation. *)
Definition answer : value :=
  VObject [(js "choices",
            VArray [VObject [(js "message",
                              VObject [(js "content", VString (js "Full answer."))])]]);
           (js "citations", VArray [VString (js "https://example.org")])].

(** A final payload whose content is the number zero. *)
Definition zero_content : value :=
  VObject [(js "choices",
            VArray [VObject [(js "message", VObject [(js "content", VNumber 0)])]])].

Definition job : value := VObject [(js "id", VString (js "job-1"))].

(** The scripted status sequence SUBMITTED, POLLING, POLLING, COMPLETED. *)
Definition pending : list value :=
  [status_only (js "SUBMITTED"); status_only (js "POLLING"); status_only (js "POLLING")].


Definition user_message : value :=
  VObject [(js "role", VString (js "user")); (js "content", VString (js "hello"))].

(** The configuration of the spec's example: model "sonar", no token limit,
    no domain filter. *)
Definition sonar_only : value :=
  VObject [(js "model", VString (js "sonar")); (js "max_tokens", VNull);
           (js "search_domain_filter", VArray [])].

(** A configuration with several settings switched on. *)
Definition busy : value :=
  VObject
    [(js "model", VString (js "sonar-pro"));
     (js "search_mode", VString (js "web"));
     (js "stream", VBool false);
     (js "stream_mode", VString []);
     (js "max_tokens", VNumber 256);
     (js "return_images", VBool true);
     (js "safe_search", VBool false);
     (js "web_search_options",
      VObject [(js "search_context_size", VString (js "high")); (js "search_type", VNull)]);
     (js "search_domain_filter", VArray [VString (js "example.org")]);
     (js "system_prompt", VString (js "  Be brief. "))].

(** A request whose credential header holds only spaces. *)
Definition spaces_only : request :=
  {| headers := [(js "content-type", js "application/json"); (js "x-pplx-key", js "   ")];
     body := VObject [];
     params_id := None |}.

(** An upstream that answers every call. *)
Definition always_ok (call : upstream_request) : option upstream_response :=
  Some {| upstream_status := 200; upstream_headers := []; upstream_body := Some [] |}.

End Samples.

(** ** What a built payload holds *)

Module PayloadShape.

Import JsString Js Payload.

(** What [if (cond) payload.k = v;] adds to the payload. *)
Definition entry (cond : bool) (k : jsstring) (v : value) : list (jsstring * value) :=
  if cond then [(k, v)] else [].

(** The value [buildPayload] writes under the key of an optional field when
    it writes one: [true] for a flag, the truthy members for the search
    options, the fixed override for the media response, and the setting
    itself for every other field. *)
Definition sent (f : optional_field) (s : value) : value :=
  match f with
  | ReturnImages | ReturnRelatedQuestions | EnableSearchClassifier | DisableSearch =>
      VBool true
  | WebSearchOptions =>
      VObject (filter (fun kv => ToBoolean (snd kv))
                 [(js "search_context_size", web_search_option s (js "search_context_size"));
                  (js "search_type", web_search_option s (js "search_type"))])
  | MediaResponse =>
      VObject [(js "overrides", VObject [(js "return_videos", VBool true)])]
  | _ => get s (payload_key f)
  end.

(** How a message of the thread shows in the payload: a system message as it
    is, any other with its role and with a content that is an array or a
    string. *)
Definition cloned_from (m m' : value) : Prop :=
  get m' (js "role") = get m (js "role") /\
  (is_string (get m (js "role")) (js "system") = true -> m' = m) /\
  (is_string (get m (js "role")) (js "system") = false ->
   match get m' (js "content") with
   | VString _ | VArray _ => True
   | _ => False
   end).

(** The system message the builder puts first for a prompt that is not
    blank. *)
Definition system_message (prompt : jsstring) : list value :=
  if nonempty (trim prompt) then
    [VObject [(js "role", VString (js "system")); (js "content", VString (trim prompt))]]
  else [].

End PayloadShape.

(** ** What the proxy lets through *)

Module ServerShape.

Import JsString Js Server.
Local Open Scope N_scope.

(** The characters that end a path segment of a URL: [/], [?] and [#]. *)
Definition separator (c : code_unit) : bool := (c =? 47) || (c =? 63) || (c =? 35).

End ServerShape.

(** ** Lists typed into the settings dialog: [parseList] *)

Module Lists.

Import JsString.
Local Open Scope N_scope.

(** A character of the class [[\n,]]. *)
Definition is_separator (c : code_unit) : bool := (c =? 10) || (c =? 44).

(** [s.split(/[\n,]+/g)]: a piece ends at each run of line feeds and commas,
    as long as the run is. [in_run] tells that the character before was one
    of them. *)
Fixpoint split_runs (in_run : bool) (s : jsstring) : list jsstring :=
  match s with
  | [] => [[]]
  | c :: t =>
      if is_separator c then
        if in_run then split_runs true t else [] :: split_runs true t
      else push c (split_runs false t)
  end.

(** [parseList(text)] for the text of an input field. *)
Definition parseList (text : jsstring) : list jsstring :=
  filter nonempty (map trim (split_runs false text)).

(** [items.join(glue)] on an array of strings, as [openSettings] shows a list
    in its field. *)
Fixpoint join (glue : jsstring) (items : list jsstring) : jsstring :=
  match items with
  | [] => []
  | [e] => e
  | e :: rest => e ++ glue ++ join glue rest
  end.

(** A string with no white space at either end. *)
Definition tight (e : jsstring) : Prop :=
  match e with [] => True | c :: _ => is_space c = false end /\
  match rev e with [] => True | c :: _ => is_space c = false end.

(** An entry as the dialog keeps it: not empty, no white space around it, no
    separator in it. *)
Definition clean (e : jsstring) : Prop :=
  e <> [] /\ tight e /\ Forall (fun c => is_separator c = false) e.

End Lists.

(** ** Text put into markup: [escapeHtml], [escapeHtmlAttr] *)

Module Html.

Import JsString.
Local Open Scope N_scope.

(** [s.replaceAll(c, by)] for a pattern of one character. *)
Definition replaceAll (c : code_unit) (by_ : jsstring) (s : jsstring) : jsstring :=
  flat_map (fun d => if d =? c then by_ else [d]) s.

(** [escapeHtml(s)] for a string [s]. *)
Definition escapeHtml (s : jsstring) : jsstring :=
  replaceAll 39 (js "&#39;")
    (replaceAll 34 (js "&quot;")
       (replaceAll 62 (js "&gt;")
          (replaceAll 60 (js "&lt;")
             (replaceAll 38 (js "&amp;") s)))).

(** [escapeHtmlAttr(s)] for a string [s]. *)
Definition escapeHtmlAttr (s : jsstring) : jsstring :=
  replaceAll 62 (js "&gt;")
    (replaceAll 60 (js "&lt;")
       (replaceAll 39 (js "&#39;")
          (replaceAll 34 (js "&quot;")
             (replaceAll 38 (js "&amp;") s)))).

(** The entity of a character that markup gives a meaning to, and the
    character itself otherwise. *)
Definition entity (c : code_unit) : jsstring :=
  if c =? 38 then js "&amp;"
  else if c =? 60 then js "&lt;"
  else if c =? 62 then js "&gt;"
  else if c =? 34 then js "&quot;"
  else if c =? 39 then js "&#39;"
  else [c].

(** The characters that open or close a tag or an attribute value. *)
Definition markup (c : code_unit) : bool :=
  (c =? 60) || (c =? 62) || (c =? 34) || (c =? 39).

End Html.

(** ** Threads: [summarizeMultipartContent], [saveThreads], [buildUserMessage],
    [deleteThread], [exportActiveChat] *)

Module Threads.

Import JsString Js Lists.
Local Open Scope N_scope.

(** [p && p.type === kind], as [find] and [filter] read it. *)
Definition is_part (kind : jsstring) (p : value) : bool :=
  ToBoolean p && is_string (get p (js "type")) kind.

(** The [extra] array of [summarizeMultipartContent]. *)
Definition extra_of (images files : nat) : list jsstring :=
  (if Nat.eqb images 0 then [] else [of_N (N.of_nat images) ++ js " image(s)"])
  ++ (if Nat.eqb files 0 then [] else [of_N (N.of_nat files) ++ js " file(s)"]).

Section Summary.

Context {P : Platform}.

(** [summarizeMultipartContent(parts)]; [None] when [String(textPart.text)]
    throws. *)
Definition summarizeMultipartContent (parts : list value) : option jsstring :=
  let textPart := find (is_part (js "text")) parts in
  let images := List.length (filter (is_part (js "image_url")) parts) in
  let files := List.length (filter (is_part (js "file_url")) parts) in
  let head :=
    match textPart with
    | Some p => if ToBoolean (get p (js "text")) then ToString (get p (js "text")) else Some []
    | None => Some []
    end in
  match head with
  | None => None
  | Some head =>
      let extra := extra_of images files in
      match extra with
      | [] => Some head
      | _ :: _ => Some (head ++ [10; 10] ++ js "[Attachments: " ++ join (js ", ") extra ++ js "]")
      end
  end.

(** The own enumerable properties that [{...v}] copies: those of an object,
    the elements of an array and the characters of a string under their
    indices, none of a number or a boolean. *)
Fixpoint indexed (i : nat) (items : list value) : list (jsstring * value) :=
  match items with
  | [] => []
  | x :: rest => (of_N (N.of_nat i), x) :: indexed (S i) rest
  end.

Definition spread (v : value) : list (jsstring * value) :=
  match v with
  | VObject props => props
  | VArray items => indexed 0 items
  | VString s => indexed 0 (map (fun c => VString [c]) s)
  | _ => []
  end.

(** [{...props, k: v}]: the key keeps its place when it is there, and comes
    last when it is new. *)
Fixpoint assign (props : list (jsstring * value)) (k : jsstring) (v : value)
    : list (jsstring * value) :=
  match props with
  | [] => [(k, v)]
  | (k', v') :: rest =>
      if eqb k' k then (k', v) :: rest else (k', v') :: assign rest k v
  end.

(** The callback that [saveThreads] maps over the messages of a thread;
    [None] when it throws, on a message that is [null] or on a content that
    cannot be made a string. *)
Definition safe_message (m : value) : option value :=
  if nullish m then None
  else
    match get m (js "content") with
    | VArray parts =>
        option_map (fun text => VObject (assign (spread m) (js "content") (VString text)))
          (summarizeMultipartContent parts)
    | content =>
        option_map (fun text => VObject (assign (spread m) (js "content") (VString text)))
          (ToString (or_else content (VString [])))
    end.

Fixpoint safe_messages (msgs : list value) : option (list value) :=
  match msgs with
  | [] => Some []
  | m :: rest =>
      match safe_message m, safe_messages rest with
      | Some m', Some rest' => Some (m' :: rest')
      | _, _ => None
      end
  end.

(** The callback that [saveThreads] maps over the threads; [None] when
    [(t.messages || []).map] throws. *)
Definition safe_thread (t : value) : option value :=
  if nullish t then None
  else
    match or_else (get t (js "messages")) (VArray []) with
    | VArray msgs =>
        option_map (fun safe => VObject (assign (spread t) (js "messages") (VArray safe)))
          (safe_messages msgs)
    | _ => None
    end.

End Summary.

(** An attachment as [addImages] and [addFiles] store it. *)
Record image : Type := { image_name : jsstring; image_type : jsstring; dataUrl : jsstring }.
Record file : Type := { file_name : jsstring; file_type : jsstring; base64 : jsstring }.

Definition text_part (text : jsstring) : value :=
  VObject [(js "type", VString (js "text")); (js "text", VString text)].

Definition image_part (img : image) : value :=
  VObject [(js "type", VString (js "image_url"));
           (js "image_url", VObject [(js "url", VString (dataUrl img))])].

Definition file_part (f : file) : value :=
  VObject [(js "type", VString (js "file_url"));
           (js "file_url", VObject [(js "url", VString (base64 f))])].

(** [buildUserMessage(text)] for the attachments of the state. *)
Definition buildUserMessage (images : list image) (files : list file) (text : jsstring)
    : value :=
  match images, files with
  | [], [] => VObject [(js "role", VString (js "user")); (js "content", VString text)]
  | _, _ =>
      let first :=
        if nonempty text && nonempty (trim text) then text_part text
        else text_part (js "Please analyze the attached files/images.") in
      VObject [(js "role", VString (js "user"));
               (js "content", VArray (first :: map image_part images ++ map file_part files))]
  end.


(** A thread as [createThread] makes it; the attachments it keeps in memory
    play no part here. *)
Record thread : Type := {
  thread_id : jsstring;
  title : jsstring;
  createdAt : jsstring;
  thread_messages : list value
}.

(** The part of the state the thread list lives in. *)
Record store : Type := {
  threads : list thread;
  activeThreadId : option jsstring
}.

(** [createThread()], given what [uid()] and [nowISO()] return. *)
Definition createThread (uid now : jsstring) : thread :=
  {| thread_id := uid; title := js "New chat"; createdAt := now; thread_messages := [] |}.

(** [t.id === state.activeThreadId]. *)
Definition is_active (st : store) (t : thread) : bool :=
  match activeThreadId st with
  | Some a => eqb (thread_id t) a
  | None => false
  end.

(** [activeThread()]; [None] is its [null]. *)
Definition activeThread (st : store) : option thread :=
  find (is_active st) (threads st).

(** [threads.findIndex(t => t.id === id)]; [None] is its [-1]. *)
Fixpoint findIndex (id : jsstring) (ts : list thread) : option nat :=
  match ts with
  | [] => None
  | t :: rest =>
      if eqb (thread_id t) id then Some 0%nat else option_map S (findIndex id rest)
  end.

(** [threads.splice(idx, 1)]. *)
Definition splice1 (idx : nat) (ts : list thread) : list thread :=
  firstn idx ts ++ skipn (S idx) ts.

(** [deleteThread(id)] on the store, given what [uid()] and [nowISO()] return
    if a thread has to be made. *)
Definition deleteThread (uid now : jsstring) (id : jsstring) (st : store) : store :=
  match findIndex id (threads st) with
  | None => st
  | Some idx =>
      match splice1 idx (threads st) with
      | [] =>
          let t := createThread uid now in
          {| threads := [t]; activeThreadId := Some (thread_id t) |}
      | first :: rest =>
          if match activeThreadId st with Some a => eqb a id | None => false end
          then {| threads := first :: rest; activeThreadId := Some (thread_id first) |}
          else {| threads := first :: rest; activeThreadId := activeThreadId st |}
      end
  end.

(** The handler of the new chat button. *)
Definition newChat (uid now : jsstring) (st : store) : store :=
  let t := createThread uid now in
  {| threads := t :: threads st; activeThreadId := Some (thread_id t) |}.

(** A character of the class [[a-z0-9\-_]] under the flag [i]. *)
Definition in_name (c : code_unit) : bool :=
  ((97 <=? c) && (c <=? 122)) || ((65 <=? c) && (c <=? 90)) || ((48 <=? c) && (c <=? 57))
  || (c =? 45) || (c =? 95).

(** [s.replace(/[^a-z0-9\-_]+/gi, '_')]: each run of other characters becomes
    one underscore. *)
Fixpoint replace_runs (in_run : bool) (s : jsstring) : jsstring :=
  match s with
  | [] => []
  | c :: t =>
      if in_name c then c :: replace_runs false t
      else if in_run then replace_runs true t
      else 95 :: replace_runs true t
  end.

(** The [download] name [exportActiveChat] gives the file. *)
Definition download_name (t : thread) : jsstring :=
  firstn 48 (replace_runs false (if nonempty (title t) then title t else js "chat"))
  ++ js ".md".


(** [setActiveThread(id)]. *)
Definition setActiveThread (id : jsstring) (st : store) : store :=
  {| threads := threads st; activeThreadId := Some id |}.

(** The end of [loadPersisted]: the store for the threads found in storage. *)
Definition loadThreads (uid now : jsstring) (found : list thread) : store :=
  match found with
  | [] =>
      let t := createThread uid now in
      {| threads := [t]; activeThreadId := Some (thread_id t) |}
  | first :: _ => {| threads := found; activeThreadId := Some (thread_id first) |}
  end.

(** What the user does to the thread list: the new chat button, a click on
    the thread at some place of the list, which [renderThreadList] wires to
    [setActiveThread] with the id of that thread, and the deletion of a
    thread. *)
Inductive action : Type :=
| New (uid now : jsstring)
| Select (place : nat)
| Delete (uid now id : jsstring).

Definition act (st : store) (a : action) : store :=
  match a with
  | New uid now => newChat uid now st
  | Select place =>
      match nth_error (threads st) place with
      | Some t => setActiveThread (thread_id t) st
      | None => st
      end
  | Delete uid now id => deleteThread uid now id st
  end.

End Threads.

(** ** The settings dialog: [clamp], [readSettingsFromUI] *)

Module Settings.

Import JsString Js Lists.
Local Open Scope float_scope.

(** [Math.max(a, b)]: NaN when either is, and of the two zeros the positive
    one. *)
Definition Math_max (a b : float) : float :=
  if PrimFloat.is_nan a || PrimFloat.is_nan b then PrimFloat.nan
  else if a <? b then b
  else if b <? a then a
  else if PrimFloat.is_zero a && PrimFloat.get_sign a then b
  else a.

(** [Math.min(a, b)]: NaN when either is, and of the two zeros the negative
    one. *)
Definition Math_min (a b : float) : float :=
  if PrimFloat.is_nan a || PrimFloat.is_nan b then PrimFloat.nan
  else if a <? b then a
  else if b <? a then b
  else if PrimFloat.is_zero a && negb (PrimFloat.get_sign a) then b
  else a.

(** [clamp(n, min, max)]. *)
Definition clamp (n lo hi : float) : float :=
  if PrimFloat.is_nan n then lo else Math_min hi (Math_max lo n).

(** The [value] of each control of the dialog. *)
Record form : Type := {
  modelSelect : jsstring;
  searchMode : jsstring;
  streamToggle : jsstring;
  streamMode : jsstring;
  maxTokens : jsstring;
  reasoningEffort : jsstring;
  returnImages : jsstring;
  returnVideos : jsstring;
  returnRelated : jsstring;
  enableSearchClassifier : jsstring;
  disableSearch : jsstring;
  safeSearch : jsstring;
  searchContextSize : jsstring;
  searchType : jsstring;
  languagePreference : jsstring;
  systemPrompt : jsstring;
  searchDomainFilter : jsstring;
  searchLanguageFilter : jsstring;
  searchRecency : jsstring;
  imageDomainFilter : jsstring;
  imageFormatFilter : jsstring;
  deepResearchAsync : jsstring
}.

(** [v === 'true'] on the value of a control. *)
Definition is_true (v : jsstring) : value := VBool (eqb v (js "true")).

(** [v || null] on the value of a control. *)
Definition or_null (v : jsstring) : value := if nonempty v then VString v else VNull.

Definition list_value (items : list jsstring) : value := VArray (map VString items).

Section Reading.

(** [Number(text)], the number a text denotes, NaN when it denotes none. *)
Variable Number : jsstring -> float.

(** The token limit [readSettingsFromUI] stores. *)
Definition max_tokens_of (f : form) : value :=
  if nonempty (trim (maxTokens f)) then VNumber (clamp (Number (trim (maxTokens f))) 1 128000)
  else VNull.

(** [readSettingsFromUI()]: the clone of the defaults with every key written
    from its control, each key at the place the defaults have it. *)
Definition readSettingsFromUI (f : form) : value :=
  VObject
    [(js "model", VString (modelSelect f));
     (js "search_mode", VString (searchMode f));
     (js "stream", is_true (streamToggle f));
     (js "stream_mode", VString (streamMode f));
     (js "max_tokens", max_tokens_of f);
     (js "reasoning_effort", or_null (reasoningEffort f));
     (js "return_images", is_true (returnImages f));
     (js "return_related_questions", is_true (returnRelated f));
     (js "enable_search_classifier", is_true (enableSearchClassifier f));
     (js "disable_search", is_true (disableSearch f));
     (js "safe_search", is_true (safeSearch f));
     (js "web_search_options",
      VObject [(js "search_context_size", or_null (searchContextSize f));
               (js "search_type", or_null (searchType f))]);
     (js "search_domain_filter", list_value (parseList (searchDomainFilter f)));
     (js "search_language_filter", list_value (parseList (searchLanguageFilter f)));
     (js "search_recency_filter", or_null (searchRecency f));
     (js "image_domain_filter", list_value (parseList (imageDomainFilter f)));
     (js "image_format_filter", list_value (parseList (imageFormatFilter f)));
     (js "media_response",
      VObject [(js "overrides", VObject [(js "return_videos", is_true (returnVideos f))])]);
     (js "language_preference", or_null (trim (languagePreference f)));
     (js "system_prompt", VString (systemPrompt f));
     (js "deep_research_async", is_true (deepResearchAsync f))].

End Reading.

End Settings.

(** ** The end of an exchange: the [catch] of [sendPrompt] *)

Module Exchange.

Import JsString Js Merge Poller.
Local Open Scope N_scope.




Section Catch.

(** The [message] of an error that the platform throws itself. *)
Variable message_of : exn -> jsstring.




End Catch.

Section Id.

Context {P : Platform}.


End Id.

End Exchange.

(** ** More inputs of worked examples *)

Module MoreSamples.

Import JsString Js Merge Poller Payload Server Threads Settings Fixture Samples.
Local Open Scope string_scope.

(** A stream that ends with the [DONE] sentinel, and what a server might
    still send after it. *)
Definition done_stream : list byte := bytes "data: {'a':1}||data: [DONE]||".
Definition late_event : list byte := bytes "data: {'b':2}||".

(** An event whose delta content cannot be made a string. *)
Definition unprintable : list byte :=
  bytes "data: {'choices':[{'delta':{'content':{'toString':1}}}]}||".

(** A status response of a job that failed. *)
Definition failed_job : value :=
  VObject [(js "status", VString (js "FAILED")); (js "error_message", VString (js "quota"))].

(** A poll request with a key and an id that tries to leave its path. *)
Definition keyed : request :=
  {| headers := [(js "x-perplexity-key", js " pplx-123 ")];
     body := VObject [];
     params_id := Some (js "../a?b#c") |}.

Definition photo : image :=
  {| image_name := js "cat.png"; image_type := js "image/png";
     dataUrl := js "data:image/png;base64,AAAA" |}.

Definition report : file :=
  {| file_name := js "report.pdf"; file_type := js "application/pdf"; base64 := js "BBBB" |}.

(** A thread as the state holds it after a prompt with two attachments. *)
Definition chat_with_attachments : value :=
  VObject [(js "id", VString (js "t1"));
           (js "title", VString (js "New chat"));
           (js "messages", VArray [buildUserMessage [photo] [report] (js "What is this?")])].

Definition chat (id : jsstring) : thread :=
  {| thread_id := id; title := js "New chat"; createdAt := js "2024-01-01T00:00:00.000Z";
     thread_messages := [] |}.

(** Two chats, the first of them active. *)
Definition two_chats : store :=
  {| threads := [chat (js "t1"); chat (js "t2")]; activeThreadId := Some (js "t1") |}.

(** [Number] on the texts the examples use: the number a text of digits
    denotes, and NaN for any other text. *)
Definition number_of (s : jsstring) : float :=
  match Fixture.parse s with
  | Some (VNumber n) => n
  | _ => PrimFloat.nan
  end.

(** The dialog with a given text in its token limit and every other control
    as it is for the defaults. *)
Definition typed (limit : jsstring) : form :=
  {| modelSelect := js "sonar"; searchMode := js "web"; streamToggle := js "true";
     streamMode := js "full"; maxTokens := limit; reasoningEffort := [];
     returnImages := js "false"; returnVideos := js "false"; returnRelated := js "false";
     enableSearchClassifier := js "false"; disableSearch := js "false";
     safeSearch := js "true"; searchContextSize := []; searchType := [];
     languagePreference := []; systemPrompt := []; searchDomainFilter := [];
     searchLanguageFilter := []; searchRecency := []; imageDomainFilter := [];
     imageFormatFilter := []; deepResearchAsync := js "true" |}.



End MoreSamples.

(** * Properties *)

(** ** Strings and splitting *)

Module JsStringFacts.

Import JsString.
Local Open Scope N_scope.

Lemma eqb_spec (a b : jsstring) : reflect (a = b) (eqb a b).
Proof.
  revert b; induction a as [|x a IH]; intros [|y b]; simpl;
    try (constructor; congruence).
  destruct (N.eqb_spec x y) as [->|Hxy]; simpl.
  - destruct (IH b) as [->|Hab]; constructor; congruence.
  - constructor; congruence.
Qed.

Lemma eqb_refl (a : jsstring) : eqb a a = true.
Proof. destruct (eqb_spec a a); congruence. Qed.

(** Induction that follows the two-code-unit look-ahead of [split_lflf]. *)
Lemma pair_induction (Q : jsstring -> Prop) :
  Q [] ->
  (forall c, Q [c]) ->
  (forall c c' rest, Q rest -> Q (c' :: rest) -> Q (c :: c' :: rest)) ->
  forall s, Q s.
Proof.
  intros H0 H1 H2 s.
  assert (H : Q s /\ forall c, Q (c :: s)).
  { induction s as [|x s [IHa IHb]]; split; auto. }
  apply H.
Qed.

Lemma split_lflf_sep (rest : jsstring) :
  split_lflf (10 :: 10 :: rest) = [] :: split_lflf rest.
Proof. reflexivity. Qed.

Lemma split_lflf_keep (c : code_unit) (t : jsstring) :
  (match t with c' :: _ => (c =? 10) && (c' =? 10) | [] => false end) = false ->
  split_lflf (c :: t) = push c (split_lflf t).
Proof.
  intros H. destruct t as [|c' rest]; [reflexivity|].
  change (split_lflf (c :: c' :: rest))
    with (if (c =? 10) && (c' =? 10) then [] :: split_lflf rest
          else push c (split_lflf (c' :: rest))).
  now rewrite H.
Qed.

Lemma split_lflf_cases (c c' : code_unit) (rest : jsstring) :
  (c = 10 /\ c' = 10) \/ ((c =? 10) && (c' =? 10) = false).
Proof.
  destruct (N.eqb_spec c 10); destruct (N.eqb_spec c' 10); simpl; auto.
Qed.

Lemma split_lflf_nonempty (s : jsstring) : split_lflf s <> [].
Proof.
  induction s as [| | c c' rest IH1 IH2] using pair_induction; try discriminate.
  destruct (split_lflf_cases c c' rest) as [[-> ->]|H].
  - rewrite split_lflf_sep. discriminate.
  - rewrite split_lflf_keep by exact H.
    destruct (split_lflf (c' :: rest)); discriminate.
Qed.

(** Joining the pieces with the separator gives the text back: splitting
    neither drops nor repeats a code unit. *)
Lemma join_push (c : code_unit) (pieces : list jsstring) :
  pieces <> [] -> join_lflf (push c pieces) = c :: join_lflf pieces.
Proof.
  destruct pieces as [|p [|q ps]]; simpl; congruence.
Qed.

Lemma join_cons (p : jsstring) (pieces : list jsstring) :
  pieces <> [] -> join_lflf (p :: pieces) = p ++ 10 :: 10 :: join_lflf pieces.
Proof.
  destruct pieces; simpl; congruence.
Qed.

Lemma join_split_lflf (s : jsstring) : join_lflf (split_lflf s) = s.
Proof.
  induction s as [| | c c' rest IH1 IH2] using pair_induction; try reflexivity.
  destruct (split_lflf_cases c c' rest) as [[-> ->]|H].
  - rewrite split_lflf_sep, join_cons by apply split_lflf_nonempty.
    now rewrite IH1.
  - rewrite split_lflf_keep by exact H.
    rewrite join_push by apply split_lflf_nonempty. now rewrite IH2.
Qed.

Lemma split_lflf_single (s p : jsstring) : split_lflf s = [p] -> p = s.
Proof.
  intros H. rewrite <- (join_split_lflf s), H. reflexivity.
Qed.

Lemma removelast_push (c : code_unit) (p q : jsstring) (ps : list jsstring) :
  removelast (push c (p :: q :: ps)) = push c (removelast (p :: q :: ps)).
Proof. reflexivity. Qed.

(** Splitting a text that arrives in two parts: the pieces that are complete
    in the first part stay as they are, and splitting resumes from its last,
    open piece. *)
Lemma split_lflf_app (s t : jsstring) :
  split_lflf (s ++ t) =
  removelast (split_lflf s) ++ split_lflf (last (split_lflf s) [] ++ t).
Proof.
  induction s as [| | c c' rest IH1 IH2] using pair_induction; try reflexivity.
  destruct (split_lflf_cases c c' rest) as [[-> ->]|H].
  - change ((10 :: 10 :: rest) ++ t) with (10 :: 10 :: (rest ++ t)).
    rewrite !split_lflf_sep, IH1.
    pose proof (split_lflf_nonempty rest) as Hne.
    destruct (split_lflf rest) as [|p ps]; [congruence|]. reflexivity.
  - change ((c :: c' :: rest) ++ t) with (c :: c' :: (rest ++ t)).
    rewrite (split_lflf_keep c (c' :: rest ++ t)) by exact H.
    rewrite (split_lflf_keep c (c' :: rest)) by exact H.
    change (c' :: rest ++ t) with ((c' :: rest) ++ t). rewrite IH2.
    destruct (split_lflf (c' :: rest)) as [|p [|q ps]] eqn:E.
    + now apply split_lflf_nonempty in E.
    + apply split_lflf_single in E. subst p.
      change (removelast (push c [c' :: rest])) with (@nil jsstring).
      change (last (push c [c' :: rest]) []) with (c :: c' :: rest).
      change (removelast [c' :: rest]) with (@nil jsstring).
      change (last [c' :: rest] []) with (c' :: rest).
      rewrite !app_nil_l.
      change ((c :: c' :: rest) ++ t) with (c :: (c' :: rest) ++ t).
      now rewrite (split_lflf_keep c ((c' :: rest) ++ t)) by exact H.
    + reflexivity.
Qed.

(** The open piece holds no separator. *)
Lemma split_lflf_last (s : jsstring) :
  split_lflf (last (split_lflf s) []) = [last (split_lflf s) []].
Proof.
  induction s as [| | c c' rest IH1 IH2] using pair_induction; try reflexivity.
  destruct (split_lflf_cases c c' rest) as [[-> ->]|H].
  - rewrite split_lflf_sep.
    pose proof (split_lflf_nonempty rest) as Hne.
    destruct (split_lflf rest) as [|p ps] eqn:E; [congruence|]. exact IH1.
  - rewrite (split_lflf_keep c (c' :: rest)) by exact H.
    destruct (split_lflf (c' :: rest)) as [|p [|q ps]] eqn:E.
    + now apply split_lflf_nonempty in E.
    + pose proof (split_lflf_single _ E) as Hp. subst p. simpl push. simpl last.
      rewrite (split_lflf_keep c (c' :: rest)) by exact H. now rewrite E.
    + exact IH2.
Qed.

End JsStringFacts.

(** ** The event decoder *)

Module SseFacts.

Import JsString Js TextDecoder Sse JsStringFacts.

Lemma decode_app (d : decoder) (a b : list byte) :
  decode d (a ++ b) =
  let (d1, out1) := decode d a in
  let (d2, out2) := decode d1 b in
  (d2, out1 ++ out2).
Proof.
  revert d; induction a as [|x a IH]; intros d; simpl.
  - destruct (decode d b); reflexivity.
  - destruct (decode_byte d x) as [d1 o1]. rewrite IH.
    destruct (decode d1 a) as [d2 o2]. destruct (decode d2 b) as [d3 o3].
    now rewrite app_assoc.
Qed.

Section Decoding.

Context {P : Platform}.

Lemma and_then_running (r : flow * list value) : and_then (Running, []) r = r.
Proof. destruct r; reflexivity. Qed.

Lemma and_then_assoc (r1 r2 r3 : flow * list value) :
  and_then (and_then r1 r2) r3 = and_then r1 (and_then r2 r3).
Proof.
  destruct r1 as [[|] o1], r2 as [[|] o2], r3 as [f3 o3]; simpl;
    now rewrite ?app_assoc.
Qed.

Lemma for_events_cons (evt : jsstring) (rest : list jsstring) :
  for_events (evt :: rest) = and_then (for_lines (lines_of evt)) (for_events rest).
Proof.
  simpl. destruct (for_lines (lines_of evt)) as [[|] out]; reflexivity.
Qed.

Lemma for_events_app (evs1 evs2 : list jsstring) :
  for_events (evs1 ++ evs2) = and_then (for_events evs1) (for_events evs2).
Proof.
  induction evs1 as [|e evs1 IH].
  - simpl app. change (for_events []) with (Running, @nil value).
    now rewrite and_then_running.
  - change ((e :: evs1) ++ evs2) with (e :: evs1 ++ evs2).
    now rewrite !for_events_cons, IH, and_then_assoc.
Qed.

Lemma removelast_split_app (s t : jsstring) :
  removelast (split_lflf (s ++ t)) =
  removelast (split_lflf s) ++ removelast (split_lflf (last (split_lflf s) [] ++ t)).
Proof.
  rewrite split_lflf_app. apply removelast_app, split_lflf_nonempty.
Qed.

Lemma settled_fresh : settled fresh.
Proof. reflexivity. Qed.

Lemma on_read_settled (st st1 : locals) (chunk : list byte) (f : flow) (out : list value) :
  on_read st chunk = (st1, f, out) -> settled st1.
Proof.
  unfold on_read, settled.
  destruct (decode (text_decoder st) chunk) as [d text].
  destruct (for_events _) as [f' out'].
  intros H; inversion H; subst; clear H. simpl. apply split_lflf_last.
Qed.

(** The values emitted from a state depend on the chunks only through their
    concatenation. *)
Lemma read_loop_output (chunks : list (list byte)) (st : locals) :
  settled st ->
  snd (read_loop st chunks) =
  emitted (buffer st ++ snd (decode (text_decoder st) (List.concat chunks))).
Proof.
  revert st; induction chunks as [|chunk rest IH]; intros st Hst.
  - simpl. rewrite app_nil_r. unfold emitted. now rewrite Hst.
  - simpl List.concat. rewrite decode_app. simpl read_loop.
    destruct (on_read st chunk) as [[st1 f] out] eqn:E.
    pose proof (on_read_settled _ _ E) as Hst1.
    unfold on_read in E.
    destruct (decode (text_decoder st) chunk) as [d text].
    destruct (decode d (List.concat rest)) as [d2 text2] eqn:E2.
    destruct (for_events (removelast (split_lflf (buffer st ++ text)))) as [f' out'] eqn:Ev.
    inversion E; subst; clear E.
    unfold emitted. simpl snd.
    rewrite app_assoc, removelast_split_app, for_events_app, Ev.
    destruct f.
    + specialize (IH _ Hst1). simpl in IH. rewrite E2 in IH.
      destruct (read_loop _ rest) as [[st2 f2] out2].
      simpl in IH. simpl. unfold emitted in IH. subst out2.
      now destruct (for_events (removelast (split_lflf (_ ++ text2)))).
    + reflexivity.
Qed.

(** What [consumeSSE] hands to its callback is a function of the bytes
    alone, however the reads cut them up. *)
Theorem consumeSSE_emitted (chunks : list (list byte)) :
  consumeSSE chunks = emitted (decoded (List.concat chunks)).
Proof.
  unfold consumeSSE. rewrite read_loop_output by apply settled_fresh.
  reflexivity.
Qed.

(** C1. Cutting a raw stream in two at any byte offset and feeding the two
    chunks in order makes [consumeSSE] emit the same events, in the same
    order, as feeding the stream as one chunk; this covers an offset that
    falls between, before or after the two line feeds of a separator, and one
    that falls inside a multi-byte character. *)
Theorem consumeSSE_split_invariant (stream : list byte) (offset : nat) :
  consumeSSE [firstn offset stream; skipn offset stream] = consumeSSE [stream].
Proof.
  rewrite !consumeSSE_emitted. simpl List.concat.
  now rewrite !app_nil_r, firstn_skipn.
Qed.

Lemma read_loop_app (a b : list (list byte)) (st : locals) :
  read_loop st (a ++ b) =
  match read_loop st a with
  | (st1, Returned, out) => (st1, Returned, out)
  | (st1, Running, out) => let '(st2, f, out') := read_loop st1 b in (st2, f, out ++ out')
  end.
Proof.
  revert st; induction a as [|chunk a IH]; intros st.
  - simpl. now destruct (read_loop st b) as [[st2 f] out'].
  - simpl. destruct (on_read st chunk) as [[st1 [|]] out]; [|reflexivity].
    rewrite IH. destruct (read_loop st1 a) as [[st2 [|]] out2]; [|reflexivity].
    destruct (read_loop st2 b) as [[st3 f] out3]. now rewrite app_assoc.
Qed.

(** A read that completes no separator emits nothing and only grows the
    buffer. *)
Lemma on_read_open (st : locals) (chunk : list byte) :
  split_lflf (buffer st ++ snd (decode (text_decoder st) chunk)) =
    [buffer st ++ snd (decode (text_decoder st) chunk)] ->
  on_read st chunk =
  ({| text_decoder := fst (decode (text_decoder st) chunk);
      buffer := buffer st ++ snd (decode (text_decoder st) chunk) |}, Running, []).
Proof.
  unfold on_read. destruct (decode (text_decoder st) chunk) as [d text]. simpl.
  intros H. now rewrite H.
Qed.

Lemma last_append (A : Type) (a b : list A) (d : A) : b <> [] -> last (a ++ b) d = last b d.
Proof.
  intros Hb. induction a as [|x a IH]; [reflexivity|].
  simpl app. simpl last. destruct (a ++ b) eqn:E; [|exact IH].
  destruct a; [simpl in E; congruence | discriminate].
Qed.

Lemma last_split_app (s t : jsstring) :
  last (split_lflf (s ++ t)) [] = last (split_lflf (last (split_lflf s) [] ++ t)) [].
Proof.
  rewrite split_lflf_app. apply last_append, split_lflf_nonempty.
Qed.

(** While the function runs, its buffer is the piece after the last blank
    line of all the text read so far. *)
Lemma read_loop_buffer (chunks : list (list byte)) (st st' : locals) (out : list value) :
  settled st ->
  read_loop st chunks = (st', Running, out) ->
  buffer st' =
  last (split_lflf (buffer st ++ snd (decode (text_decoder st) (List.concat chunks)))) [].
Proof.
  revert st out; induction chunks as [|chunk rest IH]; intros st out Hst.
  - simpl. intros H; inversion H; subst. rewrite app_nil_r.
    unfold settled in Hst. now rewrite Hst.
  - simpl List.concat. rewrite decode_app. simpl read_loop.
    destruct (on_read st chunk) as [[st1 f] out1] eqn:E.
    pose proof (on_read_settled _ _ E) as Hst1.
    unfold on_read in E.
    destruct (decode (text_decoder st) chunk) as [d text].
    destruct (decode d (List.concat rest)) as [d2 text2] eqn:E2.
    destruct (for_events (removelast (split_lflf (buffer st ++ text)))) as [f' out'].
    inversion E; subst; clear E.
    destruct f; [|discriminate].
    destruct (read_loop _ rest) as [[st2 f2] out2] eqn:Er.
    intros H; inversion H; subst; clear H.
    rewrite (IH _ _ Hst1 Er). simpl buffer. simpl text_decoder. rewrite E2.
    simpl snd. now rewrite app_assoc, <- last_split_app.
Qed.

(** C9. Of the text of a body, cut at its blank lines into the pieces
    [closed] that a blank line ends and the [tail] that follows the last
    blank line, the callback receives the events of [closed] and nothing
    else, however the body is cut into reads and whatever the tail spells:
    an event is emitted only once the blank line after it has been seen.
    When the reads end without a [DONE] the tail is what the buffer holds,
    and the function returns without looking at it. *)
Theorem unterminated_event_is_dropped (chunks : list (list byte))
    (closed : list jsstring) (tail : jsstring) :
  split_lflf (decoded (List.concat chunks)) = closed ++ [tail] ->
  consumeSSE chunks = snd (for_events closed) /\
  (snd (fst (read_loop fresh chunks)) = Running ->
   buffer (fst (fst (read_loop fresh chunks))) = tail).
Proof.
  intros Hsplit. split.
  - rewrite consumeSSE_emitted. unfold emitted. rewrite Hsplit.
    now rewrite removelast_last.
  - destruct (read_loop fresh chunks) as [[st f] out] eqn:E. simpl. intros ->.
    rewrite (read_loop_buffer chunks settled_fresh E). simpl app.
    unfold decoded in Hsplit. change (text_decoder fresh) with new_TextDecoder.
    rewrite Hsplit. apply last_last.
Qed.

(** In particular a stream with no blank line at all emits nothing. *)
Lemma no_separator_no_event (stream : list byte) :
  split_lflf (decoded stream) = [decoded stream] ->
  consumeSSE [stream] = [].
Proof.
  intros H. rewrite consumeSSE_emitted. simpl List.concat. rewrite app_nil_r.
  unfold emitted. now rewrite H.
Qed.

(** Every value handed to the callback is truthy, so the callback never
    receives [null]. *)
Lemma on_line_truthy (line : jsstring) :
  Forall (fun v => ToBoolean v = true) (snd (on_line line)).
Proof.
  unfold on_line.
  destruct (negb (startsWith line (js "data:"))); [constructor|].
  destruct (negb (nonempty (trim (slice 5 line)))); [constructor|].
  destruct (eqb (trim (slice 5 line)) (js "[DONE]")); [constructor|].
  destruct (ToBoolean (safeJsonParse (trim (slice 5 line)))) eqn:E; repeat constructor.
  exact E.
Qed.

Lemma for_lines_truthy (lines : list jsstring) :
  Forall (fun v => ToBoolean v = true) (snd (for_lines lines)).
Proof.
  induction lines as [|line lines IH]; [constructor|]. simpl.
  pose proof (on_line_truthy line) as H.
  destruct (on_line line) as [[|] out]; [|exact H].
  destruct (for_lines lines) as [f out']. simpl in *. now apply Forall_app.
Qed.

Lemma for_events_truthy (events : list jsstring) :
  Forall (fun v => ToBoolean v = true) (snd (for_events events)).
Proof.
  induction events as [|evt events IH]; [constructor|]. simpl.
  pose proof (for_lines_truthy (lines_of evt)) as H.
  destruct (for_lines (lines_of evt)) as [[|] out]; [|exact H].
  destruct (for_events events) as [f out']. simpl in *. now apply Forall_app.
Qed.

Lemma consumeSSE_truthy (chunks : list (list byte)) :
  Forall (fun v => ToBoolean v = true) (consumeSSE chunks).
Proof.
  rewrite consumeSSE_emitted. apply for_events_truthy.
Qed.

(** The streamed branch of [runChatCompletion] leaves the same message
    however the network cut the body into reads. *)
Lemma streamed_split_invariant (m : Merge.message) (stream : list byte) (offset : nat) :
  Chat.streamed m [firstn offset stream; skipn offset stream] = Chat.streamed m [stream].
Proof.
  unfold Chat.streamed. rewrite !consumeSSE_emitted. simpl List.concat.
  now rewrite !app_nil_r, firstn_skipn.
Qed.

End Decoding.

End SseFacts.

(** ** The merge engine *)

Module MergeFacts.

Import JsString Js Merge.

Lemma get_opt_undefined (k : jsstring) : get_opt VUndefined k = VUndefined.
Proof. reflexivity. Qed.

Lemma delta_of_nullish (chunk : value) : nullish chunk = true -> delta_of chunk = VUndefined.
Proof. destruct chunk; simpl; try discriminate; reflexivity. Qed.

Lemma field_assign_if (f g : side_field) (v : value) (m : meta) :
  field f (assign_if g v m) =
  if side_field_eqb f g && ToBoolean v then v else field f m.
Proof.
  unfold assign_if. destruct (ToBoolean v); destruct f, g; reflexivity.
Qed.

Lemma async_assign_if (g : side_field) (v : value) (m : meta) :
  async (assign_if g v m) = async m.
Proof.
  unfold assign_if. destruct (ToBoolean v); destruct g; reflexivity.
Qed.

Lemma assign_if_undefined (g : side_field) (m : meta) : assign_if g VUndefined m = m.
Proof. reflexivity. Qed.

(** Rewrites the reads of the seven top-level fields with a hypothesis that
    gives them for every field. *)
Ltac rewrite_fields Hf :=
  let use f :=
    (let H := fresh in
     pose proof (Hf f) as H; cbv beta iota delta [key] in H; rewrite H; clear H) in
  use Citations; use SearchResults; use Usage; use ReasoningSteps;
  use Images; use Videos; use RelatedQuestions.

Section Engine.

Context {P : Platform}.

Lemma chunk_content_only (msg : message) (chunk : value) (d : jsstring) :
  only_content_delta chunk d ->
  applyPerplexityChunk msg chunk = Some (with_content msg (content msg ++ d)).
Proof.
  intros (Hc & Hr & Hf). unfold applyPerplexityChunk.
  assert (Hn : nullish chunk = false).
  { destruct (nullish chunk) eqn:E; [|reflexivity].
    rewrite (delta_of_nullish _ E) in Hc. discriminate. }
  rewrite Hc, Hr, Hn.
  rewrite_fields Hf. rewrite !assign_if_undefined.
  destruct d as [|c d]; simpl.
  - rewrite app_nil_r. now destruct msg.
  - now destruct msg.
Qed.

Lemma merge_content_only (events : list value) (deltas : list jsstring) (msg : message) :
  Forall2 only_content_delta events deltas ->
  merge_chunks msg events = Some (with_content msg (content msg ++ List.concat deltas)).
Proof.
  intros H. revert msg. induction H as [|chunk d events deltas Hd _ IH]; intros msg.
  - simpl. rewrite app_nil_r. now destruct msg.
  - simpl. rewrite (chunk_content_only _ Hd), IH. simpl.
    now rewrite app_assoc.
Qed.

(** C2. Events that carry only content deltas, merged in arrival order into an
    accumulator whose content is empty, leave its content equal to the
    concatenation of the deltas in that order; nothing else in the
    accumulator changes. *)
Theorem content_is_concatenation (msg : message) (events : list value)
    (deltas : list jsstring) :
  Forall2 only_content_delta events deltas ->
  content msg = [] ->
  exists msg',
    merge_chunks msg events = Some msg' /\
    content msg' = List.concat deltas /\
    meta_of msg' = meta_of msg /\ role msg' = role msg.
Proof.
  intros H H0. exists (with_content msg (content msg ++ List.concat deltas)).
  split; [now apply merge_content_only|]. simpl. now rewrite H0.
Qed.

Lemma content_event_only (d : jsstring) : only_content_delta (content_event d) d.
Proof.
  repeat split. intros f; destruct f; reflexivity.
Qed.

(** What [applyPerplexityChunk] does to each side-channel field, and that it
    never touches the status note. *)
Lemma chunk_fields (msg msg' : message) (chunk : value) :
  applyPerplexityChunk msg chunk = Some msg' ->
  (forall f,
     field f (meta_of msg') =
     if ToBoolean (incoming f chunk) then incoming f chunk else field f (meta_of msg)) /\
  async (meta_of msg') = async (meta_of msg).
Proof.
  unfold applyPerplexityChunk.
  destruct (if ToBoolean _ then _ else _) as [c1|]; [|discriminate].
  destruct (nullish chunk); [discriminate|].
  intros H; inversion H; subst; clear H. simpl meta_of. split.
  - intros f. rewrite !field_assign_if.
    destruct f; cbv beta iota delta [side_field_eqb incoming or_else key andb];
      try reflexivity.
    destruct (ToBoolean (get_opt (delta_of chunk) (js "reasoning_steps"))) eqn:E;
      [now rewrite E | reflexivity].
  - now rewrite !async_assign_if.
Qed.

(** A truthy event never makes [applyPerplexityChunk] throw on its fields:
    only [String(delta.content)] can. *)
Lemma chunk_defined (msg : message) (chunk : value) :
  nullish chunk = false ->
  ToString (get_opt (delta_of chunk) (js "content")) <> None ->
  exists msg', applyPerplexityChunk msg chunk = Some msg'.
Proof.
  intros Hn Hs. unfold applyPerplexityChunk. rewrite Hn.
  destruct (ToBoolean _).
  - destruct (ToString _); [eauto | congruence].
  - eauto.
Qed.

(** What [String] throws on is truthy and is neither [null] nor
    [undefined]. *)
Lemma unprintable_truthy (v : value) :
  ToString v = None -> ToBoolean v = true /\ nullish v = false.
Proof.
  destruct v as [| |[|]|n|s|items|props]; simpl; try discriminate; now split.
Qed.

Lemma chunk_throws (msg : message) (chunk : value) :
  ToString (get_opt (delta_of chunk) (js "content")) = None ->
  applyPerplexityChunk msg chunk = None.
Proof.
  intros Hs. unfold applyPerplexityChunk.
  destruct (unprintable_truthy _ Hs) as [Ht _]. now rewrite Ht, Hs.
Qed.

(** C3, as the code has it. An event that is not [null] is merged unless
    [String(delta.content)] throws, which it does before anything is
    written. After the merge each side-channel field of the accumulator
    holds the value the event brings for it when that value is truthy (every
    array and every object is), and its former value otherwise. The value an
    event brings is its top-level property, except that for the reasoning
    steps a truthy [choices[0].delta.reasoning_steps] takes precedence over
    the top-level property. *)
Theorem side_channel_replace (msg : message) (chunk : value) :
  nullish chunk = false ->
  (ToString (get_opt (delta_of chunk) (js "content")) <> None ->
   exists msg',
     applyPerplexityChunk msg chunk = Some msg' /\
     forall f,
       field f (meta_of msg') =
       if ToBoolean (incoming f chunk) then incoming f chunk else field f (meta_of msg)) /\
  (ToString (get_opt (delta_of chunk) (js "content")) = None ->
   applyPerplexityChunk msg chunk = None).
Proof.
  intros Hn. split.
  - intros Hs. destruct (@chunk_defined msg chunk Hn Hs) as [msg' H].
    exists msg'. split; [exact H|]. now apply chunk_fields.
  - apply chunk_throws.
Qed.

(** For a field other than the reasoning steps the claim holds as the spec
    words it, reading "present" as "truthy". *)
Lemma side_channel_replace_top_level (msg msg' : message) (chunk : value) (f : side_field) :
  applyPerplexityChunk msg chunk = Some msg' ->
  f <> ReasoningSteps ->
  (ToBoolean (get chunk (key f)) = true -> field f (meta_of msg') = get chunk (key f)) /\
  (get chunk (key f) = VUndefined -> field f (meta_of msg') = field f (meta_of msg)).
Proof.
  intros H Hf. destruct (chunk_fields _ _ H) as [Hfield _]. rewrite Hfield.
  destruct f; try congruence; cbv beta iota delta [incoming]; split; intros E; now rewrite E.
Qed.

(** Last writer wins: of two events that both bring a truthy value for a
    field, only the second one's value is retained. *)
Lemma second_event_wins (msg msg1 msg2 : message) (e1 e2 : value) (f : side_field) :
  applyPerplexityChunk msg e1 = Some msg1 ->
  applyPerplexityChunk msg1 e2 = Some msg2 ->
  ToBoolean (incoming f e2) = true ->
  field f (meta_of msg2) = incoming f e2.
Proof.
  intros _ H2 Ht. destruct (chunk_fields _ _ H2) as [Hfield _].
  now rewrite Hfield, Ht.
Qed.

(** C4, as the code has it. For every accumulator and every final payload,
    [applyPerplexityFinal] and one [applyPerplexityChunk] of an event that
    carries the payload's content as its delta and the payload's
    side-channel fields throw on the same payloads, and where they return
    they leave the same role, the same side-channel fields and the same
    status note. The content is where they part: the final merge puts the
    payload's content in the place of the accumulator's unless it is [null]
    or [undefined], and the incremental merge appends it when it is truthy.
    So the two leave the same state when the payload has no content, and
    when the accumulator's content is empty and the payload's is not
    [false], zero or NaN. *)
Theorem final_as_single_chunk (msg : message) (data chunk : value) :
  carries_same data chunk ->
  (applyPerplexityFinal msg data = None <-> applyPerplexityChunk msg chunk = None) /\
  (forall a b,
     applyPerplexityFinal msg data = Some a ->
     applyPerplexityChunk msg chunk = Some b ->
     role a = role b /\ meta_of a = meta_of b /\
     (exists text,
        ToString (final_content data) = Some text /\
        content a = (if nullish (final_content data) then content msg else text) /\
        content b = (if ToBoolean (final_content data) then content msg ++ text
                     else content msg)) /\
     (nullish (final_content data) = true \/
      (content msg = [] /\ false_or_zero (final_content data) = false) ->
      a = b)).
Proof.
  intros (Hn & Hc & Hr & Hf).
  unfold applyPerplexityChunk, applyPerplexityFinal.
  rewrite Hc, Hr, Hn.
  rewrite_fields Hf. rewrite assign_if_undefined.
  set (c := final_content data).
  set (m := assign_if RelatedQuestions _ _).
  destruct (ToString c) as [text|] eqn:Es.
  - split.
    + destruct (nullish c), (ToBoolean c); simpl; split; discriminate.
    + intros a b. destruct (nullish c) eqn:En.
      * assert (Et : ToBoolean c = false) by (destruct c; simpl in *; congruence).
        rewrite Et. simpl. intros Ha Hb. inversion Ha; inversion Hb; subst; simpl.
        repeat split. exists text. now repeat split.
      * simpl negb. cbv iota. destruct (ToBoolean c) eqn:Et.
        -- intros Ha Hb. inversion Ha; inversion Hb; subst; simpl.
           split; [reflexivity|]. split; [reflexivity|].
           split; [exists text; now repeat split|].
           intros [H|[H0 _]]; [discriminate | now rewrite H0].
        -- intros Ha Hb. inversion Ha; inversion Hb; subst; simpl.
           split; [reflexivity|]. split; [reflexivity|].
           split; [exists text; now repeat split|].
           intros [H|[H0 Hz]]; [discriminate|]. rewrite H0. f_equal.
           destruct c as [| |[|]|n|[|x s]|items|props];
             simpl in En, Et, Hz, Es; try discriminate.
           ++ rewrite negb_false_iff in Et. congruence.
           ++ now inversion Es.
  - destruct (unprintable_truthy _ Es) as [Et En]. rewrite Et, En. simpl.
    split; [split; reflexivity | intros a b Ha; discriminate].
Qed.

Lemma event_of_final_carries (data : value) : carries_same data (event_of_final data).
Proof.
  repeat split. intros f; destruct f; reflexivity.
Qed.

End Engine.

End MergeFacts.

(** ** The poller *)

Module PollerFacts.

Import JsString Js Merge Poller Exchange MergeFacts.

Section Machine.

Context {P : Platform}.

Lemma run_app (st : poller) (a b : list event) : run st (a ++ b) = run (run st a) b.
Proof. apply fold_left_app. Qed.

Lemma run_cons (st : poller) (e : event) (rest : list event) :
  run st (e :: rest) = run (step st e) rest.
Proof. reflexivity. Qed.











(** The checkpoint at the top of each turn of the loop. *)
Lemma loop_top_checks_token (st : poller) :
  aborted st = true ->
  loop_top st = finish st (Threw AbortError).
Proof. intros H. unfold loop_top. now rewrite H. Qed.

(** The sleeping function wakes up into an AbortError. *)
Lemma aborted_sleep_throws (m : message) (i : value) (ids encoded : jsstring) :
  ToString i = Some ids ->
  encodeURIComponent ids = Some encoded ->
  step {| msg := m; id := i; aborted := true; at_ := Awaiting Sleep |} TimerFired =
  {| msg := m; id := i; aborted := true; at_ := Done (Threw AbortError) |}.
Proof.
  intros Hi He. unfold step, on_timer. simpl. now rewrite Hi, He.
Qed.

Lemma sound_start (m : message) : sound (start m).
Proof. split; simpl; discriminate. Qed.

Lemma sound_finish (st : poller) (r : outcome) : sound (finish st r).
Proof.
  split; simpl; [discriminate|]. intros _. left. eexists. reflexivity.
Qed.

Lemma sound_suspend (st : poller) (a : await) :
  aborted st = false ->
  (in_loop (Awaiting a) = true -> exists ids, ToString (id st) = Some ids) ->
  sound (suspend st a).
Proof.
  intros Ha Hi. split; simpl; [exact Hi | congruence].
Qed.

Lemma sound_loop_top (st : poller) :
  (exists ids, ToString (id st) = Some ids) -> sound (loop_top st).
Proof.
  intros Hi. unfold loop_top. destruct (aborted st) eqn:Ha.
  - apply sound_finish.
  - apply sound_suspend; auto.
Qed.

Lemma sound_step (st : poller) (e : event) : sound st -> sound (step st e).
Proof.
  intros Hsound. unfold step.
  destruct (at_ st) as [a|r] eqn:E; [|exact Hsound].
  destruct Hsound as [Hi Ha]. rewrite E in Hi.
  assert (Hna : a <> Sleep -> aborted st = false).
  { intros Hs. destruct (aborted st) eqn:Eb; [|reflexivity].
    destruct (Ha eq_refl) as [[r Hr]|[_ Hr]]; congruence. }
  destruct e, a; try (split; [rewrite E; exact Hi | exact Ha]);
    try apply sound_finish;
    try (split; simpl; [discriminate | intros _; left; eexists; reflexivity]).
  - split; simpl; [intros _; apply Hi; reflexivity | intros _; right; now split].
  - unfold on_timer. destruct (ToString (id st)) as [ids|] eqn:Es; [|apply sound_finish].
    destruct (encodeURIComponent ids); [|apply sound_finish].
    destruct (aborted st) eqn:Eb; [apply sound_finish|].
    apply sound_suspend; eauto.
  - destruct (ok status); apply sound_suspend; try (apply Hna; discriminate);
      simpl; discriminate.
  - destruct (ok status); apply sound_suspend; try (apply Hna; discriminate);
      intros _; apply Hi; reflexivity.
  - unfold on_job. destruct (nullish data); [apply sound_finish|].
    destruct (ToString (get data (js "id"))) as [ids|] eqn:Es; [|apply sound_finish].
    apply sound_loop_top. simpl. eauto.
  - unfold on_data. destruct (nullish data); [apply sound_finish|].
    destruct (ToString (or_else _ _)) as [status|]; [|apply sound_finish].
    destruct (ToString (id st)) as [ids|] eqn:Es; [|apply sound_finish].
    destruct (is_string (get data (js "status")) (js "FAILED")).
    + destruct (ToString (or_else _ _)); apply sound_finish.
    + destruct (_ && _).
      * destruct (applyPerplexityFinal _ _); apply sound_finish.
      * apply sound_loop_top. simpl. eauto.
Qed.

Lemma sound_run (events : list event) (st : poller) : sound st -> sound (run st events).
Proof.
  revert st; induction events as [|e events IH]; intros st Hs; [exact Hs|].
  rewrite run_cons. apply IH, sound_step, Hs.
Qed.

Lemma is_string_eq (v : value) (lit : jsstring) :
  is_string v lit = true -> v = VString lit.
Proof.
  destruct v; simpl; try discriminate.
  intros H. destruct (JsStringFacts.eqb_spec s lit); congruence.
Qed.

(** C10. When a status response says [COMPLETED] but carries no truthy
    [response], the turn of the loop that reads it writes the status note and
    nothing else: content, role and every side-channel field stay as they
    were, and the function goes back to sleep for another turn instead of
    returning. *)
Theorem completed_without_response_continues (m0 : message) (events : list event)
    (data : value) :
  at_ (run (start m0) events) = Awaiting PollJson ->
  is_string (get data (js "status")) (js "COMPLETED") = true ->
  ToBoolean (get data (js "response")) = false ->
  exists ids,
    ToString (id (run (start m0) events)) = Some ids /\
    step (run (start m0) events) (JsonRead data) =
    looping
      (with_meta (msg (run (start m0) events))
         (set_async (status_note (js "COMPLETED") ids)
            (meta_of (msg (run (start m0) events)))))
      (id (run (start m0) events)).
Proof.
  intros Hat Hs Hr.
  destruct (sound_run events (sound_start m0)) as [Hi Ha].
  destruct (Hi ltac:(now rewrite Hat)) as [ids Hids].
  assert (Hna : aborted (run (start m0) events) = false).
  { destruct (aborted _) eqn:Eb; [|reflexivity].
    destruct (Ha eq_refl) as [[r Hd]|[_ Hd]]; congruence. }
  exists ids. split; [exact Hids|].
  unfold step. rewrite Hat. unfold on_data.
  pose proof (is_string_eq _ _ Hs) as Hst.
  assert (Hn : nullish data = false).
  { destruct data; simpl in *; try discriminate; reflexivity. }
  rewrite Hn, Hst, Hids, Hr.
  change (ToString (or_else (VString (js "COMPLETED")) (VString (js "UNKNOWN"))))
    with (Some (js "COMPLETED")).
  change (is_string (VString (js "COMPLETED")) (js "FAILED")) with false.
  rewrite andb_false_r. cbv iota.
  unfold loop_top, write, suspend, looping. simpl. now rewrite Hna.
Qed.

(** Only the status note differs after such a turn. *)
Lemma set_async_same_result (m : message) (note : jsstring) :
  same_result m (with_meta m (set_async note (meta_of m))).
Proof.
  repeat split.
Qed.

Lemma same_result_refl (m : message) : same_result m m.
Proof. repeat split. Qed.

Lemma same_result_trans (a b c : message) :
  same_result a b -> same_result b c -> same_result a c.
Proof.
  intros (H1 & H2 & H3) (H4 & H5 & H6). split; [congruence|]. split; [congruence|].
  intros f. now rewrite H6, H3.
Qed.



Lemma submit_run (m : message) (job : value) (ids : jsstring) :
  nullish job = false ->
  ToString (get job (js "id")) = Some ids ->
  run (start m) (submitted job) = looping (seeded m ids) (get job (js "id")).
Proof.
  intros Hn Hi. unfold run, submitted, step, on_job. simpl. now rewrite Hn, Hi.
Qed.

Lemma poll_run (m : message) (i data : value) (ids encoded : jsstring) :
  ToString i = Some ids ->
  encodeURIComponent ids = Some encoded ->
  non_terminal data ->
  exists note,
    run (looping m i) (polled data) = looping (with_meta m (set_async note (meta_of m))) i.
Proof.
  intros Hi He (Hn & Hs & Hf & Hc).
  destruct (ToString (or_else (get data (js "status")) (VString (js "UNKNOWN"))))
    as [status|] eqn:Est; [|congruence].
  exists (status_note status ids).
  unfold run, polled, step, on_timer, on_data. simpl.
  rewrite Hi, He. simpl. now rewrite Hn, Est, Hi, Hf, Hc.
Qed.

Lemma polls_run (pending : list value) (m : message) (i : value) (ids encoded : jsstring) :
  ToString i = Some ids ->
  encodeURIComponent ids = Some encoded ->
  Forall non_terminal pending ->
  exists m', same_result m m' /\ run (looping m i) (flat_map polled pending) = looping m' i.
Proof.
  intros Hi He H. revert m. induction H as [|d pending Hd _ IH]; intros m.
  - exists m. split; [apply same_result_refl | reflexivity].
  - destruct (poll_run m _ Hi He Hd) as [note Hrun].
    destruct (IH (with_meta m (set_async note (meta_of m)))) as (m' & Hsame & Hrest).
    exists m'. split.
    + eapply same_result_trans; [apply set_async_same_result | exact Hsame].
    + change (flat_map polled (d :: pending)) with (polled d ++ flat_map polled pending).
      now rewrite run_app, Hrun.
Qed.



End Machine.

End PollerFacts.

(** ** The payload builder *)

Module PayloadFacts.

Import JsString Js Payload.

Lemma has_own_app (props : list (jsstring * value)) (k k' : jsstring) (v : value) :
  has_own (props ++ [(k, v)]) k' = has_own props k' || eqb k k'.
Proof.
  induction props as [|[k0 v0] props IH]; simpl.
  - now rewrite orb_false_r.
  - now rewrite IH, orb_assoc.
Qed.

Lemma has_own_add_if (c : bool) (props : list (jsstring * value)) (k k' : jsstring)
    (v : value) :
  has_own (add_if c k v props) k' = has_own props k' || (eqb k k' && c).
Proof.
  unfold add_if. destruct c.
  - now rewrite has_own_app, andb_true_r.
  - now rewrite andb_false_r, orb_false_r.
Qed.

Lemma unset_falsy (v : value) : unset v = true -> ToBoolean v = false.
Proof. destruct v; simpl; congruence. Qed.

Lemma switched_off_falsy (v : value) : switched_off v = true -> ToBoolean v = false.
Proof. destruct v as [| |[|]| | | |]; simpl; congruence. Qed.

Lemma no_entries_no_length (v : value) :
  no_entries v = true -> ToBoolean (get_opt v (js "length")) = false.
Proof.
  destruct v as [| | | | |[|x items]|]; simpl; try congruence; reflexivity.
Qed.

(** Decides the comparisons of key literals that a goal contains. *)
Ltac decide_keys :=
  repeat match goal with
    | |- context [eqb (js ?a) (js ?b)] =>
        let r := eval vm_compute in (eqb (js a) (js b)) in
        change (eqb (js a) (js b)) with r
    end.

Section Builder.

Context {P : Platform}.

(** C7. Whatever the configuration, a built payload has the key of an
    optional field only if the setting behind it differs from its inactive
    value: a setting that is [null], [false] or an empty list leaves no key in
    the request. *)
Theorem optional_field_needs_active_setting (s thread_messages payload : value)
    (f : optional_field) :
  buildPayload s thread_messages = Some payload ->
  inactive f s = true ->
  has_key payload (payload_key f) = false.
Proof.
  unfold buildPayload. destruct (nullish s); [discriminate|].
  destruct (build_messages s thread_messages) as [msgs|]; [|discriminate].
  intros H; inversion H; subst; clear H.
  unfold has_key, copy_if_truthy, flag_if_truthy, copy_if_length.
  rewrite !has_own_add_if.
  destruct f; cbv beta iota delta [inactive payload_key]; intros Hin;
    decide_keys; cbv beta iota delta [has_own andb orb];
    decide_keys; cbv beta iota delta [andb orb].
  - unfold unset in Hin. now rewrite Hin.
  - now rewrite (unset_falsy _ Hin).
  - now rewrite (unset_falsy _ Hin).
  - now rewrite (switched_off_falsy _ Hin).
  - now rewrite (switched_off_falsy _ Hin).
  - now rewrite (switched_off_falsy _ Hin).
  - now rewrite (switched_off_falsy _ Hin).
  - now rewrite (no_entries_no_length _ Hin).
  - now rewrite (no_entries_no_length _ Hin).
  - now rewrite (unset_falsy _ Hin).
  - now rewrite (no_entries_no_length _ Hin).
  - now rewrite (no_entries_no_length _ Hin).
  - apply andb_true_iff in Hin. destruct Hin as [H1 H2].
    now rewrite (unset_falsy _ H1), (unset_falsy _ H2).
  - now rewrite (switched_off_falsy _ Hin).
Qed.

(** The six keys of the base object are sent whatever their values. *)
Lemma base_keys_always_sent (s thread_messages payload : value) (k : jsstring) :
  buildPayload s thread_messages = Some payload ->
  In k [js "model"; js "messages"; js "search_mode"; js "stream"; js "stream_mode";
        js "safe_search"] ->
  has_key payload k = true.
Proof.
  unfold buildPayload. destruct (nullish s); [discriminate|].
  destruct (build_messages s thread_messages) as [msgs|]; [|discriminate].
  intros H; inversion H; subst; clear H.
  unfold has_key, copy_if_truthy, flag_if_truthy, copy_if_length.
  rewrite !has_own_add_if. simpl In.
  intros [<-|[<-|[<-|[<-|[<-|[<-|[]]]]]]]; reflexivity.
Qed.

End Builder.

End PayloadFacts.

(** ** The credential gate *)

Module ServerFacts.

Import JsString Js Server.

Lemma blank_key (o : option jsstring) :
  blank o ->
  match o with
  | Some k => if nonempty k then trim k else []
  | None => []
  end = [].
Proof.
  destruct o as [k|]; simpl; [|reflexivity].
  intros H. now destruct (nonempty k).
Qed.

Lemma no_credential_no_key (req : request) : no_credential req -> getApiKey req = [].
Proof.
  intros [H1 H2]. unfold getApiKey.
  destruct (header req (js "x-pplx-key")) as [k|].
  - destruct (nonempty k) eqn:E.
    + simpl in H1. now rewrite E.
    + now apply blank_key.
  - now apply blank_key.
Qed.

(** C8. A request that carries no API key, its credential headers absent or
    holding only white space, is answered with status 400 on every API route,
    and no upstream call is made for it. *)
Theorem missing_credential_fails_fast
    (fetch : upstream_request -> option upstream_response) (r : route) (req : request) :
  no_credential req ->
  handle fetch r req =
  ([], Json 400 (VObject [(js "error",
                           VString (js "Missing API key. Send it in the x-pplx-key header."))])).
Proof.
  intros H. pose proof (no_credential_no_key H) as Hk.
  destruct r; unfold handle, proxyPerplexity, async_get; now rewrite Hk.
Qed.

End ServerFacts.

(** ** Worked examples *)

Module Worked.

Import JsString Js TextDecoder Sse Merge Poller Exchange Payload Server Fixture Samples.
Import SseFacts MergeFacts PollerFacts PayloadFacts ServerFacts.

(** The two-event stream of the spec, whole and cut at a separator. *)
Example two_events_whole : consumeSSE [two_events] = [event_a; event_b].
Proof. vm_compute. reflexivity. Qed.

Example two_events_cut_inside_separator :
  consumeSSE [firstn 14 two_events; skipn 14 two_events] = [event_a; event_b].
Proof. vm_compute. reflexivity. Qed.

(** The same two events at every one of the offsets the stream can be cut
    at. *)
Example two_events_every_offset :
  map (fun offset => consumeSSE [firstn offset two_events; skipn offset two_events])
    (seq 0 (S (List.length two_events)))
  = repeat [event_a; event_b] (S (List.length two_events)).
Proof. vm_compute. reflexivity. Qed.

(** A cut inside the two bytes of a character. *)
Example cut_inside_character :
  consumeSSE [bytes "data: {'t':'" ++ [xc3]; [xa9] ++ bytes "'}||"]
  = [VObject [(js "t", VString [233%N])]].
Proof. vm_compute. reflexivity. Qed.

(** [DONE] ends the decoding whatever follows it. *)
Example done_halts :
  consumeSSE [bytes "data: {'a':1}||data: [DONE]||data: {'b':2}||"] = [event_a].
Proof. vm_compute. reflexivity. Qed.

(** A line that is not JSON is skipped and the session goes on. *)
Example keep_alive_skipped :
  consumeSSE [bytes "data: ping||: comment|data: {'b':2}||"] = [event_b].
Proof. vm_compute. reflexivity. Qed.

(** C9 at a body that arrives in one read: an event closed by its blank
    line, then an event that is followed by one line feed only. *)
Lemma unterminated_event_is_dropped_witness :
  split_lflf (decoded (List.concat [first_event ++ unterminated])) =
    [text "data: {'a':1}"] ++ [text "data: {'b':2}|"] /\
  consumeSSE [first_event ++ unterminated] = [event_a] /\
  (snd (fst (read_loop fresh [first_event ++ unterminated])) = Running ->
   buffer (fst (fst (read_loop fresh [first_event ++ unterminated]))) =
     text "data: {'b':2}|").
Proof.
  assert (Hsplit : split_lflf (decoded (List.concat [first_event ++ unterminated])) =
                   [text "data: {'a':1}"] ++ [text "data: {'b':2}|"])
    by (vm_compute; reflexivity).
  split; [exact Hsplit|].
  destruct (unterminated_event_is_dropped [first_event ++ unterminated]
              [text "data: {'a':1}"] (text "data: {'b':2}|") Hsplit) as [Hout Hbuf].
  split; [rewrite Hout; vm_compute; reflexivity | exact Hbuf].
Defined.

(** The same body in two reads, cut after the closed event. *)
Example unterminated_in_its_own_read :
  consumeSSE [first_event; unterminated] = [event_a] /\
  buffer (fst (fst (read_loop fresh [first_event; unterminated]))) = text "data: {'b':2}|".
Proof. split; vm_compute; reflexivity. Qed.

(** With the blank line the same event is emitted. *)
Example terminated_event_is_emitted :
  consumeSSE [first_event; unterminated ++ bytes "|"] = [event_a; event_b].
Proof. vm_compute. reflexivity. Qed.

(** C2 at three deltas. *)
Lemma content_is_concatenation_witness :
  Forall2 only_content_delta
    [content_event (js "Hel"); content_event (js "lo, "); content_event (js "world")]
    [js "Hel"; js "lo, "; js "world"] /\
  content new_assistant = [] /\
  exists msg',
    merge_chunks new_assistant
      [content_event (js "Hel"); content_event (js "lo, "); content_event (js "world")]
      = Some msg' /\
    content msg' = List.concat [js "Hel"; js "lo, "; js "world"] /\
    meta_of msg' = meta_of new_assistant /\ role msg' = role new_assistant.
Proof.
  assert (H : Forall2 only_content_delta
                [content_event (js "Hel"); content_event (js "lo, ");
                 content_event (js "world")]
                [js "Hel"; js "lo, "; js "world"])
    by (repeat constructor; apply content_event_only).
  split; [exact H|]. split; [reflexivity|].
  apply (content_is_concatenation new_assistant H). reflexivity.
Defined.

(** C3 at two events with different citation lists: only the second list is
    retained. *)
Lemma side_channel_replace_witness :
  applyPerplexityChunk new_assistant (citing [js "https://a"]) = Some cited_a /\
  nullish (citing [js "https://b"; js "https://c"]) = false /\
  ToString (get_opt (delta_of (citing [js "https://b"; js "https://c"])) (js "content"))
    <> None /\
  exists msg',
    applyPerplexityChunk cited_a (citing [js "https://b"; js "https://c"]) = Some msg' /\
    forall f,
      field f (meta_of msg') =
      if ToBoolean (incoming f (citing [js "https://b"; js "https://c"]))
      then incoming f (citing [js "https://b"; js "https://c"])
      else field f (meta_of cited_a).
Proof.
  split; [vm_compute; reflexivity|]. split; [reflexivity|].
  assert (Hs : ToString (get_opt (delta_of (citing [js "https://b"; js "https://c"]))
                           (js "content")) <> None) by (vm_compute; discriminate).
  split; [exact Hs|].
  apply (@side_channel_replace _ cited_a (citing [js "https://b"; js "https://c"]));
    [reflexivity | exact Hs].
Defined.

(** What the two events leave. *)
Example second_citation_list_retained :
  merge_chunks new_assistant
    [citing [js "https://a"]; citing [js "https://b"; js "https://c"]] = Some cited_bc /\
  field Citations (meta_of cited_bc) =
    VArray [VString (js "https://b"); VString (js "https://c")].
Proof. split; vm_compute; reflexivity. Qed.

(** An event whose delta content makes [String] throw leaves nothing: the
    merge throws before it reads the citations the event also brings. *)
Example unprintable_content_throws :
  applyPerplexityChunk new_assistant
    (VObject [(js "choices",
               VArray [VObject [(js "delta",
                                 VObject [(js "content",
                                           VObject [(js "toString", VNumber 1)])])]]);
              (js "citations", VArray [VString (js "https://a")])]) = None.
Proof. vm_compute. reflexivity. Qed.

(** C3 as worded fails on the reasoning steps: an event with no top-level
    [reasoning_steps] changes the accumulator's, and an event with both keeps
    the delta's value, not the top-level one. *)
Lemma reasoning_steps_counterexample :
  (get reasoning_in_delta (key ReasoningSteps) = VUndefined /\
   exists m',
     applyPerplexityChunk new_assistant reasoning_in_delta = Some m' /\
     field ReasoningSteps (meta_of new_assistant) = VArray [] /\
     field ReasoningSteps (meta_of m') = VArray [VString (js "search")]) /\
  (get reasoning_twice (key ReasoningSteps) = VArray [VString (js "outer")] /\
   exists m',
     applyPerplexityChunk new_assistant reasoning_twice = Some m' /\
     field ReasoningSteps (meta_of m') = VArray [VString (js "inner")]).
Proof.
  split; (split; [reflexivity|]); eexists; repeat split; vm_compute; reflexivity.
Defined.

(** A field that is present but falsy is not stored. *)
Example falsy_field_not_stored :
  get (VObject [(js "usage", VNull)]) (key Usage) = VNull /\
  applyPerplexityChunk new_assistant (VObject [(js "usage", VNull)]) = Some new_assistant.
Proof. split; reflexivity. Qed.

(** C4 at the accumulator the poller has seeded with its placeholder and a
    final payload that brings citations and no content: the two merges leave
    the same state. *)
Lemma final_as_single_chunk_witness :
  carries_same (citing [js "https://a"]) (event_of_final (citing [js "https://a"])) /\
  nullish (final_content (citing [js "https://a"])) = true /\
  content (seeded new_assistant (js "job-1")) = running_note /\
  exists a,
    applyPerplexityFinal (seeded new_assistant (js "job-1")) (citing [js "https://a"])
      = Some a /\
    applyPerplexityChunk (seeded new_assistant (js "job-1"))
      (event_of_final (citing [js "https://a"])) = Some a /\
    field Citations (meta_of a) = VArray [VString (js "https://a")].
Proof.
  split; [apply event_of_final_carries|]. split; [reflexivity|]. split; [reflexivity|].
  destruct (@final_as_single_chunk _ (seeded new_assistant (js "job-1"))
              (citing [js "https://a"]) (event_of_final (citing [js "https://a"]))
              (event_of_final_carries _)) as [_ Hsame].
  destruct (applyPerplexityFinal (seeded new_assistant (js "job-1"))
              (citing [js "https://a"])) as [a|] eqn:Ha;
    [|vm_compute in Ha; discriminate].
  destruct (applyPerplexityChunk (seeded new_assistant (js "job-1"))
              (event_of_final (citing [js "https://a"]))) as [b|] eqn:Hb;
    [|vm_compute in Hb; discriminate].
  destruct (Hsame a b eq_refl eq_refl) as (_ & _ & _ & Heq).
  specialize (Heq (or_introl eq_refl)). subst b.
  exists a. split; [reflexivity|]. split; [reflexivity|].
  vm_compute in Ha. injection Ha as <-. reflexivity.
Defined.

(** C4's other case: a fresh accumulator and a final payload with content. *)
Example final_on_fresh_accumulator :
  content new_assistant = [] /\
  false_or_zero (final_content answer) = false /\
  applyPerplexityChunk new_assistant (event_of_final answer) =
  applyPerplexityFinal new_assistant answer.
Proof. repeat split; vm_compute; reflexivity. Qed.

(** C4 as worded fails where the accumulator already has content, as it does
    in the poller, which seeds it with a placeholder: the final merge
    replaces the content and the incremental merge appends to it. It also
    fails on an empty accumulator for a content that is zero. *)
Lemma final_replaces_chunk_appends_counterexample :
  (exists a b,
     applyPerplexityFinal (seeded new_assistant (js "job-1")) answer = Some a /\
     applyPerplexityChunk (seeded new_assistant (js "job-1")) (event_of_final answer)
       = Some b /\
     content a = js "Full answer." /\
     content b = running_note ++ js "Full answer.") /\
  (exists a b,
     applyPerplexityFinal new_assistant zero_content = Some a /\
     applyPerplexityChunk new_assistant (event_of_final zero_content) = Some b /\
     content a = js "0" /\
     content b = []).
Proof.
  split; eexists; eexists; repeat split; vm_compute; reflexivity.
Defined.



(** C7 at the configuration of the spec's example: neither [max_tokens] nor
    [search_domain_filter] is a key of the request. *)
Lemma optional_field_needs_active_setting_witness :
  inactive MaxTokens sonar_only = true /\
  inactive SearchDomainFilter sonar_only = true /\
  exists payload,
    buildPayload sonar_only (VArray [user_message]) = Some payload /\
    get payload (js "model") = VString (js "sonar") /\
    has_key payload (payload_key MaxTokens) = false /\
    has_key payload (payload_key SearchDomainFilter) = false.
Proof.
  split; [reflexivity|]. split; [reflexivity|].
  eexists. split; [vm_compute; reflexivity|]. split; [reflexivity|]. split.
  - apply (@optional_field_needs_active_setting _ sonar_only (VArray [user_message]));
      reflexivity.
  - apply (@optional_field_needs_active_setting _ sonar_only (VArray [user_message]));
      reflexivity.
Defined.

(** The default configuration sends the six base keys and nothing else. *)
Example default_payload :
  buildPayload DEFAULT_SETTINGS (VArray [user_message]) =
  Some (VObject [(js "model", VString (js "sonar"));
                 (js "messages", VArray [user_message]);
                 (js "search_mode", VString (js "web"));
                 (js "stream", VBool true);
                 (js "stream_mode", VString (js "full"));
                 (js "safe_search", VBool true)]).
Proof. vm_compute. reflexivity. Qed.

(** An active setting does put its key in the request. *)
Example active_setting_is_sent :
  exists payload,
    buildPayload busy (VArray [user_message]) = Some payload /\
    get payload (js "max_tokens") = VNumber 256 /\
    get payload (js "return_images") = VBool true /\
    get payload (js "search_domain_filter") = VArray [VString (js "example.org")] /\
    get payload (js "web_search_options") =
      VObject [(js "search_context_size", VString (js "high"))] /\
    get payload (js "stream_mode") = VString (js "full") /\
    get payload (js "safe_search") = VBool false /\
    get payload (js "messages") =
      VArray [VObject [(js "role", VString (js "system"));
                       (js "content", VString (js "Be brief."))];
              user_message] /\
    has_key payload (js "reasoning_effort") = false.
Proof.
  eexists. split; [vm_compute; reflexivity|]. repeat split; vm_compute; reflexivity.
Qed.

(** C8 at a request whose credential header holds three spaces, on an
    upstream that would answer. *)
Lemma missing_credential_fails_fast_witness :
  no_credential spaces_only /\
  handle always_ok Chat spaces_only =
  ([], Json 400 (VObject [(js "error",
                           VString (js "Missing API key. Send it in the x-pplx-key header."))])).
Proof.
  assert (H : no_credential spaces_only) by (split; [reflexivity | exact I]).
  split; [exact H|]. apply missing_credential_fails_fast, H.
Defined.

(** With a key the upstream is called once. *)
Example credential_reaches_upstream :
  handle always_ok Chat
    {| headers := [(js "x-pplx-key", js " pplx-123 ")]; body := VObject [];
       params_id := None |} =
  ([{| url := completions; method := js "POST"; authorization := js "Bearer pplx-123";
       json_body := Some (VObject []) |}],
   Relay 200 [] []).
Proof. vm_compute. reflexivity. Qed.

(** C10 at a poller that has submitted a job and waits for the body of its
    first status response. *)
Lemma completed_without_response_continues_witness :
  at_ (run (start new_assistant) (submitted job ++ [TimerFired; FetchResolved 200]))
    = Awaiting PollJson /\
  get (status_only (js "COMPLETED")) (js "response") = VUndefined /\
  exists ids,
    ToString (id (run (start new_assistant)
                    (submitted job ++ [TimerFired; FetchResolved 200]))) = Some ids /\
    step (run (start new_assistant) (submitted job ++ [TimerFired; FetchResolved 200]))
      (JsonRead (status_only (js "COMPLETED"))) =
    looping
      (with_meta
         (msg (run (start new_assistant)
                 (submitted job ++ [TimerFired; FetchResolved 200])))
         (set_async (status_note (js "COMPLETED") ids)
            (meta_of (msg (run (start new_assistant)
                             (submitted job ++ [TimerFired; FetchResolved 200]))))))
      (id (run (start new_assistant) (submitted job ++ [TimerFired; FetchResolved 200]))).
Proof.
  split; [vm_compute; reflexivity|]. split; [reflexivity|].
  apply completed_without_response_continues.
  - vm_compute. reflexivity.
  - vm_compute. reflexivity.
  - reflexivity.
Defined.

(** What that turn leaves behind, spelled out. *)
Example completed_without_response_state :
  step (run (start new_assistant) (submitted job ++ [TimerFired; FetchResolved 200]))
    (JsonRead (status_only (js "COMPLETED"))) =
  looping
    {| role := js "assistant"; content := running_note;
       meta_of := set_async (js "Status: COMPLETED " ++ [8226%N] ++ js " id: job-1")
                    (meta_of new_assistant) |}
    (VString (js "job-1")).
Proof. vm_compute. reflexivity. Qed.

(** Cancellation in the middle of a turn: the status response that was
    pending completes afterwards and is not merged. *)
Example abort_mid_poll :
  run (start new_assistant)
    (submitted job ++ [TimerFired; FetchResolved 200; Abort;
                       JsonRead (completed_with answer); TimerFired]) =
  {| msg := seeded new_assistant (js "job-1"); id := VString (js "job-1");
     aborted := true; at_ := Done (Threw AbortError) |}.
Proof. vm_compute. reflexivity. Qed.



End Worked.

(** * Further properties of the code *)

(** ** More on the event decoder *)

Module DecoderMore.

Import JsString Js TextDecoder Sse JsStringFacts SseFacts.

Section Decoding.

Context {P : Platform}.

(** However many reads the body arrives in, and wherever they cut it,
    [consumeSSE] hands its callback what it would hand it for the whole body
    in one read. *)
Theorem consumeSSE_any_chunking (chunks : list (list byte)) :
  consumeSSE chunks = consumeSSE [List.concat chunks].
Proof.
  rewrite !consumeSSE_emitted. simpl List.concat. now rewrite app_nil_r.
Qed.

(** Once a [data: [DONE]] line has made the function return, no later read
    is looked at: the callback has received all it will. *)
Theorem done_ends_decoding (chunks more : list (list byte)) :
  snd (fst (read_loop fresh chunks)) = Returned ->
  consumeSSE (chunks ++ more) = consumeSSE chunks.
Proof.
  intros H. unfold consumeSSE. rewrite read_loop_app.
  destruct (read_loop fresh chunks) as [[st f] out]. simpl in H. now subst f.
Qed.

(** The callback is never called with [null], [false], zero or an empty
    string: a payload that parses to a falsy value is dropped like one that
    does not parse. *)
Theorem callback_values_truthy (chunks : list (list byte)) :
  Forall (fun v => ToBoolean v = true /\ nullish v = false) (consumeSSE chunks).
Proof.
  eapply Forall_impl; [|apply consumeSSE_truthy].
  intros v Hv. split; [exact Hv|]. destruct v; simpl in *; congruence.
Qed.

Lemma read_loop_settled (chunks : list (list byte)) (st : locals) :
  settled st -> settled (fst (fst (read_loop st chunks))).
Proof.
  revert st; induction chunks as [|chunk chunks IH]; intros st Hst; [exact Hst|].
  simpl. destruct (on_read st chunk) as [[st1 f] out] eqn:E.
  pose proof (on_read_settled _ _ E) as Hst1.
  destruct f; [|exact Hst1].
  specialize (IH _ Hst1). now destruct (read_loop st1 chunks) as [[st2 f2] out2].
Qed.

(** Between reads the buffer never holds a blank line: every event that a
    read completed has been taken out of it, so it holds at most the one
    event that is still arriving. *)
Theorem buffer_holds_no_complete_event (chunks : list (list byte)) :
  split_lflf (buffer (fst (fst (read_loop fresh chunks)))) =
  [buffer (fst (fst (read_loop fresh chunks)))].
Proof. apply (read_loop_settled chunks settled_fresh). Qed.

End Decoding.

End DecoderMore.

(** ** More on the merge engine *)

Module MergeMore.

Import JsString Js Sse Merge MergeFacts SseFacts.

Lemma meta_ext (a b : meta) :
  (forall f, field f a = field f b) -> async a = async b -> a = b.
Proof.
  intros Hf Ha. destruct a, b.
  pose proof (Hf Citations). pose proof (Hf SearchResults). pose proof (Hf Usage).
  pose proof (Hf ReasoningSteps). pose proof (Hf Images). pose proof (Hf Videos).
  pose proof (Hf RelatedQuestions). simpl in *. congruence.
Qed.

Section Engine.

Context {P : Platform}.

(** What [applyPerplexityFinal] leaves in the side-channel fields. *)
Lemma final_fields (m m' : message) (d : value) :
  applyPerplexityFinal m d = Some m' ->
  (forall f, field f (meta_of m') =
             if ToBoolean (get_opt d (key f)) then get_opt d (key f)
             else field f (meta_of m)) /\
  async (meta_of m') = async (meta_of m) /\ role m' = role m.
Proof.
  unfold applyPerplexityFinal.
  destruct (if negb (nullish (final_content d)) then _ else _) as [c|]; [|discriminate].
  intros H; inversion H; subst; clear H. simpl. split; [|split; [|reflexivity]].
  - intros f. rewrite !field_assign_if.
    destruct f; cbv beta iota delta [side_field_eqb key andb]; reflexivity.
  - now rewrite !async_assign_if.
Qed.

(** Merging the same final payload a second time changes nothing: content
    and fields are replaced, not accumulated. *)
Theorem final_merge_idempotent (m m1 : message) (data : value) :
  applyPerplexityFinal m data = Some m1 ->
  applyPerplexityFinal m1 data = Some m1.
Proof.
  intros H1.
  assert (Hc : (if negb (nullish (final_content data)) then ToString (final_content data)
                else Some (content m1)) = Some (content m1)).
  { revert H1. unfold applyPerplexityFinal.
    destruct (negb (nullish (final_content data))); [|reflexivity].
    destruct (ToString (final_content data)); [|discriminate].
    intros H; inversion H; reflexivity. }
  destruct (applyPerplexityFinal m1 data) as [m2|] eqn:H2.
  - f_equal.
    destruct (final_fields _ _ H1) as (F1 & A1 & R1).
    destruct (final_fields _ _ H2) as (F2 & A2 & R2).
    assert (C2 : content m2 = content m1).
    { revert H2. unfold applyPerplexityFinal. rewrite Hc.
      intros H; inversion H; reflexivity. }
    destruct m1 as [r1 c1 mt1], m2 as [r2 c2 mt2]. simpl in *. subst.
    f_equal. apply meta_ext; [|exact A2].
    intros f. rewrite F2. destruct (ToBoolean (get_opt data (key f))) eqn:E; [|reflexivity].
    now rewrite F1, E.
  - revert H2. unfold applyPerplexityFinal. rewrite Hc. discriminate.
Qed.

Lemma chunk_appends (msg msg' : message) (chunk : value) :
  applyPerplexityChunk msg chunk = Some msg' ->
  (exists suffix, content msg' = content msg ++ suffix) /\ role msg' = role msg.
Proof.
  unfold applyPerplexityChunk.
  destruct (ToBoolean (get_opt (delta_of chunk) (js "content"))).
  - destruct (ToString _) as [text|]; [|discriminate].
    destruct (nullish chunk); [discriminate|].
    intros H; inversion H; subst; clear H. simpl. split; [eauto | reflexivity].
  - destruct (nullish chunk); [discriminate|].
    intros H; inversion H; subst; clear H. simpl. split; [|reflexivity].
    exists []. now rewrite app_nil_r.
Qed.

(** Under the streamed merge the content is append-only: whatever the events
    hold, the content before is a prefix of the content after, and neither
    the role nor the status note changes. *)
Theorem streamed_content_append_only (events : list value) (msg msg' : message) :
  merge_chunks msg events = Some msg' ->
  (exists suffix, content msg' = content msg ++ suffix) /\
  role msg' = role msg /\
  async (meta_of msg') = async (meta_of msg).
Proof.
  revert msg; induction events as [|e events IH]; intros msg; simpl.
  - intros H; inversion H; subst. split; [|now split].
    exists []. now rewrite app_nil_r.
  - destruct (applyPerplexityChunk msg e) as [m1|] eqn:E; [|discriminate].
    intros H. destruct (IH _ H) as ([s2 Hs2] & R2 & A2).
    destruct (chunk_appends _ _ E) as ([s1 Hs1] & R1).
    destruct (chunk_fields _ _ E) as [_ A1].
    split; [|split; congruence].
    exists (s1 ++ s2). now rewrite Hs2, Hs1, app_assoc.
Qed.

Lemma merge_fails_on_content (events : list value) (msg : message) :
  Forall (fun v => ToBoolean v = true) events ->
  merge_chunks msg events = None ->
  exists e, In e events /\ ToString (get_opt (delta_of e) (js "content")) = None.
Proof.
  intros Ht. revert msg. induction Ht as [|e events He _ IH]; intros msg; simpl.
  - discriminate.
  - destruct (applyPerplexityChunk msg e) as [m1|] eqn:E.
    + intros H. destruct (IH _ H) as (e' & Hin & Hs). eauto.
    + intros _. exists e. split; [now left|].
      destruct (ToString (get_opt (delta_of e) (js "content"))) eqn:Es; [|reflexivity].
      exfalso. assert (Hn : nullish e = false) by (destruct e; simpl in *; congruence).
      destruct (chunk_defined msg e Hn) as [m' Hm]; congruence.
Qed.

(** The streamed branch of [runChatCompletion] can only throw out of the
    merge where [String(delta.content)] throws: the decoder never hands the
    merge a [null] event to trip over. *)
Theorem streamed_fails_only_on_content (m : message) (chunks : list (list byte)) :
  Chat.streamed m chunks = None ->
  exists e, In e (consumeSSE chunks) /\
            ToString (get_opt (delta_of e) (js "content")) = None.
Proof.
  apply merge_fails_on_content, consumeSSE_truthy.
Qed.

End Engine.

End MergeMore.

(** ** More on the poller *)

Module PollerMore.

Import JsString Js Merge Poller MergeFacts PollerFacts.

Section Machine.

Context {P : Platform}.

(** There is no cap on the number of turns: after a successful submission,
    any number of non-terminal status responses leaves the function asleep
    before its next request, with the role, the content and the side-channel
    fields exactly as the submission seeded them; only the status note has
    moved. *)
Theorem polling_waits_indefinitely (m : message) (job : value) (pending : list value)
    (ids encoded : jsstring) :
  nullish job = false ->
  ToString (get job (js "id")) = Some ids ->
  encodeURIComponent ids = Some encoded ->
  Forall non_terminal pending ->
  exists m',
    run (start m) (submitted job ++ flat_map polled pending)
      = looping m' (get job (js "id")) /\
    same_result (seeded m ids) m'.
Proof.
  intros Hn Hi He Hp. rewrite run_app, (submit_run m job Hn Hi).
  destruct (polls_run (seeded m ids) _ Hi He Hp) as (m' & Hsame & Hrun).
  exists m'. now split.
Qed.

(** A status response that says [FAILED] ends the function with an [Error]
    whose message is the response's [error_message], or the stock text when
    there is none; the turn has written the status note and nothing else. *)
Theorem failed_job_throws_its_message (m0 : message) (events : list event)
    (data : value) (message : jsstring) :
  at_ (run (start m0) events) = Awaiting PollJson ->
  is_string (get data (js "status")) (js "FAILED") = true ->
  ToString (or_else (get data (js "error_message"))
              (VString (js "Deep research request failed"))) = Some message ->
  at_ (step (run (start m0) events) (JsonRead data)) = Done (Threw (Error message)) /\
  same_result (msg (run (start m0) events))
    (msg (step (run (start m0) events) (JsonRead data))).
Proof.
  intros Hat Hs Hm.
  destruct (sound_run events (sound_start m0)) as [Hi _].
  destruct (Hi ltac:(now rewrite Hat)) as [ids Hids].
  unfold step. rewrite Hat. unfold on_data.
  pose proof (is_string_eq _ _ Hs) as Hst.
  assert (Hn : nullish data = false).
  { destruct data; simpl in *; try discriminate; reflexivity. }
  rewrite Hn, Hst, Hids.
  change (ToString (or_else (VString (js "FAILED")) (VString (js "UNKNOWN"))))
    with (Some (js "FAILED")).
  change (is_string (VString (js "FAILED")) (js "FAILED")) with true.
  cbv iota. rewrite Hm. simpl. split; [reflexivity|]. apply set_async_same_result.
Qed.

(** A status request answered with a non-2xx status is fatal at once: the
    function throws an [Error] that carries the status code and the body
    text, writes nothing, and no later delivery makes it try again. *)
Theorem poll_http_error_is_fatal (st : poller) (status : N) (text : jsstring)
    (later : list event) :
  at_ st = Awaiting PollFetch ->
  ok status = false ->
  run st (FetchResolved status :: TextRead text :: later) =
  finish st (Threw (http_error (js "Async poll error") status text)).
Proof.
  intros Hat Hok. rewrite !run_cons.
  assert (H1 : step st (FetchResolved status) = suspend st (PollText status)).
  { unfold step. now rewrite Hat, Hok. }
  rewrite H1.
  assert (H2 : step (suspend st (PollText status)) (TextRead text) =
               finish st (Threw (http_error (js "Async poll error") status text)))
    by reflexivity.
  rewrite H2. clear H1 H2.
  induction later as [|e later IH]; [reflexivity|].
  rewrite run_cons. exact IH.
Qed.

End Machine.

End PollerMore.

(** ** More on the payload builder *)

Module PayloadMore.

Import JsString Js Payload PayloadShape PayloadFacts.

Lemma add_if_entry (c : bool) (k : jsstring) (v : value) (props : list (jsstring * value)) :
  add_if c k v props = props ++ entry c k v.
Proof. unfold add_if, entry. destruct c; [reflexivity | now rewrite app_nil_r]. Qed.

Lemma own_append (a b : list (jsstring * value)) (k : jsstring) :
  own (a ++ b) k = if has_own a k then own a k else own b k.
Proof.
  induction a as [|[k0 v0] a IH]; simpl; [reflexivity|].
  destruct (eqb k0 k); [reflexivity | exact IH].
Qed.

Lemma has_own_append (a b : list (jsstring * value)) (k : jsstring) :
  has_own (a ++ b) k = has_own a k || has_own b k.
Proof.
  induction a as [|[k0 v0] a IH]; simpl; [reflexivity|].
  destruct (eqb k0 k); [reflexivity | exact IH].
Qed.

Lemma has_own_entry (c : bool) (k k' : jsstring) (v : value) :
  has_own (entry c k v) k' = eqb k k' && c.
Proof. unfold entry. destruct c; simpl; [now rewrite orb_false_r, andb_true_r | now rewrite andb_false_r]. Qed.

Lemma own_entry (c : bool) (k k' : jsstring) (v : value) :
  own (entry c k v) k' = if eqb k k' && c then v else VUndefined.
Proof. unfold entry. destruct c; simpl; [now rewrite andb_true_r | now rewrite andb_false_r]. Qed.

Section Builder.

Context {P : Platform}.

(** Whenever the payload has the key of an optional field, the value under it
    is the setting itself, unaltered, except that a flag is only ever sent as
    [true] and the two nested objects are rebuilt from their truthy
    members. *)
Theorem optional_field_sent_verbatim (s thread_messages payload : value)
    (f : optional_field) :
  buildPayload s thread_messages = Some payload ->
  has_key payload (payload_key f) = true ->
  get payload (payload_key f) = sent f s.
Proof.
  unfold buildPayload. destruct (nullish s); [discriminate|].
  destruct (build_messages s thread_messages) as [msgs|]; [|discriminate].
  intros H; inversion H; subst; clear H.
  unfold has_key, get, copy_if_truthy, flag_if_truthy, copy_if_length.
  rewrite !add_if_entry, <- !app_assoc.
  rewrite !has_own_append, !own_append, !has_own_entry, !own_entry.
  destruct f; cbv beta iota delta [payload_key sent];
    decide_keys; cbv beta iota delta [has_own own andb orb];
    decide_keys; cbv beta iota delta [andb orb].
  all: try (destruct (negb (nullish _)) eqn:E; [reflexivity | discriminate]).
  all: try (destruct (ToBoolean _) eqn:E; [reflexivity | discriminate]).
  unfold entry, filter, snd.
  destruct (ToBoolean (web_search_option s (js "search_context_size")));
    destruct (ToBoolean (web_search_option s (js "search_type")));
    simpl; intros H; try reflexivity; discriminate.
Qed.

Lemma clone_message_from (m m' : value) : clone_message m = Some m' -> cloned_from m m'.
Proof.
  unfold clone_message, cloned_from. destruct (nullish m); [discriminate|].
  destruct (is_string (get m (js "role")) (js "system")) eqn:Er.
  - intros H; inversion H; subst. repeat split; congruence.
  - destruct (get m (js "content")) eqn:Ec;
      try (destruct (ToString _); [|discriminate]);
      intros H; inversion H; subst; repeat split; congruence.
Qed.

Lemma clone_messages_from (items cloned : list value) :
  clone_messages items = Some cloned -> Forall2 cloned_from items cloned.
Proof.
  revert cloned; induction items as [|m items IH]; intros cloned; simpl.
  - intros H; inversion H. constructor.
  - destruct (clone_message m) as [m'|] eqn:Em; [|discriminate].
    destruct (clone_messages items) as [rest|]; [|discriminate].
    intros H; inversion H; subst. constructor; [now apply clone_message_from | now apply IH].
Qed.

Lemma payload_messages (s thread_messages payload : value) (msgs : list value) :
  build_messages s thread_messages = Some msgs ->
  buildPayload s thread_messages = Some payload ->
  get payload (js "messages") = VArray msgs.
Proof.
  intros Hm. unfold buildPayload. destruct (nullish s); [discriminate|].
  rewrite Hm. intros H; inversion H; subst; clear H.
  unfold get, copy_if_truthy, flag_if_truthy, copy_if_length.
  rewrite !add_if_entry, <- !app_assoc. rewrite own_append.
  cbv beta iota delta [has_own own]. decide_keys. reflexivity.
Qed.

Lemma build_messages_array (s : value) (items : list value) (prompt : jsstring) :
  get s (js "system_prompt") = VString prompt ->
  build_messages s (VArray items) =
  option_map (app (system_message prompt)) (clone_messages items).
Proof.
  intros Hp. unfold build_messages.
  change (or_else (VArray items) (VArray [])) with (VArray items). cbv beta iota.
  rewrite Hp. destruct (clone_messages items) as [cloned|]; [|reflexivity].
  unfold system_message. simpl option_map.
  destruct prompt as [|c prompt]; [reflexivity|]. simpl andb.
  now destruct (nonempty (trim (c :: prompt))).
Qed.

(** The [messages] of the payload are the thread's messages, none dropped,
    none added, in their order, each with its role and with a content that is
    a string or an array, after one system message when the system prompt is
    a string that is not blank. *)
Theorem payload_messages_complete (s payload : value) (items : list value)
    (prompt : jsstring) :
  buildPayload s (VArray items) = Some payload ->
  get s (js "system_prompt") = VString prompt ->
  exists cloned,
    get payload (js "messages") = VArray (system_message prompt ++ cloned) /\
    Forall2 cloned_from items cloned.
Proof.
  intros H Hp.
  pose proof (build_messages_array s items Hp) as Hb.
  destruct (clone_messages items) as [cloned|] eqn:Ec.
  - exists cloned. split; [|now apply clone_messages_from].
    exact (payload_messages _ _ Hb H).
  - unfold buildPayload in H. destruct (nullish s); [discriminate|].
    rewrite Hb in H. discriminate.
Qed.

End Builder.

End PayloadMore.

(** ** Trimming *)

Module TrimFacts.

Import JsString.
Local Open Scope N_scope.

Lemma trimStart_snoc (s : jsstring) (c : code_unit) :
  is_space c = false -> trimStart (s ++ [c]) = trimStart s ++ [c].
Proof.
  intros Hc. induction s as [|d s IH]; simpl.
  - now rewrite Hc.
  - destruct (is_space d); [exact IH | reflexivity].
Qed.

Lemma trimStart_head (s : jsstring) :
  match trimStart s with
  | [] => True
  | c :: _ => is_space c = false
  end.
Proof.
  induction s as [|c s IH]; simpl; [exact I|].
  destruct (is_space c) eqn:E; [exact IH | exact E].
Qed.

Lemma trimStart_fixed (s : jsstring) :
  match s with [] => True | c :: _ => is_space c = false end -> trimStart s = s.
Proof. destruct s as [|c s]; simpl; [reflexivity|]. now intros ->. Qed.

Lemma trimStart_idempotent (s : jsstring) : trimStart (trimStart s) = trimStart s.
Proof. apply trimStart_fixed, trimStart_head. Qed.

Lemma trimEnd_head (s : jsstring) :
  match s with [] => True | c :: _ => is_space c = false end ->
  match trimEnd s with [] => True | c :: _ => is_space c = false end.
Proof.
  unfold trimEnd. destruct s as [|c s]; simpl; [intros _; exact I|].
  intros Hc. rewrite trimStart_snoc by exact Hc. rewrite rev_app_distr. simpl. exact Hc.
Qed.

Lemma trim_idempotent (s : jsstring) : trim (trim s) = trim s.
Proof.
  unfold trim at 1.
  rewrite (trimStart_fixed (trim s)) by apply trimEnd_head, trimStart_head.
  unfold trim, trimEnd. now rewrite rev_involutive, trimStart_idempotent.
Qed.

Lemma trim_no_outer_space (s : jsstring) :
  match trim s with [] => True | c :: _ => is_space c = false end /\
  match rev (trim s) with [] => True | c :: _ => is_space c = false end.
Proof.
  split.
  - apply trimEnd_head, trimStart_head.
  - unfold trim, trimEnd. rewrite rev_involutive. apply trimStart_head.
Qed.

End TrimFacts.

(** ** More on the proxy *)

Module ServerMore.

Import JsString Js Server ServerShape ServerFacts TrimFacts.
Local Open Scope N_scope.

Lemma getApiKey_trimmed (req : request) : trim (getApiKey req) = getApiKey req.
Proof.
  unfold getApiKey. cbv zeta.
  match goal with
  | |- trim (match ?key with Some _ => _ | None => _ end) = _ => destruct key as [k|]
  end; [|reflexivity].
  destruct (nonempty k); [apply trim_idempotent | reflexivity].
Qed.

Lemma getApiKey_source (req : request) :
  getApiKey req <> [] ->
  exists name v, In name [js "x-pplx-key"; js "x-perplexity-key"] /\
                 header req name = Some v /\ getApiKey req = trim v.
Proof.
  unfold getApiKey. cbv zeta.
  match goal with
  | |- (match ?key with Some _ => _ | None => _ end) <> _ -> _ =>
      assert (Hkey : forall v, key = Some v ->
                exists name, In name [js "x-pplx-key"; js "x-perplexity-key"] /\
                             header req name = Some v);
      [| destruct key as [v|]; [|congruence] ]
  end.
  - intros v.
    destruct (header req (js "x-pplx-key")) as [k|] eqn:E1; [destruct (nonempty k)|].
    + intros H; inversion H; subst. exists (js "x-pplx-key"). split; [left; reflexivity | exact E1].
    + intros H. exists (js "x-perplexity-key"). split; [right; left; reflexivity | exact H].
    + intros H. exists (js "x-perplexity-key"). split; [right; left; reflexivity | exact H].
  - destruct (Hkey v eq_refl) as (name & Hn & Hh).
    destruct (nonempty v); [|congruence].
    intros _. exists name, v. split; [exact Hn | split; [exact Hh | reflexivity]].
Qed.

(** The headers [safeCopyHeaders] hands on are exactly the upstream headers
    that are on the allow list and hold a value: a header outside the list,
    a cookie say, never reaches the browser. *)
Theorem only_allowed_headers_are_relayed (from : list (jsstring * jsstring))
    (h v : jsstring) :
  In (h, v) (safeCopyHeaders from) <->
  In h allow /\ lookup from h = Some v /\ v <> [].
Proof.
  unfold safeCopyHeaders. rewrite in_flat_map. split.
  - intros (h' & Hin & Hv).
    destruct (lookup from h') as [v'|] eqn:El; [|destruct Hv].
    destruct v' as [|c v']; simpl in Hv; [destruct Hv|].
    destruct Hv as [Hv|[]]. inversion Hv; subst. repeat split; auto. discriminate.
  - intros (Hin & El & Hv). exists h. split; [exact Hin|].
    rewrite El. destruct v; [congruence|]. simpl. auto.
Qed.

Section Routes.

Context {P : Platform}.
Variable fetch : upstream_request -> option upstream_response.

Lemma calls_of_proxy (req : request) (target verb : jsstring) (payload : value)
    (call : upstream_request) :
  In call (fst (proxyPerplexity fetch req target verb payload)) ->
  fst (proxyPerplexity fetch req target verb payload) = [call] /\
  authorization call = js "Bearer " ++ getApiKey req /\ getApiKey req <> [] /\
  url call = target /\ method call = verb.
Proof.
  unfold proxyPerplexity.
  destruct (getApiKey req) as [|c k] eqn:Ek; simpl negb; cbv iota; [intros []|].
  set (the_call := Build_upstream_request _ _ _ _).
  assert (H : forall r, In call (fst ([the_call], r : reply)) ->
              fst ([the_call], r) = [call] /\
              authorization call = js "Bearer " ++ c :: k /\ c :: k <> [] /\
              url call = target /\ method call = verb).
  { intros r [<-|[]]. repeat split. discriminate. }
  destruct (fetch the_call) as [up|]; [destruct (upstream_body up)|]; apply H.
Qed.

Lemma calls_of_async_get (req : request) (call : upstream_request) :
  In call (fst (async_get fetch req)) ->
  fst (async_get fetch req) = [call] /\
  authorization call = js "Bearer " ++ getApiKey req /\ getApiKey req <> [] /\
  method call = js "GET" /\
  exists id encoded, params_id req = Some id /\ encodeURIComponent (trim id) = Some encoded /\
                     trim id <> [] /\
                     url call = async_completions ++ js "/" ++ encoded.
Proof.
  unfold async_get.
  destruct (getApiKey req) as [|c k] eqn:Ek; simpl negb; cbv iota; [intros []|].
  destruct (params_id req) as [id|]; [|intros []].
  destruct (trim id) as [|i0 t] eqn:Et; simpl negb; cbv iota; [intros []|].
  destruct (encodeURIComponent (i0 :: t)) as [encoded|] eqn:Ee; [|intros []].
  set (the_call := Build_upstream_request _ _ _ _).
  assert (H : forall r, In call (fst ([the_call], r : reply)) ->
              fst ([the_call], r) = [call] /\
              authorization call = js "Bearer " ++ c :: k /\ c :: k <> [] /\
              method call = js "GET" /\
              exists id' encoded', Some id = Some id' /\
                encodeURIComponent (trim id') = Some encoded' /\ trim id' <> [] /\
                url call = async_completions ++ js "/" ++ encoded').
  { intros r [<-|[]]. repeat split; try discriminate.
    exists id, encoded. rewrite Et. repeat split; auto. discriminate. }
  destruct (fetch the_call) as [up|]; [destruct (upstream_body up)|]; apply H.
Qed.

(** On every route, a request makes at most one upstream call, and that call
    carries as its bearer token the trimmed value of one of the two
    credential headers of the request, never an empty one. *)
Theorem upstream_call_carries_the_callers_key (r : route) (req : request)
    (call : upstream_request) :
  In call (fst (handle fetch r req)) ->
  fst (handle fetch r req) = [call] /\
  exists name v,
    In name [js "x-pplx-key"; js "x-perplexity-key"] /\ header req name = Some v /\
    trim v <> [] /\ authorization call = js "Bearer " ++ trim v.
Proof.
  intros Hin.
  assert (H : fst (handle fetch r req) = [call] /\
              authorization call = js "Bearer " ++ getApiKey req /\ getApiKey req <> []).
  { destruct r; simpl in *.
    - apply calls_of_proxy in Hin. tauto.
    - apply calls_of_proxy in Hin. tauto.
    - apply calls_of_async_get in Hin. tauto. }
  destruct H as (H1 & H2 & H3). split; [exact H1|].
  destruct (getApiKey_source req H3) as (name & v & Hn & Hh & Hk).
  exists name, v. rewrite <- Hk. auto.
Qed.

Lemma hex_no_separator (d : N) : separator (hex d) = false.
Proof.
  unfold separator, hex. destruct (d <? 10) eqn:E.
  - apply N.ltb_lt in E.
    repeat (apply orb_false_intro); apply N.eqb_neq; lia.
  - apply N.ltb_ge in E.
    repeat (apply orb_false_intro); apply N.eqb_neq; lia.
Qed.

Lemma percent_no_separator (bytes : list N) :
  Forall (fun c => separator c = false) (percent bytes).
Proof.
  unfold percent. induction bytes as [|b bytes IH]; simpl; [constructor|].
  repeat constructor; auto using hex_no_separator.
Qed.

Lemma unreserved_no_separator (c : code_unit) : unreserved c = true -> separator c = false.
Proof.
  unfold unreserved, separator. intros H.
  destruct (c =? 47) eqn:E1; [apply N.eqb_eq in E1; subst; discriminate|].
  destruct (c =? 63) eqn:E2; [apply N.eqb_eq in E2; subst; discriminate|].
  destruct (c =? 35) eqn:E3; [apply N.eqb_eq in E3; subst; discriminate|].
  reflexivity.
Qed.

Lemma encoded_no_separator (s encoded : jsstring) :
  encodeURIComponent s = Some encoded -> Forall (fun c => separator c = false) encoded.
Proof.
  remember (List.length s) as n eqn:Hn.
  revert s encoded Hn. induction n as [n IH] using lt_wf_ind. intros s encoded Hn.
  destruct s as [|c t]; simpl.
  - intros H; inversion H. constructor.
  - destruct (unreserved c) eqn:Eu.
    + destruct (encodeURIComponent t) as [e|] eqn:Ee; [|discriminate].
      intros H; inversion H; subst. constructor.
      * now apply unreserved_no_separator.
      * apply (IH (List.length t)) with (s := t); simpl; auto.
    + destruct ((55296 <=? c) && (c <=? 56319)).
      * destruct t as [|d t']; [discriminate|].
        destruct ((56320 <=? d) && (d <=? 57343)); [|discriminate].
        destruct (encodeURIComponent t') as [e|] eqn:Ee; [|discriminate].
        intros H; inversion H; subst. apply Forall_app. split.
        -- apply percent_no_separator.
        -- apply (IH (List.length t')) with (s := t'); simpl; auto.
      * destruct ((56320 <=? c) && (c <=? 57343)); [discriminate|].
        destruct (encodeURIComponent t) as [e|] eqn:Ee; [|discriminate].
        intros H; inversion H; subst. apply Forall_app. split.
        -- apply percent_no_separator.
        -- apply (IH (List.length t)) with (s := t); simpl; auto.
Qed.

(** The URL the poll route calls is the fixed endpoint followed by one path
    segment made from the id: whatever the id holds, the segment has no [/],
    [?] or [#], so the id cannot add a path level, a query or a fragment. *)
Theorem polled_url_is_one_segment (req : request) (call : upstream_request) :
  In call (fst (handle fetch AsyncGet req)) ->
  exists segment,
    url call = async_completions ++ js "/" ++ segment /\
    Forall (fun c => separator c = false) segment /\ method call = js "GET".
Proof.
  simpl. intros Hin.
  destruct (calls_of_async_get req call Hin)
    as (_ & _ & _ & Hm & id & encoded & _ & He & _ & Hu).
  exists encoded. split; [exact Hu|]. split; [|exact Hm].
  now apply encoded_no_separator in He.
Qed.

End Routes.

End ServerMore.

(** ** The lists of the settings dialog *)

Module ListsMore.

Import JsString Lists TrimFacts.
Local Open Scope N_scope.

Lemma trim_tight (s : jsstring) : tight (trim s).
Proof. apply trim_no_outer_space. Qed.

Lemma tight_trim (e : jsstring) : tight e -> trim e = e.
Proof.
  intros [Hh Hl]. unfold trim. rewrite (trimStart_fixed e Hh).
  unfold trimEnd. rewrite (trimStart_fixed (rev e) Hl). apply rev_involutive.
Qed.

Lemma trimStart_spaces (spaces e : jsstring) :
  Forall (fun c => is_space c = true) spaces -> trimStart (spaces ++ e) = trimStart e.
Proof.
  induction 1 as [|c spaces Hc _ IH]; simpl; [reflexivity|]. now rewrite Hc.
Qed.

Lemma trim_spaces (spaces e : jsstring) :
  Forall (fun c => is_space c = true) spaces -> tight e -> trim (spaces ++ e) = e.
Proof.
  intros Hs He. unfold trim. rewrite (trimStart_spaces e Hs).
  apply (tight_trim He).
Qed.

Lemma trimStart_suffix (s : jsstring) : exists p, s = p ++ trimStart s.
Proof.
  induction s as [|c s [p IH]]; simpl; [now exists []|].
  destruct (is_space c); [|now exists []].
  exists (c :: p). simpl. now f_equal.
Qed.

Lemma trim_keeps (A : code_unit -> Prop) (s : jsstring) : Forall A s -> Forall A (trim s).
Proof.
  intros H. unfold trim, trimEnd.
  assert (Hs : forall t, Forall A t -> Forall A (trimStart t)).
  { intros t Ht. destruct (trimStart_suffix t) as [p Hp]. rewrite Hp in Ht.
    apply Forall_app in Ht. tauto. }
  apply Forall_rev, Hs, Forall_rev, Hs, H.
Qed.

Lemma push_pieces (A : code_unit -> Prop) (c : code_unit) (pieces : list jsstring) :
  A c -> Forall (Forall A) pieces -> Forall (Forall A) (push c pieces).
Proof.
  intros Hc Hp. destruct Hp as [|p ps Hp Hps]; simpl; repeat constructor; auto.
Qed.

Lemma split_runs_pieces (in_run : bool) (s : jsstring) :
  Forall (Forall (fun c => is_separator c = false)) (split_runs in_run s).
Proof.
  revert in_run. induction s as [|c s IH]; intros in_run; simpl.
  - repeat constructor.
  - destruct (is_separator c) eqn:Ec.
    + destruct in_run; [apply IH | constructor; [constructor | apply IH]].
    + apply push_pieces; [exact Ec | apply IH].
Qed.

Lemma parseList_clean (text : jsstring) : Forall clean (parseList text).
Proof.
  unfold parseList. apply Forall_forall. intros e He.
  apply filter_In in He. destruct He as [He Hn].
  apply in_map_iff in He. destruct He as (p & <- & Hp).
  split; [destruct (trim p); [discriminate | discriminate]|].
  split; [apply trim_tight|].
  apply trim_keeps.
  pose proof (split_runs_pieces false text) as H.
  rewrite Forall_forall in H. now apply H.
Qed.

(** Every entry [parseList] returns holds at least one character, has no
    white space at either end, and holds no comma and no line feed. *)
Theorem parsed_entries_are_clean (text : jsstring) :
  Forall (fun e => e <> [] /\ trim e = e /\ Forall (fun c => is_separator c = false) e)
    (parseList text).
Proof.
  eapply Forall_impl; [|apply parseList_clean].
  intros e (Hn & Ht & Hs). repeat split; auto using tight_trim.
Qed.

Lemma split_runs_nonempty (in_run : bool) (s : jsstring) : split_runs in_run s <> [].
Proof.
  revert in_run. induction s as [|c s IH]; intros in_run; simpl; [discriminate|].
  destruct (is_separator c).
  - destruct in_run; [apply IH | discriminate].
  - specialize (IH false). destruct (split_runs false s); [congruence | discriminate].
Qed.

Lemma split_runs_true (s : jsstring) :
  match s with [] => True | c :: _ => is_separator c = false end ->
  split_runs true s = split_runs false s.
Proof. destruct s as [|c s]; simpl; [reflexivity|]. now intros ->. Qed.

Lemma split_runs_piece (e s : jsstring) :
  Forall (fun c => is_separator c = false) e ->
  split_runs false (e ++ s) =
  match split_runs false s with
  | p :: ps => (e ++ p) :: ps
  | [] => [e]
  end.
Proof.
  induction 1 as [|c e Hc _ IH]; simpl.
  - destruct (split_runs false s) eqn:E; [|reflexivity].
    now apply split_runs_nonempty in E.
  - rewrite Hc, IH. now destruct (split_runs false s).
Qed.

Section Glue.

(** A separator followed by blanks, as [openSettings] joins a list. *)
Variables (sep : code_unit) (spaces : jsstring).
Hypothesis sep_ok : is_separator sep = true.
Hypothesis spaces_ok :
  Forall (fun c => is_space c = true /\ is_separator c = false) spaces.

Lemma split_join (e : jsstring) (rest : list jsstring) :
  Forall clean (e :: rest) ->
  split_runs false (join (sep :: spaces) (e :: rest)) = e :: map (app spaces) rest.
Proof.
  revert e. induction rest as [|e2 rest IH]; intros e He.
  - inversion He as [|? ? (_ & _ & Hs) _]; subst. simpl.
    rewrite <- (app_nil_r e) at 1. rewrite (split_runs_piece [] Hs). simpl.
    now rewrite app_nil_r.
  - inversion He as [|? ? (_ & _ & Hs) Hrest]; subst.
    change (join (sep :: spaces) (e :: e2 :: rest))
      with (e ++ (sep :: spaces) ++ join (sep :: spaces) (e2 :: rest)).
    rewrite (split_runs_piece _ Hs).
    change ((sep :: spaces) ++ join (sep :: spaces) (e2 :: rest))
      with (sep :: (spaces ++ join (sep :: spaces) (e2 :: rest))).
    cbn [split_runs]. rewrite sep_ok.
    assert (Hsp : Forall (fun c => is_separator c = false) spaces).
    { eapply Forall_impl; [|exact spaces_ok]. simpl. tauto. }
    rewrite split_runs_true.
    + rewrite (split_runs_piece _ Hsp), (IH e2 Hrest). simpl. now rewrite app_nil_r.
    + destruct spaces as [|c sp].
      * simpl app. inversion Hrest as [|? ? (Hn & _ & Hs2) _]; subst.
        destruct e2 as [|c2 e2]; [congruence|].
        inversion Hs2; subst.
        destruct rest; simpl; assumption.
      * simpl. now inversion Hsp.
Qed.

Lemma parseList_join (items : list jsstring) :
  Forall clean items -> parseList (join (sep :: spaces) items) = items.
Proof.
  destruct items as [|e rest]; [reflexivity|].
  intros H. unfold parseList. rewrite (split_join H). simpl map.
  assert (Hsp : Forall (fun c => is_space c = true) spaces).
  { eapply Forall_impl; [|exact spaces_ok]. simpl. tauto. }
  assert (Hall : forall l, Forall clean l ->
            filter nonempty (map trim (map (app spaces) l)) = l).
  { induction 1 as [|x l (Hn & Ht & _) _ IHl]; simpl; [reflexivity|].
    rewrite (trim_spaces Hsp Ht), IHl. destruct x; [congruence | reflexivity]. }
  inversion H as [|? ? (Hn & Ht & _) Hrest]; subst.
  simpl filter. rewrite (tight_trim Ht), (Hall rest Hrest).
  destruct e; [congruence | reflexivity].
Qed.

End Glue.

(** Showing a parsed list in its field and reading the field back gives the
    list again, for the fields [openSettings] fills one entry a line and for
    the one it fills with a comma and a blank between entries: opening and
    saving the dialog untouched changes no list. *)
Theorem shown_list_reads_back (text : jsstring) :
  parseList (join [10] (parseList text)) = parseList text /\
  parseList (join [44; 32] (parseList text)) = parseList text.
Proof.
  split.
  - apply (@parseList_join 10 []); [reflexivity | constructor | apply parseList_clean].
  - apply (@parseList_join 44 [32]); [reflexivity | | apply parseList_clean].
    repeat constructor.
Qed.

End ListsMore.

(** ** Escaping *)

Module HtmlMore.

Import JsString Html.
Local Open Scope N_scope.

Lemma replaceAll_app (c : code_unit) (by_ a b : jsstring) :
  replaceAll c by_ (a ++ b) = replaceAll c by_ a ++ replaceAll c by_ b.
Proof. apply flat_map_app. Qed.

Lemma replaceAll_one (c d : code_unit) (by_ : jsstring) :
  replaceAll c by_ [d] = if d =? c then by_ else [d].
Proof. unfold replaceAll. simpl. now rewrite app_nil_r. Qed.

Lemma escapeHtml_app (a b : jsstring) : escapeHtml (a ++ b) = escapeHtml a ++ escapeHtml b.
Proof. unfold escapeHtml. now rewrite !replaceAll_app. Qed.

Lemma escapeHtmlAttr_app (a b : jsstring) :
  escapeHtmlAttr (a ++ b) = escapeHtmlAttr a ++ escapeHtmlAttr b.
Proof. unfold escapeHtmlAttr. now rewrite !replaceAll_app. Qed.

Lemma escapeHtml_one (d : code_unit) : escapeHtml [d] = entity d.
Proof.
  unfold escapeHtml, entity.
  rewrite replaceAll_one. destruct (d =? 38); [reflexivity|].
  rewrite replaceAll_one. destruct (d =? 60); [reflexivity|].
  rewrite replaceAll_one. destruct (d =? 62); [reflexivity|].
  rewrite replaceAll_one. destruct (d =? 34); [reflexivity|].
  rewrite replaceAll_one. reflexivity.
Qed.

Lemma escapeHtmlAttr_one (d : code_unit) : escapeHtmlAttr [d] = entity d.
Proof.
  unfold escapeHtmlAttr, entity.
  rewrite replaceAll_one. destruct (d =? 38); [reflexivity|].
  rewrite replaceAll_one. destruct (d =? 34) eqn:E34.
  - apply N.eqb_eq in E34. subst d. reflexivity.
  - rewrite replaceAll_one. destruct (d =? 39) eqn:E39.
    + apply N.eqb_eq in E39. subst d. reflexivity.
    + rewrite replaceAll_one. destruct (d =? 60); [reflexivity|].
      rewrite replaceAll_one. reflexivity.
Qed.

Lemma escapeHtml_entities (s : jsstring) : escapeHtml s = flat_map entity s.
Proof.
  induction s as [|c s IH]; [reflexivity|].
  change (c :: s) with ([c] ++ s). rewrite escapeHtml_app, escapeHtml_one, IH. reflexivity.
Qed.

Lemma escapeHtmlAttr_entities (s : jsstring) : escapeHtmlAttr s = flat_map entity s.
Proof.
  induction s as [|c s IH]; [reflexivity|].
  change (c :: s) with ([c] ++ s).
  rewrite escapeHtmlAttr_app, escapeHtmlAttr_one, IH. reflexivity.
Qed.

Lemma entity_no_markup (c : code_unit) : Forall (fun d => markup d = false) (entity c).
Proof.
  unfold entity.
  destruct (c =? 38); [repeat constructor|].
  destruct (c =? 60) eqn:E1; [repeat constructor|].
  destruct (c =? 62) eqn:E2; [repeat constructor|].
  destruct (c =? 34) eqn:E3; [repeat constructor|].
  destruct (c =? 39) eqn:E4; [repeat constructor|].
  constructor; [|constructor]. unfold markup. now rewrite E1, E2, E3, E4.
Qed.

(** Both escaping functions replace each character of the text once, by its
    entity: the [&] an entity starts with is not escaped again by a later
    step, and the two functions, which differ in the order of their steps,
    return the same text. *)
Theorem escaping_is_one_pass (s : jsstring) :
  escapeHtml s = flat_map entity s /\ escapeHtmlAttr s = escapeHtml s.
Proof.
  split; [apply escapeHtml_entities|].
  now rewrite escapeHtmlAttr_entities, escapeHtml_entities.
Qed.

(** Escaped text holds no [<], no [>] and no quote of either kind, so it can
    neither open a tag nor end the attribute value it is written into. *)
Theorem escaped_text_has_no_markup (s : jsstring) :
  Forall (fun c => markup c = false) (escapeHtml s) /\
  Forall (fun c => markup c = false) (escapeHtmlAttr s).
Proof.
  rewrite escapeHtmlAttr_entities, escapeHtml_entities.
  assert (H : Forall (fun c => markup c = false) (flat_map entity s)).
  { induction s as [|c s IH]; simpl; [constructor|].
    apply Forall_app. split; [apply entity_no_markup | exact IH]. }
  now split.
Qed.

End HtmlMore.

(** ** Stored threads and the thread list *)

Module ThreadsMore.

Import JsString Js Lists Threads JsStringFacts.
Local Open Scope N_scope.

Lemma own_assign (props : list (jsstring * value)) (k : jsstring) (v : value) :
  own (assign props k v) k = v.
Proof.
  induction props as [|[k0 v0] props IH]; simpl.
  - now rewrite eqb_refl.
  - destruct (eqb k0 k) eqn:E; simpl; rewrite E; [reflexivity | exact IH].
Qed.

Lemma own_assign_other (props : list (jsstring * value)) (k k' : jsstring) (v : value) :
  k' <> k -> own (assign props k v) k' = own props k'.
Proof.
  intros Hk. induction props as [|[k0 v0] props IH]; simpl.
  - destruct (JsStringFacts.eqb_spec k k'); [congruence | reflexivity].
  - destruct (JsStringFacts.eqb_spec k0 k) as [->|Hne]; simpl.
    + destruct (JsStringFacts.eqb_spec k k'); [congruence | reflexivity].
    + now rewrite IH.
Qed.

Lemma assign_twice (props : list (jsstring * value)) (k : jsstring) (v : value) :
  assign (assign props k v) k v = assign props k v.
Proof.
  induction props as [|[k0 v0] props IH]; simpl.
  - now rewrite eqb_refl.
  - destruct (eqb k0 k) eqn:E; simpl; rewrite E; [reflexivity | now rewrite IH].
Qed.

Section Saving.

Context {P : Platform}.

Lemma safe_message_shape (m m' : value) :
  safe_message m = Some m' ->
  exists text, m' = VObject (assign (spread m) (js "content") (VString text)).
Proof.
  unfold safe_message. destruct (nullish m); [discriminate|].
  destruct (get m (js "content")) as [| | b | n | s | parts | props];
    match goal with
    | |- option_map _ ?o = _ -> _ => destruct o as [text|]; [|discriminate]
    end;
    intros H; inversion H; now exists text.
Qed.

Lemma safe_messages_shape (msgs safe : list value) :
  safe_messages msgs = Some safe ->
  Forall2 (fun m m' => exists text,
             m' = VObject (assign (spread m) (js "content") (VString text))) msgs safe.
Proof.
  revert safe. induction msgs as [|m msgs IH]; intros safe; simpl.
  - intros H; inversion H. constructor.
  - destruct (safe_message m) as [m'|] eqn:Em; [|discriminate].
    destruct (safe_messages msgs) as [rest|]; [|discriminate].
    intros H; inversion H; subst. constructor; [now apply safe_message_shape | now apply IH].
Qed.

(** What [saveThreads] stores for a thread has a message for each message of
    the thread, in their order, each with a text as its content, never the
    array of parts that holds the attached data, and with every other
    property of the message as it was. *)
Theorem stored_messages_hold_text_only (t t' : value) (msgs : list value) :
  safe_thread t = Some t' ->
  get t (js "messages") = VArray msgs ->
  exists safe,
    get t' (js "messages") = VArray safe /\
    Forall2 (fun m m' =>
               (exists text, get m' (js "content") = VString text) /\
               forall props k, m = VObject props -> k <> js "content" ->
                               get m' k = get m k) msgs safe.
Proof.
  unfold safe_thread. destruct (nullish t); [discriminate|].
  intros H Hm. rewrite Hm in H.
  change (or_else (VArray msgs) (VArray [])) with (VArray msgs) in H. cbv beta iota in H.
  destruct (safe_messages msgs) as [safe|] eqn:Es; [|discriminate].
  inversion H; subst; clear H. exists safe. split.
  - unfold get. apply own_assign.
  - apply safe_messages_shape in Es. clear Hm.
    induction Es as [|m m' msgs' safe' [text ->] _ IH]; [constructor|].
    constructor; [|exact IH].
    split.
    + exists text. unfold get. apply own_assign.
    + intros props k -> Hk. unfold get, spread. now apply own_assign_other.
Qed.

(** Saving what was saved changes nothing: a message that went through the
    mapper of [saveThreads] comes out of it as it went in. *)
Theorem saving_again_changes_nothing (m m' : value) :
  safe_message m = Some m' -> safe_message m' = Some m'.
Proof.
  intros H. destruct (safe_message_shape _ H) as [text ->].
  unfold safe_message. simpl nullish. cbv iota.
  unfold get at 1. rewrite own_assign.
  assert (Ht : ToString (or_else (VString text) (VString [])) = Some text).
  { destruct text; reflexivity. }
  rewrite Ht. simpl option_map. unfold spread. now rewrite assign_twice.
Qed.






End Saving.

Lemma find_splice (pick : thread -> bool) (id : jsstring) (ts : list thread) (idx : nat) :
  findIndex id ts = Some idx ->
  (forall t, pick t = true -> eqb (thread_id t) id = false) ->
  find pick (splice1 idx ts) = find pick ts.
Proof.
  intros Hidx Hpick. revert idx Hidx. induction ts as [|t ts IH]; intros idx; simpl.
  - discriminate.
  - destruct (eqb (thread_id t) id) eqn:E.
    + intros H; inversion H; subst. unfold splice1. simpl.
      destruct (pick t) eqn:Ep; [|reflexivity].
      apply Hpick in Ep. congruence.
    + destruct (findIndex id ts) as [i|]; [|discriminate].
      intros H; inversion H; subst. unfold splice1. simpl.
      destruct (pick t); [reflexivity|]. now apply IH.
Qed.

Lemma find_first (pick : thread -> bool) (t : thread) (rest : list thread) :
  pick t = true -> find pick (t :: rest) = Some t.
Proof. simpl. now intros ->. Qed.

Lemma deleteThread_active (uid now id : jsstring) (st : store) :
  activeThread st <> None ->
  activeThread (deleteThread uid now id st) <> None /\
  threads (deleteThread uid now id st) <> [] /\
  (activeThreadId st <> Some id ->
   activeThread (deleteThread uid now id st) = activeThread st).
Proof.
  intros Hact. unfold deleteThread.
  destruct (findIndex id (threads st)) as [idx|] eqn:Ei.
  2: { repeat split; auto. unfold activeThread in Hact.
       destruct (threads st); [now simpl in Hact | discriminate]. }
  assert (Hother : activeThreadId st <> Some id ->
            find (is_active st) (splice1 idx (threads st)) = activeThread st).
  { intros Hne. apply (@find_splice (is_active st) id (threads st) idx Ei). intros t. unfold is_active.
    destruct (activeThreadId st) as [a|]; [|discriminate].
    destruct (JsStringFacts.eqb_spec (thread_id t) a) as [->|]; [|discriminate].
    intros _. destruct (JsStringFacts.eqb_spec a id); congruence. }
  destruct (splice1 idx (threads st)) as [|first rest] eqn:Es.
  - split; [|split; [discriminate|]].
    + unfold activeThread, is_active. simpl. now rewrite eqb_refl.
    + intros Hne. specialize (Hother Hne). simpl in Hother. congruence.
  - destruct (activeThreadId st) as [a|] eqn:Ea.
    + destruct (JsStringFacts.eqb_spec a id) as [->|Hne].
      * split; [|split; [discriminate | congruence]].
        unfold activeThread, is_active. simpl. now rewrite eqb_refl.
      * assert (H : activeThread
                      {| threads := first :: rest; activeThreadId := Some a |} =
                    activeThread st).
        { rewrite <- Hother by congruence.
          unfold activeThread, is_active. simpl. now rewrite Ea. }
        split; [congruence | split; [discriminate | intros _; exact H]].
    + exfalso. apply Hact. unfold activeThread, is_active. rewrite Ea.
      clear. induction (threads st); simpl; auto.
Qed.

(** After [deleteThread] the list still has a thread and one of them is the
    active one, and deleting a thread other than the active one leaves the
    active one as it was. *)
Theorem delete_keeps_an_active_thread (uid now id : jsstring) (st : store) :
  activeThread st <> None ->
  activeThread (deleteThread uid now id st) <> None /\
  threads (deleteThread uid now id st) <> [] /\
  (activeThreadId st <> Some id ->
   activeThread (deleteThread uid now id st) = activeThread st).
Proof. apply deleteThread_active. Qed.

Lemma act_active (a : action) (st : store) :
  activeThread st <> None -> activeThread (act st a) <> None.
Proof.
  intros Hact. destruct a as [uid now|place|uid now id]; simpl.
  - unfold newChat, activeThread, is_active. simpl. now rewrite eqb_refl.
  - destruct (nth_error (threads st) place) as [t|] eqn:En; [|exact Hact].
    apply nth_error_In in En. unfold activeThread, setActiveThread, is_active. simpl.
    intros Hnone. apply (find_none _ _ Hnone) in En. simpl in En.
    now rewrite eqb_refl in En.
  - now apply deleteThread_active.
Qed.

(** From the moment the threads are loaded, however the user adds, selects
    and deletes chats, there is an active thread: the guard
    [if (!thread) return] of [sendPrompt] is never the reason a prompt is not
    sent. *)
Theorem there_is_always_an_active_thread (uid now : jsstring) (found : list thread)
    (actions : list action) :
  activeThread (fold_left act actions (loadThreads uid now found)) <> None.
Proof.
  assert (Hstart : activeThread (loadThreads uid now found) <> None).
  { unfold loadThreads, activeThread, is_active.
    destruct found as [|first rest]; simpl; now rewrite eqb_refl. }
  revert Hstart. generalize (loadThreads uid now found).
  induction actions as [|a actions IH]; intros st Hact; [exact Hact|].
  simpl. apply IH. now apply act_active.
Qed.

Lemma replace_runs_in_name (in_run : bool) (s : jsstring) :
  Forall (fun c => in_name c = true) (replace_runs in_run s).
Proof.
  revert in_run. induction s as [|c s IH]; intros in_run; simpl; [constructor|].
  destruct (in_name c) eqn:E; [constructor; auto|].
  destruct in_run; [apply IH | constructor; [reflexivity | apply IH]].
Qed.

Lemma replace_runs_nonempty (s : jsstring) : s <> [] -> replace_runs false s <> [].
Proof.
  destruct s as [|c s]; [congruence|]. intros _. simpl.
  destruct (in_name c); discriminate.
Qed.

(** The name of the exported file is a stem of one to 48 letters, digits,
    hyphens and underscores followed by [.md], whatever the title of the
    thread: no character of the title that could name a directory or another
    extension gets into it. *)
Theorem download_name_is_safe (t : thread) :
  exists stem,
    download_name t = stem ++ js ".md" /\
    Forall (fun c => in_name c = true) stem /\
    (1 <= List.length stem <= 48)%nat.
Proof.
  unfold download_name.
  set (source := if nonempty (title t) then title t else js "chat").
  exists (firstn 48 (replace_runs false source)). split; [reflexivity|]. split.
  - pose proof (replace_runs_in_name false source) as H.
    rewrite <- (firstn_skipn 48 (replace_runs false source)) in H.
    apply Forall_app in H. tauto.
  - assert (Hs : source <> []).
    { unfold source. destruct (title t); discriminate. }
    apply replace_runs_nonempty in Hs. rewrite length_firstn.
    destruct (replace_runs false source); [congruence|]. cbn [List.length]. lia.
Qed.

End ThreadsMore.

(** ** The settings dialog *)

Module SettingsMore.

Import JsString Js Payload PayloadShape PayloadFacts PayloadMore Lists Settings.
Local Open Scope float_scope.

Lemma ltb_leb (a b : float) : (a <? b) = true -> (a <=? b) = true.
Proof.
  rewrite ltb_spec, leb_spec. unfold SFltb, SFleb.
  destruct (SFcompare (Prim2SF a) (Prim2SF b)) as [[| |]|]; congruence.
Qed.

Lemma not_nan_spec (a : float) : PrimFloat.is_nan a = false -> Prim2SF a <> S754_nan.
Proof.
  unfold PrimFloat.is_nan. rewrite FloatAxioms.eqb_spec. unfold SFeqb.
  intros H E. rewrite E in H. discriminate.
Qed.

Lemma leb_refl (a : float) : PrimFloat.is_nan a = false -> (a <=? a) = true.
Proof.
  unfold PrimFloat.is_nan. rewrite FloatAxioms.eqb_spec, leb_spec. unfold SFeqb, SFleb.
  destruct (SFcompare (Prim2SF a) (Prim2SF a)) as [[| |]|]; simpl; congruence.
Qed.

Lemma SFcompare_antisym (x y : spec_float) :
  SFcompare y x = option_map CompOpp (SFcompare x y).
Proof.
  destruct x as [s| s | | s m e], y as [s'| s' | | s' m' e']; simpl; try reflexivity;
    try (destruct s; reflexivity); try (destruct s'; reflexivity);
    try (destruct s, s'; reflexivity).
  destruct s, s'; try reflexivity; rewrite (Z.compare_antisym e e');
    destruct (e ?= e')%Z; simpl; try reflexivity;
    rewrite (Pos.compare_cont_antisym m m' Eq); reflexivity.
Qed.

Lemma neither_less (a b : float) :
  PrimFloat.is_nan a = false -> PrimFloat.is_nan b = false ->
  (a <? b) = false -> (b <? a) = false -> (a <=? b) = true.
Proof.
  intros Ha Hb. apply not_nan_spec in Ha. apply not_nan_spec in Hb.
  rewrite !ltb_spec, leb_spec. unfold SFltb, SFleb.
  rewrite (SFcompare_antisym (Prim2SF a) (Prim2SF b)).
  destruct (SFcompare (Prim2SF a) (Prim2SF b)) as [[| |]|] eqn:E; simpl; try congruence.
  exfalso. destruct (Prim2SF a), (Prim2SF b); simpl in E; congruence.
Qed.

Lemma Math_max_above (lo n : float) :
  PrimFloat.is_nan lo = false -> PrimFloat.is_nan n = false ->
  (lo <=? Math_max lo n) = true /\ PrimFloat.is_nan (Math_max lo n) = false.
Proof.
  intros Hlo Hn. unfold Math_max. rewrite Hlo, Hn. cbn [orb].
  destruct (lo <? n) eqn:E1; [split; [now apply ltb_leb | exact Hn]|].
  destruct (n <? lo) eqn:E2; [split; [now apply leb_refl | exact Hlo]|].
  destruct (PrimFloat.is_zero lo && PrimFloat.get_sign lo).
  - split; [now apply neither_less | exact Hn].
  - split; [now apply leb_refl | exact Hlo].
Qed.

Lemma clamp_range (n lo hi : float) :
  PrimFloat.is_nan lo = false -> PrimFloat.is_nan hi = false -> (lo <=? hi) = true ->
  (lo <=? clamp n lo hi) = true /\ (clamp n lo hi <=? hi) = true.
Proof.
  intros Hlo Hhi Hle. unfold clamp.
  destruct (PrimFloat.is_nan n) eqn:En; [split; [now apply leb_refl | exact Hle]|].
  destruct (@Math_max_above lo n Hlo En) as [H1 H2].
  set (r := Math_max lo n) in *. unfold Math_min. rewrite Hhi, H2. cbn [orb].
  destruct (hi <? r) eqn:E1; [split; [exact Hle | now apply leb_refl]|].
  destruct (r <? hi) eqn:E2; [split; [exact H1 | now apply ltb_leb]|].
  destruct (PrimFloat.is_zero hi && negb (PrimFloat.get_sign hi)).
  - split; [exact H1 | now apply neither_less].
  - split; [exact Hle | now apply leb_refl].
Qed.

(** Whatever number it is given, NaN and the infinities included, [clamp]
    returns a number between its bounds, when these are numbers in their
    order. *)
Theorem clamp_stays_in_range (n lo hi : float) :
  PrimFloat.is_nan lo = false -> PrimFloat.is_nan hi = false -> (lo <=? hi) = true ->
  (lo <=? clamp n lo hi) = true /\ (clamp n lo hi <=? hi) = true.
Proof. apply clamp_range. Qed.

Section Dialog.

Context {P : Platform}.
Variable Number : jsstring -> float.

Lemma max_tokens_entry (s thread_messages payload : value) :
  buildPayload s thread_messages = Some payload ->
  has_key payload (js "max_tokens") = negb (nullish (get s (js "max_tokens"))) /\
  get payload (js "max_tokens") =
  if nullish (get s (js "max_tokens")) then VUndefined else get s (js "max_tokens").
Proof.
  unfold buildPayload. destruct (nullish s); [discriminate|].
  destruct (build_messages s thread_messages) as [msgs|]; [|discriminate].
  intros H; inversion H; subst; clear H.
  assert (Hget : forall props k, get (VObject props) k = own props k) by reflexivity.
  rewrite Hget. clear Hget.
  unfold has_key, copy_if_truthy, flag_if_truthy, copy_if_length.
  rewrite !add_if_entry, <- !app_assoc.
  rewrite !has_own_append, !own_append, !has_own_entry, !own_entry.
  decide_keys; cbv beta iota delta [has_own own andb orb];
    decide_keys; cbv beta iota delta [andb orb].
  destruct (nullish (get s (js "max_tokens"))); split; reflexivity.
Qed.

Lemma stored_max_tokens (f : form) :
  get (readSettingsFromUI Number f) (js "max_tokens") = max_tokens_of Number f.
Proof.
  unfold readSettingsFromUI, get. cbv beta iota delta [own]. decide_keys. reflexivity.
Qed.

(** Whatever is typed into the token limit of the dialog, the request that
    is built from the settings read there carries a limit that is a number
    from 1 to 128000, never NaN, and carries none when the control holds only
    white space. *)
Theorem typed_token_limit_is_in_range (f : form) (thread_messages payload : value) :
  buildPayload (readSettingsFromUI Number f) thread_messages = Some payload ->
  if nonempty (trim (maxTokens f))
  then exists n, get payload (js "max_tokens") = VNumber n /\
                 (1 <=? n) = true /\ (n <=? 128000) = true
  else has_key payload (js "max_tokens") = false.
Proof.
  intros H. destruct (max_tokens_entry _ _ H) as [Hk Hv].
  rewrite stored_max_tokens in Hk, Hv. unfold max_tokens_of in Hk, Hv.
  destruct (nonempty (trim (maxTokens f))).
  - exists (clamp (Number (trim (maxTokens f))) 1 128000). split; [exact Hv|].
    apply clamp_range; reflexivity.
  - exact Hk.
Qed.

End Dialog.

End SettingsMore.

(** ** More worked examples *)

Module WorkedMore.

Import JsString Js TextDecoder Sse Merge Poller Payload Server Fixture Samples.
Import PayloadShape ServerShape Lists Html Threads Settings MoreSamples.
Import DecoderMore MergeMore PollerMore PayloadMore ServerMore ListsMore HtmlMore ThreadsMore
  SettingsMore.

(** An event that follows the sentinel is not decoded. *)
Lemma done_ends_decoding_witness :
  snd (fst (read_loop fresh [done_stream])) = Sse.Returned /\
  consumeSSE ([done_stream] ++ [late_event]) = consumeSSE [done_stream].
Proof.
  split; [vm_compute; reflexivity|].
  apply done_ends_decoding. vm_compute. reflexivity.
Defined.

(** Merging the same final payload a second time. *)
Lemma final_merge_idempotent_witness :
  exists m1,
    applyPerplexityFinal new_assistant answer = Some m1 /\
    applyPerplexityFinal m1 answer = Some m1.
Proof.
  eexists. split; [vm_compute; reflexivity|].
  apply (@final_merge_idempotent _ new_assistant). vm_compute. reflexivity.
Defined.

(** A stream of a content delta and a list of citations on a message that
    already has content. *)
Lemma streamed_content_append_only_witness :
  exists msg',
    merge_chunks (seeded new_assistant (js "job-1"))
      [content_event (js "Hel"); citing [js "https://a"]] = Some msg' /\
    (exists suffix, content msg' = content (seeded new_assistant (js "job-1")) ++ suffix) /\
    role msg' = role (seeded new_assistant (js "job-1")) /\
    async (meta_of msg') = async (meta_of (seeded new_assistant (js "job-1"))).
Proof.
  eexists. split; [vm_compute; reflexivity|].
  apply (@streamed_content_append_only _ [content_event (js "Hel"); citing [js "https://a"]]).
  vm_compute. reflexivity.
Defined.

(** A stream whose event has an object with a [toString] member for its
    content. *)
Lemma streamed_fails_only_on_content_witness :
  Chat.streamed new_assistant [unprintable] = None /\
  exists e,
    In e (consumeSSE [unprintable]) /\
    ToString (get_opt (delta_of e) (js "content")) = None.
Proof.
  split; [vm_compute; reflexivity|].
  apply (@streamed_fails_only_on_content _ new_assistant). vm_compute. reflexivity.
Defined.

(** A job that stays in its non-terminal states. *)
Lemma polling_waits_indefinitely_witness :
  nullish job = false /\
  Forall non_terminal pending /\
  exists m',
    run (start new_assistant) (submitted job ++ flat_map polled pending) =
      looping m' (get job (js "id")) /\
    same_result (seeded new_assistant (js "job-1")) m'.
Proof.
  assert (Hp : Forall non_terminal pending)
    by (repeat constructor; try reflexivity; discriminate).
  split; [reflexivity|]. split; [exact Hp|].
  apply (@polling_waits_indefinitely _ new_assistant job pending (js "job-1") (js "job-1")).
  - reflexivity.
  - reflexivity.
  - vm_compute. reflexivity.
  - exact Hp.
Defined.

(** A job that fails at its first poll. *)
Lemma failed_job_throws_its_message_witness :
  at_ (run (start new_assistant) (submitted job ++ [TimerFired; FetchResolved 200]))
    = Awaiting PollJson /\
  at_ (step (run (start new_assistant) (submitted job ++ [TimerFired; FetchResolved 200]))
         (JsonRead failed_job)) = Done (Threw (Error (js "quota"))) /\
  same_result
    (msg (run (start new_assistant) (submitted job ++ [TimerFired; FetchResolved 200])))
    (msg (step (run (start new_assistant)
                  (submitted job ++ [TimerFired; FetchResolved 200]))
            (JsonRead failed_job))).
Proof.
  split; [vm_compute; reflexivity|].
  apply failed_job_throws_its_message.
  - vm_compute. reflexivity.
  - reflexivity.
  - reflexivity.
Defined.

(** A poll that the proxy answers with 502. *)
Lemma poll_http_error_is_fatal_witness :
  at_ (run (start new_assistant) (submitted job ++ [TimerFired])) = Awaiting PollFetch /\
  run (run (start new_assistant) (submitted job ++ [TimerFired]))
    [FetchResolved 502; TextRead (js "bad gateway"); TimerFired] =
  finish (run (start new_assistant) (submitted job ++ [TimerFired]))
    (Threw (http_error (js "Async poll error") 502 (js "bad gateway"))).
Proof.
  split; [vm_compute; reflexivity|].
  apply poll_http_error_is_fatal.
  - vm_compute. reflexivity.
  - reflexivity.
Defined.

(** The token limit and the image flag of a configuration that sets both. *)
Lemma optional_field_sent_verbatim_witness :
  exists payload,
    buildPayload busy (VArray [user_message]) = Some payload /\
    has_key payload (payload_key MaxTokens) = true /\
    get payload (payload_key MaxTokens) = VNumber 256 /\
    get payload (payload_key ReturnImages) = VBool true.
Proof.
  eexists. split; [vm_compute; reflexivity|]. split; [reflexivity|]. split.
  - apply (@optional_field_sent_verbatim _ busy (VArray [user_message]) _ MaxTokens);
      reflexivity.
  - apply (@optional_field_sent_verbatim _ busy (VArray [user_message]) _ ReturnImages);
      reflexivity.
Defined.

(** A thread of one message under a system prompt with blanks around it. *)
Lemma payload_messages_complete_witness :
  get busy (js "system_prompt") = VString (js "  Be brief. ") /\
  exists payload,
    buildPayload busy (VArray [user_message]) = Some payload /\
    exists cloned,
      get payload (js "messages") =
        VArray (system_message (js "  Be brief. ") ++ cloned) /\
      Forall2 cloned_from [user_message] cloned.
Proof.
  split; [reflexivity|].
  eexists. split; [vm_compute; reflexivity|].
  apply (@payload_messages_complete _ busy); reflexivity.
Defined.

(** A request that carries its key in the second of the two headers. *)
Lemma upstream_call_carries_the_callers_key_witness :
  exists call,
    In call (fst (handle always_ok Chat keyed)) /\
    fst (handle always_ok Chat keyed) = [call] /\
    exists name v,
      In name [js "x-pplx-key"; js "x-perplexity-key"] /\ header keyed name = Some v /\
      trim v <> [] /\ authorization call = js "Bearer " ++ trim v.
Proof.
  eexists. split; [left; reflexivity|].
  apply upstream_call_carries_the_callers_key. left. reflexivity.
Defined.

(** An id with a slash, a question mark and a hash in it. *)
Lemma polled_url_is_one_segment_witness :
  exists call,
    In call (fst (handle always_ok AsyncGet keyed)) /\
    exists segment,
      url call = async_completions ++ js "/" ++ segment /\
      Forall (fun c => separator c = false) segment /\ method call = js "GET".
Proof.
  eexists. split; [left; reflexivity|].
  apply (@polled_url_is_one_segment always_ok keyed). left. reflexivity.
Defined.

(** The URL that id is sent to. *)
Example escaped_poll_url :
  map url (fst (handle always_ok AsyncGet keyed)) =
  [js "https://api.perplexity.ai/async/chat/completions/..%2Fa%3Fb%23c"].
Proof. vm_compute. reflexivity. Qed.

(** A thread whose message has an image and a file attached. *)
Lemma stored_messages_hold_text_only_witness :
  get chat_with_attachments (js "messages") =
    VArray [buildUserMessage [photo] [report] (js "What is this?")] /\
  exists t',
    safe_thread chat_with_attachments = Some t' /\
    exists safe,
      get t' (js "messages") = VArray safe /\
      Forall2 (fun m m' =>
                 (exists text, get m' (js "content") = VString text) /\
                 forall props k, m = VObject props -> k <> js "content" ->
                                 get m' k = get m k)
        [buildUserMessage [photo] [report] (js "What is this?")] safe.
Proof.
  split; [reflexivity|].
  eexists. split; [vm_compute; reflexivity|].
  apply (@stored_messages_hold_text_only _ chat_with_attachments); reflexivity.
Defined.

(** What is stored for that message. *)
Example stored_attachment_note :
  safe_message (buildUserMessage [photo] [report] (js "What is this?")) =
  Some (VObject [(js "role", VString (js "user"));
                 (js "content",
                  VString (js "What is this?" ++ [10; 10]%N
                           ++ js "[Attachments: 1 image(s), 1 file(s)]"))]).
Proof. vm_compute. reflexivity. Qed.

(** The stored form of that message, stored again. *)
Lemma saving_again_changes_nothing_witness :
  exists m',
    safe_message (buildUserMessage [photo] [report] (js "What is this?")) = Some m' /\
    safe_message m' = Some m'.
Proof.
  eexists. split; [vm_compute; reflexivity|].
  apply (@saving_again_changes_nothing _
           (buildUserMessage [photo] [report] (js "What is this?"))).
  vm_compute. reflexivity.
Defined.

(** Deleting the active one of two chats. *)
Lemma delete_keeps_an_active_thread_witness :
  activeThread two_chats <> None /\
  activeThread (deleteThread (js "u") (js "now") (js "t1") two_chats) <> None /\
  threads (deleteThread (js "u") (js "now") (js "t1") two_chats) <> [] /\
  (activeThreadId two_chats <> Some (js "t1") ->
   activeThread (deleteThread (js "u") (js "now") (js "t1") two_chats) =
   activeThread two_chats).
Proof.
  assert (H : activeThread two_chats <> None) by (vm_compute; discriminate).
  split; [exact H|]. apply delete_keeps_an_active_thread, H.
Defined.

(** The chat that is active after that deletion. *)
Example delete_active_selects_first :
  deleteThread (js "u") (js "now") (js "t1") two_chats =
  {| threads := [chat (js "t2")]; activeThreadId := Some (js "t2") |}.
Proof. vm_compute. reflexivity. Qed.

(** Lists as they are typed and as they are read. *)
Example parse_list_example :
  parseList (text "example.org, ,|| wikipedia.org |,") =
  [js "example.org"; js "wikipedia.org"].
Proof. vm_compute. reflexivity. Qed.

Example escape_example :
  escapeHtml (text "<a href='x'>R&D</a>") =
  text "&lt;a href=&quot;x&quot;&gt;R&amp;D&lt;/a&gt;".
Proof. vm_compute. reflexivity. Qed.

Example download_name_example :
  download_name {| thread_id := js "t1"; title := js "../etc/passwd: notes";
                   createdAt := []; thread_messages := [] |} =
  js "_etc_passwd_notes.md".
Proof. vm_compute. reflexivity. Qed.

(** A number above the upper bound, infinity itself. *)
Lemma clamp_stays_in_range_witness :
  (1 <=? 128000)%float = true /\
  (1 <=? clamp PrimFloat.infinity 1 128000)%float = true /\
  (clamp PrimFloat.infinity 1 128000 <=? 128000)%float = true.
Proof.
  split; [reflexivity|].
  apply clamp_stays_in_range; reflexivity.
Defined.

Example clamp_examples :
  clamp PrimFloat.nan 1 128000 = 1%float /\
  clamp PrimFloat.neg_infinity 1 128000 = 1%float /\
  clamp 4096 1 128000 = 4096%float /\
  clamp PrimFloat.infinity 1 128000 = 128000%float.
Proof. repeat split; vm_compute; reflexivity. Qed.

(** A token limit typed with one digit too many. *)
Lemma typed_token_limit_is_in_range_witness :
  exists payload,
    buildPayload (readSettingsFromUI number_of (typed (js " 1280000 ")))
      (VArray [user_message]) = Some payload /\
    exists n, get payload (js "max_tokens") = VNumber n /\
              (1 <=? n)%float = true /\ (n <=? 128000)%float = true.
Proof.
  eexists. split; [vm_compute; reflexivity|].
  refine (@typed_token_limit_is_in_range _ number_of (typed (js " 1280000 "))
            (VArray [user_message]) _ _).
  vm_compute. reflexivity.
Defined.

(** What is sent for a limit that is too large, for one that is no number,
    and for none. *)
Example typed_limits :
  map (fun limit =>
         option_map (fun payload => get payload (js "max_tokens"))
           (buildPayload (readSettingsFromUI number_of (typed limit))
              (VArray [user_message])))
    [js " 1280000 "; js "many"; js "512"; js "  "] =
  [Some (VNumber 128000); Some (VNumber 1); Some (VNumber 512); Some VUndefined].
Proof. vm_compute. reflexivity. Qed.

(** The base keys of the request for the configuration of the spec's
    example. *)
Lemma base_keys_always_sent_witness :
  exists payload,
    buildPayload sonar_only (VArray [user_message]) = Some payload /\
    has_key payload (js "stream") = true /\
    has_key payload (js "safe_search") = true.
Proof.
  eexists. split; [vm_compute; reflexivity|]. split.
  - apply (@PayloadFacts.base_keys_always_sent _ sonar_only (VArray [user_message]));
      [reflexivity | simpl; tauto].
  - apply (@PayloadFacts.base_keys_always_sent _ sonar_only (VArray [user_message]));
      [reflexivity | simpl; tauto].
Defined.

End WorkedMore.
